(** * artistdapp: slug codec, field validators, availability checker,
      mint flow and view routing

    A shallow embedding of the logic of
    - [src/utils/urlUtils.ts]                    ([createSlug], [decodeSlug]),
    - [src/pages/Home.tsx]                       (dashboard: validators,
                                                  availability checks, project form),
    - [src/components/projects/ProjectsApp.tsx]  (gallery, project view, mint flow).

    JavaScript strings are sequences of UTF-16 code units; React state is
    threaded explicitly; calls that leave the component (fetch, wallet
    hooks) are recorded in an effect log. *)

From Stdlib Require Import List NArith ZArith Bool Lia String Ascii.
From Stdlib Require Import Floats.PrimFloat.
From Stdlib Require Import DecimalString.
Import ListNotations.

Set Implicit Arguments.
Set Warnings "-register-all".

(* ================================================================== *)
(** * Part I: definitions                                              *)
(* ================================================================== *)

(** ** JavaScript strings *)

(** A string value: its UTF-16 code units, each in [0, 65535]. *)
Definition jsstring := list N.

(** A literal of the source, for the Basic Latin text the code uses. *)
Definition js (s : string) : jsstring :=
  map N_of_ascii (list_ascii_of_string s).

(** Truthiness of a string: [!s] holds exactly for the empty string. *)
Definition truthy (s : jsstring) : bool :=
  match s with [] => false | _ :: _ => true end.

(** Truthiness of an optional string ([undefined] is falsy). *)
Definition present (o : option jsstring) : bool :=
  match o with Some s => truthy s | None => false end.

Fixpoint jsstring_eqb (a b : jsstring) : bool :=
  match a, b with
  | [], [] => true
  | x :: a', y :: b' => (x =? y)%N && jsstring_eqb a' b'
  | _, _ => false
  end.

Local Open Scope N_scope.

(** *** Character classes of the regular expressions *)

Definition isUpperAscii (c : N) : bool := (65 <=? c) && (c <=? 90).
Definition isLowerAscii (c : N) : bool := (97 <=? c) && (c <=? 122).
Definition isDigit (c : N) : bool := (48 <=? c) && (c <=? 57).
Definition isAscii (c : N) : bool := c <? 128.

Definition underscore : N := 95.
Definition hyphen : N := 45.
Definition space : N := 32.
Definition slash : N := 47.

(** [\w] : [[A-Za-z0-9_]]. *)
Definition isWordChar (c : N) : bool :=
  isUpperAscii c || isLowerAscii c || isDigit c || (c =? underscore).

(** [\s], which is also the set [String.prototype.trim] strips: the
    ECMAScript WhiteSpace and LineTerminator code points. *)
Definition isWhiteSpace (c : N) : bool :=
  ((9 <=? c) && (c <=? 13)) || (c =? 32) || (c =? 160) || (c =? 5760)
  || ((8192 <=? c) && (c <=? 8202)) || (c =? 8232) || (c =? 8233)
  || (c =? 8239) || (c =? 8287) || (c =? 12288) || (c =? 65279).

Definition isHyphen (c : N) : bool := c =? hyphen.

(** [[a-fA-F0-9]]. *)
Definition isHexDigit (c : N) : bool :=
  ((97 <=? c) && (c <=? 102)) || ((65 <=? c) && (c <=? 70)) || isDigit c.

(** *** String methods *)

Fixpoint trimStart (s : jsstring) : jsstring :=
  match s with
  | [] => []
  | c :: t => if isWhiteSpace c then trimStart t else s
  end.

Definition trimEnd (s : jsstring) : jsstring := rev (trimStart (rev s)).

(** [s.trim()]. *)
Definition trim (s : jsstring) : jsstring := trimEnd (trimStart s).

(** [s.replace(/[class]/g, r)]: every code unit of the class becomes [r]. *)
Fixpoint replaceEach (p : N -> bool) (r : jsstring) (s : jsstring) : jsstring :=
  match s with
  | [] => []
  | c :: t => if p c then r ++ replaceEach p r t else c :: replaceEach p r t
  end.

(** [s.replace(/[class]+/g, r)]: the matcher is greedy and scans left to
    right, so every maximal run of the class becomes one [r]. [inRun]
    tells that the code unit before belongs to a run already replaced. *)
Fixpoint replaceRuns (p : N -> bool) (r : jsstring) (inRun : bool)
    (s : jsstring) : jsstring :=
  match s with
  | [] => []
  | c :: t =>
      if p c
      then (if inRun then [] else r) ++ replaceRuns p r true t
      else c :: replaceRuns p r false t
  end.

(** [s.split(sep)] for a one-unit separator; never the empty array. *)
Fixpoint split (sep : N) (s : jsstring) : list jsstring :=
  match s with
  | [] => [[]]
  | c :: t =>
      if c =? sep then [] :: split sep t
      else match split sep t with
           | [] => [[c]]
           | w :: ws => (c :: w) :: ws
           end
  end.

(** [parts.join(sep)]. *)
Fixpoint join (sep : jsstring) (parts : list jsstring) : jsstring :=
  match parts with
  | [] => []
  | [w] => w
  | w :: ws => w ++ sep ++ join sep ws
  end.

(** [s.length], of a string or of an array. *)
Definition len {A : Type} (s : list A) : N := N.of_nat (List.length s).

(** [s.charAt(0)] and [s.slice(1)]. *)
Definition charAt0 (s : jsstring) : jsstring := firstn 1 s.
Definition slice1 (s : jsstring) : jsstring := skipn 1 s.

(** Case mapping restricted to Basic Latin. *)
Definition lowerAscii (c : N) : N := if isUpperAscii c then c + 32 else c.
Definition upperAscii (c : N) : N := if isLowerAscii c then c - 32 else c.

(** The host's Unicode case conversion. The tables belong to the
    JavaScript engine, not to this repository: the class fixes what the
    code relies on. On Basic Latin text the conversion is the letterwise
    one; no lower-cased string holds one of [A-Z]; upper-casing never
    erases a string. *)
Class CaseMapping : Type := {
  toLowerCase : jsstring -> jsstring;
  toUpperCase : jsstring -> jsstring;
  toLowerCase_ascii :
    forall s, forallb isAscii s = true -> toLowerCase s = map lowerAscii s;
  toLowerCase_no_upper :
    forall s, forallb (fun c => negb (isUpperAscii c)) (toLowerCase s) = true;
  toUpperCase_ascii :
    forall s, forallb isAscii s = true -> toUpperCase s = map upperAscii s;
  toUpperCase_nonempty :
    forall s, truthy s = true -> truthy (toUpperCase s) = true
}.

(** The letterwise mapping of [A-Z] and [a-z] that leaves every other code
    unit as it is: it meets the interface, and runs the codec on Basic
    Latin text as any host does. *)
Definition basicLatin : CaseMapping.
Proof.
  refine {| toLowerCase := map lowerAscii;
            toUpperCase := map upperAscii;
            toLowerCase_ascii := fun s _ => eq_refl;
            toUpperCase_ascii := fun s _ => eq_refl;
            toLowerCase_no_upper := _;
            toUpperCase_nonempty := _ |}.
  - intros s. induction s as [|c t IH]; simpl; [reflexivity|].
    rewrite IH, andb_true_r. apply negb_true_iff.
    unfold lowerAscii. destruct (isUpperAscii c) eqn:E; [|exact E].
    unfold isUpperAscii in *.
    apply andb_true_iff in E. destruct E as [E1 E2].
    apply N.leb_le in E1, E2.
    apply andb_false_iff. right. apply N.leb_gt. lia.
  - intros s. now destruct s.
Defined.

(** ** Slug codec ([urlUtils.ts], repeated in [ProjectsApp.tsx]) *)

Section SlugCodec.
Context {host : CaseMapping}.

(** [.replace(/[^\w\s-]/g, '')] *)
Definition isSpecial (c : N) : bool :=
  negb (isWordChar c || isWhiteSpace c || isHyphen c).

Definition createSlug (name : jsstring) : jsstring :=
  replaceRuns isHyphen [hyphen] false
    (replaceRuns isWhiteSpace [hyphen] false
      (replaceEach isSpecial []
        (trim (toLowerCase name)))).

Definition capitalize (word : jsstring) : jsstring :=
  toUpperCase (charAt0 word) ++ slice1 word.

Definition decodeSlug (slug : jsstring) : jsstring :=
  join [space]
    (map capitalize
      (split space (replaceEach isHyphen [space] slug))).
End SlugCodec.

(** What a slug is made of: [[a-z0-9_-]]. *)
Definition isSlugChar (c : N) : bool :=
  isLowerAscii c || isDigit c || (c =? underscore) || isHyphen c.

(** No two adjacent code units of the class [p]; [prev] tells that the
    code unit before is one. *)
Fixpoint runFree (p : N -> bool) (prev : bool) (s : jsstring) : bool :=
  match s with
  | [] => true
  | c :: t => if p c then negb prev && runFree p true t else runFree p false t
  end.

(** [s.startsWith(t)] and [s.includes(t)] *)
Fixpoint startsWith (t s : jsstring) : bool :=
  match t, s with
  | [], _ => true
  | x :: t', y :: s' => (x =? y) && startsWith t' s'
  | _ :: _, [] => false
  end.

Fixpoint includes (s t : jsstring) : bool :=
  startsWith t s ||
  match s with
  | [] => false
  | _ :: s' => includes s' t
  end.

(** ** Values both components use *)

(** The values of JSON, as [response.json()] yields them. *)
Inductive json : Type :=
| JNull
| JBool (b : bool)
| JNumber (x : float)
| JString (s : jsstring)
| JArray (items : list json)
| JObject (fields : list (jsstring * json)).

(** A JavaScript value of the model: [None] is [undefined]. *)
Definition jsvalue := option json.

Definition null : jsvalue := Some JNull.

(** The last binding of the key, as [JSON.parse] keeps it. *)
Fixpoint lookupField (k : jsstring) (fields : list (jsstring * json)) : jsvalue :=
  match fields with
  | [] => None
  | (k', v) :: rest =>
      match lookupField k rest with
      | Some w => Some w
      | None => if jsstring_eqb k k' then Some v else None
      end
  end.

(** Reading a property that is not a method or a length: [None] when the
    read throws a TypeError (on [null]), else the value. *)
Definition getProp (j : json) (k : jsstring) : option jsvalue :=
  match j with
  | JNull => None
  | JObject fields => Some (lookupField k fields)
  | _ => Some None
  end.

Definition isTruthy (v : jsvalue) : bool :=
  match v with
  | None | Some JNull => false
  | Some (JBool b) => b
  | Some (JNumber x) => negb (PrimFloat.eqb x 0 || negb (PrimFloat.eqb x x))
  | Some (JString s) => truthy s
  | Some (JArray _) | Some (JObject _) => true
  end.

(** [v === false] and [v !== null]. *)
Definition isFalse (v : jsvalue) : bool :=
  match v with Some (JBool false) => true | _ => false end.
Definition isNotNull (v : jsvalue) : bool :=
  match v with Some JNull => false | _ => true end.

Inductive MessageType : Type := success | error | info.

Record Message : Type := { text : jsstring; type : MessageType }.

Definition isError (m : Message) : bool :=
  match type m with error => true | _ => false end.

Definition API_BASE_URL : jsstring := js "https://muse-be.onrender.com".

(** ** The dashboard ([Home.tsx]) *)

Module Home.

Record Artist : Type := {
  id : jsstring;
  name : jsstring;
  email : option jsstring;
  mobile : option jsstring
}.

(** A file picked by the user; [dataURL] is what
    [FileReader.readAsDataURL] yields, [None] when the read fails. *)
Record File : Type := {
  size : N;
  mime : jsstring;
  dataURL : option jsstring
}.

Record FormData : Type := {
  projectName : jsstring;
  projectSymbol : jsstring;
  image : option File;
  totalSupply : jsstring;
  mintPrice : jsstring;
  contractOwner : jsstring;
  royalties : jsstring
}.

Definition emptyForm : FormData :=
  {| projectName := []; projectSymbol := []; image := None; totalSupply := [];
     mintPrice := []; contractOwner := []; royalties := [] |}.

(** The component state the modelled handlers read or write. *)
Record State : Type := {
  artistData : option Artist;
  formData : FormData;
  projectNameAvailable : jsvalue;
  projectSymbolAvailable : jsvalue;
  checkingProjectName : bool;
  checkingProjectSymbol : bool;
  submitting : bool;
  message : option Message;
  previewUrl : option jsstring
}.

(** [artistData?.id], when truthy. *)
Definition artistId (st : State) : option jsstring :=
  match artistData st with
  | Some a => if truthy (id a) then Some (id a) else None
  | None => None
  end.

(** *** The network *)

Inductive Method : Type := GET | POST.

Record Request : Type := {
  url : jsstring;
  method : Method;
  body : option json
}.

(** What [await fetch(...)] and then [await response.json()] give:
    [fetch] rejects, or a response arrives with its [ok] flag and a body
    that parses as JSON or not ([None]: [response.json()] rejects). *)
Inductive Response : Type :=
| FetchRejected
| HttpResponse (ok : bool) (payload : option json).

Definition Network := Request -> Response.

(** What a handler does outside the component state, in order. *)
Inductive Effect : Type :=
| EFetch (r : Request)
| EMessage (m : Message).

Definition requests (log : list Effect) : list Request :=
  flat_map (fun e => match e with EFetch r => [r] | EMessage _ => [] end) log.

Definition messages (log : list Effect) : list Message :=
  flat_map (fun e => match e with EMessage m => [m] | EFetch _ => [] end) log.

(** The error messages raised, in order. *)
Definition errors (log : list Effect) : list jsstring :=
  map text (filter isError (messages log)).

(** *** Handlers: the pending state is threaded, effects are logged *)

Definition Act (A : Type) : Type := State -> A * State * list Effect.

Definition ret {A : Type} (a : A) : Act A := fun st => (a, st, []).

Definition bind {A B : Type} (m : Act A) (k : A -> Act B) : Act B :=
  fun st =>
    let r1 := m st in
    let r2 := k (fst (fst r1)) (snd (fst r1)) in
    (fst (fst r2), snd (fst r2), snd r1 ++ snd r2).

Declare Scope act_scope.
Delimit Scope act_scope with act.
Notation "x <- m ;; k" := (bind m (fun x => k))
  (at level 61, m at next level, right associativity) : act_scope.
Notation "m ;; k" := (bind m (fun _ => k))
  (at level 61, right associativity) : act_scope.
Local Open Scope act_scope.

Definition setMessage (m : Message) : Act unit := fun st =>
  (tt,
   {| artistData := artistData st; formData := formData st;
      projectNameAvailable := projectNameAvailable st;
      projectSymbolAvailable := projectSymbolAvailable st;
      checkingProjectName := checkingProjectName st;
      checkingProjectSymbol := checkingProjectSymbol st;
      submitting := submitting st; message := Some m;
      previewUrl := previewUrl st |},
   [EMessage m]).

Definition setProjectNameAvailable (v : jsvalue) : Act unit := fun st =>
  (tt,
   {| artistData := artistData st; formData := formData st;
      projectNameAvailable := v;
      projectSymbolAvailable := projectSymbolAvailable st;
      checkingProjectName := checkingProjectName st;
      checkingProjectSymbol := checkingProjectSymbol st;
      submitting := submitting st; message := message st;
      previewUrl := previewUrl st |},
   []).

Definition setProjectSymbolAvailable (v : jsvalue) : Act unit := fun st =>
  (tt,
   {| artistData := artistData st; formData := formData st;
      projectNameAvailable := projectNameAvailable st;
      projectSymbolAvailable := v;
      checkingProjectName := checkingProjectName st;
      checkingProjectSymbol := checkingProjectSymbol st;
      submitting := submitting st; message := message st;
      previewUrl := previewUrl st |},
   []).

Definition setCheckingProjectName (b : bool) : Act unit := fun st =>
  (tt,
   {| artistData := artistData st; formData := formData st;
      projectNameAvailable := projectNameAvailable st;
      projectSymbolAvailable := projectSymbolAvailable st;
      checkingProjectName := b;
      checkingProjectSymbol := checkingProjectSymbol st;
      submitting := submitting st; message := message st;
      previewUrl := previewUrl st |},
   []).

Definition setCheckingProjectSymbol (b : bool) : Act unit := fun st =>
  (tt,
   {| artistData := artistData st; formData := formData st;
      projectNameAvailable := projectNameAvailable st;
      projectSymbolAvailable := projectSymbolAvailable st;
      checkingProjectName := checkingProjectName st;
      checkingProjectSymbol := b;
      submitting := submitting st; message := message st;
      previewUrl := previewUrl st |},
   []).

Definition setSubmitting (b : bool) : Act unit := fun st =>
  (tt,
   {| artistData := artistData st; formData := formData st;
      projectNameAvailable := projectNameAvailable st;
      projectSymbolAvailable := projectSymbolAvailable st;
      checkingProjectName := checkingProjectName st;
      checkingProjectSymbol := checkingProjectSymbol st;
      submitting := b; message := message st;
      previewUrl := previewUrl st |},
   []).

Definition setFormData (f : FormData) : Act unit := fun st =>
  (tt,
   {| artistData := artistData st; formData := f;
      projectNameAvailable := projectNameAvailable st;
      projectSymbolAvailable := projectSymbolAvailable st;
      checkingProjectName := checkingProjectName st;
      checkingProjectSymbol := checkingProjectSymbol st;
      submitting := submitting st; message := message st;
      previewUrl := previewUrl st |},
   []).

Definition setPreviewUrl (u : option jsstring) : Act unit := fun st =>
  (tt,
   {| artistData := artistData st; formData := formData st;
      projectNameAvailable := projectNameAvailable st;
      projectSymbolAvailable := projectSymbolAvailable st;
      checkingProjectName := checkingProjectName st;
      checkingProjectSymbol := checkingProjectSymbol st;
      submitting := submitting st; message := message st;
      previewUrl := u |},
   []).

Definition fetch (net : Network) (r : Request) : Act Response :=
  fun st => (net r, st, [EFetch r]).

(** The three parts of what a handler run gives. *)
Definition valueOf {A : Type} (r : A * State * list Effect) : A := fst (fst r).
Definition stateOf {A : Type} (r : A * State * list Effect) : State := snd (fst r).
Definition logOf {A : Type} (r : A * State * list Effect) : list Effect := snd r.

(** The request fails, or the body of the response does not parse. *)
Definition failed (r : Response) : bool :=
  match r with
  | FetchRejected | HttpResponse _ None => true
  | HttpResponse _ (Some _) => false
  end.

(** *** Field validators *)

Definition digitsOnly (mobile : jsstring) : jsstring :=
  replaceEach (fun c => negb (isDigit c)) [] mobile.

Definition validateMobile (mobile : jsstring) : jsstring :=
  if negb (truthy mobile) then js "Mobile number is required"
  else
    let digitsOnly := digitsOnly mobile in
    if (len digitsOnly <? 10)
    then js "Please enter a valid mobile number"
    else if (15 <? len digitsOnly)
    then js "Phone number cannot exceed 15 digits"
    else [].

Definition validateName (name : jsstring) : jsstring :=
  if negb (truthy name) then js "Name is required"
  else if (30 <? len name) then js "Name must be 30 characters or less"
  else if (len name <? 2) then js "Name must be at least 2 characters"
  else [].

Definition validatePassword (password : jsstring) : jsstring :=
  if negb (truthy password) then js "Password is required"
  else if (len password <? 6)
  then js "Password must be at least 6 characters"
  else [].

(** [/^0x[a-fA-F0-9]{40}$/.test(s)] *)
Definition ethAddressRegex (s : jsstring) : bool :=
  match s with
  | 48 :: 120 :: rest => (len rest =? 40) && forallb isHexDigit rest
  | _ => false
  end.

(** *** Availability checks and the project form

    A handler runs as the closure of one render: it reads [snap], the
    state of that render, while its [set...] calls build the pending
    state. [parseInt] and [parseFloat] are the host's conversions of a
    string to a double. The waits ([setTimeout]) of the source are not
    modelled: a handler runs to its end without interleaving. *)

Section Handlers.
Context {host : CaseMapping}.
Variable parseInt : jsstring -> float.
Variable parseFloat : jsstring -> float.
Variable net : Network.
Variable snap : State.

Definition checkSymbolRequest (projectSymbol artistId : jsstring) : Request :=
  {| url := API_BASE_URL ++ js "/api/artists/check-project-symbol";
     method := POST;
     body := Some (JObject [(js "projectSymbol", JString (trim projectSymbol));
                            (js "artistId", JString artistId)]) |}.

Definition checkNameRequest (projectName artistId : jsstring) : Request :=
  {| url := API_BASE_URL ++ js "/api/artists/check-project-name";
     method := POST;
     body := Some (JObject [(js "projectName", JString (trim projectName));
                            (js "artistId", JString artistId)]) |}.

Definition checkProjectSymbolAvailability (projectSymbol : jsstring) : Act unit :=
  if negb (truthy (trim projectSymbol))
     || (len (trim projectSymbol) <? 1)
  then setProjectSymbolAvailable null
  else
    match artistId snap with
    | None => ret tt
    | Some aid =>
        setCheckingProjectSymbol true ;;
        response <- fetch net (checkSymbolRequest projectSymbol aid) ;;
        match response with
        | HttpResponse _ (Some result) =>
            match getProp result (js "available") with
            | Some available => setProjectSymbolAvailable available
            | None => setProjectSymbolAvailable null
            end
        | HttpResponse _ None | FetchRejected =>
            setProjectSymbolAvailable null
        end ;;
        setCheckingProjectSymbol false
    end.

Definition checkProjectNameAvailability (projectName : jsstring) : Act unit :=
  if negb (truthy (trim projectName))
     || (len (trim projectName) <? 2)
  then setProjectNameAvailable null
  else
    match artistId snap with
    | None => ret tt
    | Some aid =>
        setCheckingProjectName true ;;
        response <- fetch net (checkNameRequest projectName aid) ;;
        match response with
        | HttpResponse _ (Some result) =>
            match getProp result (js "available") with
            | Some available => setProjectNameAvailable available
            | None => setProjectNameAvailable null
            end
        | HttpResponse _ None | FetchRejected =>
            setProjectNameAvailable null
        end ;;
        setCheckingProjectName false
    end.

(** The verdict a stored value stands for: none while it is [null], else
    by truthiness, as the class and the text of the indicator are chosen
    (lines 1066-1067). Whether the indicator is on the page depends on the
    field as well, see [Dashboard.projectNameIndicator]. *)
Inductive Verdict : Type := unknown | available | taken.

Definition verdict (stored : jsvalue) : Verdict :=
  if isNotNull stored
  then (if isTruthy stored then available else taken)
  else unknown.

Definition fail (t : string) : Act bool :=
  setMessage {| text := js t; type := error |} ;; ret false.

Definition validateForm : Act bool :=
  let formData := formData snap in
  if negb (truthy (trim (projectName formData)))
  then fail "Project name is required"
  else if negb (truthy (trim (projectSymbol formData)))
  then fail "Project symbol is required"
  else if (10 <? len (projectSymbol formData))
  then fail "Project symbol must be 10 characters or less"
  else
    setMessage {| text := js "Checking project name availability...";
                  type := info |} ;;
    checkProjectNameAvailability (projectName formData) ;;
    if isFalse (projectNameAvailable snap)
    then fail "Project name is already taken. Please choose a different name."
    else
      setMessage {| text := js "Checking project symbol availability...";
                    type := info |} ;;
      checkProjectSymbolAvailability (projectSymbol formData) ;;
      if isFalse (projectSymbolAvailable snap)
      then fail "Project symbol is already taken. Please choose a different symbol."
      else if negb (truthy (totalSupply formData))
              || PrimFloat.ltb (parseInt (totalSupply formData)) 1
      then fail "Total supply must be at least 1"
      else if negb (truthy (mintPrice formData))
              || PrimFloat.ltb (parseFloat (mintPrice formData)) 0
      then fail "Mint price cannot be negative"
      else if negb (truthy (royalties formData))
              || PrimFloat.ltb (parseFloat (royalties formData)) 0
      then fail "Royalties cannot be negative"
      else if PrimFloat.ltb 100 (parseFloat (royalties formData))
      then fail "Royalties cannot exceed 100%"
      else if negb (truthy (trim (contractOwner formData)))
      then fail "Contract owner wallet address is required"
      else if negb (ethAddressRegex (trim (contractOwner formData)))
      then fail "Please enter a valid Ethereum wallet address (0x...)"
      else if match image formData with None => true | Some _ => false end
      then fail "Project image is required"
      else ret true.

Definition createProjectRequest (aid imageBase64 : jsstring) : Request :=
  let formData := formData snap in
  {| url := API_BASE_URL ++ js "/api/artists/create-project";
     method := POST;
     body := Some (JObject
       [(js "artistId", JString aid);
        (js "projectName", JString (trim (projectName formData)));
        (js "projectSymbol", JString (toUpperCase (trim (projectSymbol formData))));
        (js "totalSupply", JNumber (parseInt (totalSupply formData)));
        (js "mintPrice", JNumber (parseFloat (mintPrice formData)));
        (js "contractOwner", JString (trim (contractOwner formData)));
        (js "royalties", JNumber (parseFloat (royalties formData)));
        (js "image", JString imageBase64)]) |}.

Definition userProjectsRequest (aid : jsstring) : Request :=
  {| url := API_BASE_URL ++ js "/api/artists/" ++ aid ++ js "/projects";
     method := GET;
     body := None |}.

Definition networkError : Act unit :=
  setMessage {| text := js "Network error. Please check your connection and try again.";
                type := error |}.

(** The [error] of a body whose [error] is a string or falsy, as the API
    types it: [None] when the read throws (the body is [null]),
    [Some None] for a falsy [error], [Some (Some e)] for the text [e].
    A truthy [error] that is not a string is read as a falsy one: the
    handlers are modelled on the bodies of that type only. *)
Definition errorText (result : json) : option (option jsstring) :=
  match getProp result (js "error") with
  | None => None
  | Some (Some (JString s)) => Some (if truthy s then Some s else None)
  | Some _ => Some None
  end.

Definition handleSubmit : Act unit :=
  isValid <- validateForm ;;
  if negb isValid then ret tt
  else
    match artistId snap with
    | None =>
        setMessage {| text := js "Authentication error. Please log in again.";
                      type := error |}
    | Some aid =>
        setSubmitting true ;;
        setMessage {| text := js "Creating project..."; type := info |} ;;
        match image (formData snap) with
        | Some {| dataURL := Some imageBase64 |} =>
            response <- fetch net (createProjectRequest aid imageBase64) ;;
            match response with
            | HttpResponse true (Some _) =>
                setMessage
                  {| text := js "Project created successfully! It's now pending approval.";
                     type := success |} ;;
                setFormData emptyForm ;;
                setProjectNameAvailable null ;;
                setProjectSymbolAvailable null ;;
                setPreviewUrl None ;;
                _ <- fetch net (userProjectsRequest aid) ;;
                ret tt
            | HttpResponse false (Some result) =>
                match errorText result with
                | None => networkError
                | Some None =>
                    setMessage {| text := js "Error creating project"; type := error |}
                | Some (Some e) =>
                    setMessage {| text := e; type := error |} ;;
                    if includes e (js "already exists")
                    then
                      if includes e (js "project name")
                      then setProjectNameAvailable (Some (JBool false))
                      else if includes e (js "project symbol")
                      then setProjectSymbolAvailable (Some (JBool false))
                      else ret tt
                    else ret tt
                end
            | HttpResponse _ None | FetchRejected => networkError
            end
        | _ => networkError
        end ;;
        setSubmitting false
    end.
End Handlers.

(** The rules of the project form in the priority order of the
    specification. [broken] is the condition [validateForm] tests for
    each rule; for the two availability rules that is the verdict of the
    handler's own render ([projectNameAvailable === false] in its
    closure). [report] is the message that reports the rule. *)
Inductive Rule : Type :=
| RName | RSymbol | RSymbolLength | RNameAvailability | RSymbolAvailability
| RTotalSupply | RMintPrice | RRoyalties | RRoyaltiesRange
| ROwnerPresence | ROwnerFormat | RImagePresence.

Definition priority : list Rule :=
  [RName; RSymbol; RSymbolLength; RNameAvailability; RSymbolAvailability;
   RTotalSupply; RMintPrice; RRoyalties; RRoyaltiesRange;
   ROwnerPresence; ROwnerFormat; RImagePresence].

Definition broken (parseInt parseFloat : jsstring -> float) (snap : State)
    (r : Rule) : bool :=
  let f := formData snap in
  match r with
  | RName => negb (truthy (trim (projectName f)))
  | RSymbol => negb (truthy (trim (projectSymbol f)))
  | RSymbolLength => 10 <? len (projectSymbol f)
  | RNameAvailability => isFalse (projectNameAvailable snap)
  | RSymbolAvailability => isFalse (projectSymbolAvailable snap)
  | RTotalSupply =>
      negb (truthy (totalSupply f)) || PrimFloat.ltb (parseInt (totalSupply f)) 1
  | RMintPrice =>
      negb (truthy (mintPrice f)) || PrimFloat.ltb (parseFloat (mintPrice f)) 0
  | RRoyalties =>
      negb (truthy (royalties f)) || PrimFloat.ltb (parseFloat (royalties f)) 0
  | RRoyaltiesRange => PrimFloat.ltb 100 (parseFloat (royalties f))
  | ROwnerPresence => negb (truthy (trim (contractOwner f)))
  | ROwnerFormat => negb (ethAddressRegex (trim (contractOwner f)))
  | RImagePresence => match image f with None => true | Some _ => false end
  end.

Definition report (r : Rule) : jsstring :=
  js match r with
     | RName => "Project name is required"
     | RSymbol => "Project symbol is required"
     | RSymbolLength => "Project symbol must be 10 characters or less"
     | RNameAvailability =>
         "Project name is already taken. Please choose a different name."
     | RSymbolAvailability =>
         "Project symbol is already taken. Please choose a different symbol."
     | RTotalSupply => "Total supply must be at least 1"
     | RMintPrice => "Mint price cannot be negative"
     | RRoyalties => "Royalties cannot be negative"
     | RRoyaltiesRange => "Royalties cannot exceed 100%"
     | ROwnerPresence => "Contract owner wallet address is required"
     | ROwnerFormat => "Please enter a valid Ethereum wallet address (0x...)"
     | RImagePresence => "Project image is required"
     end.

(** First error wins: the first rule of the priority order that is broken. *)
Definition firstBroken (parseInt parseFloat : jsstring -> float) (snap : State)
    : option Rule :=
  find (broken parseInt parseFloat snap) priority.

(** The verdicts the checks of a validation store: what
    [projectNameAvailable] and [projectSymbolAvailable] hold once the
    check of the form's name, or symbol, has run. *)
Definition freshNameAvailable (net : Network) (snap : State) : jsvalue :=
  projectNameAvailable
    (stateOf (checkProjectNameAvailability net snap
                (projectName (formData snap)) snap)).

Definition freshSymbolAvailable (net : Network) (snap : State) : jsvalue :=
  projectSymbolAvailable
    (stateOf (checkProjectSymbolAvailability net snap
                (projectSymbol (formData snap)) snap)).

(** The rules as the specification reads them, and as the comment "Wait
    a bit for state to update" of [validateForm] means them: a candidate
    is refused when the check this validation makes answers that it is
    taken. The other rules are those of [broken]. *)
Definition specBroken (parseInt parseFloat : jsstring -> float)
    (net : Network) (snap : State) (r : Rule) : bool :=
  match r with
  | RNameAvailability => isFalse (freshNameAvailable net snap)
  | RSymbolAvailability => isFalse (freshSymbolAvailable net snap)
  | _ => broken parseInt parseFloat snap r
  end.

Definition specFirstBroken (parseInt parseFloat : jsstring -> float)
    (net : Network) (snap : State) : option Rule :=
  find (specBroken parseInt parseFloat net snap) priority.

(** A handler started on the state of the current render. *)
Definition run {A : Type} (handler : State -> Act A) (st : State)
    : A * State * list Effect :=
  handler st st.

(** What a run of [validateForm] that ends on the report of [rule] looks
    like. *)
Definition reports (rule : Rule) (r : bool * State * list Effect) : Prop :=
  valueOf r = false
  /\ errors (logOf r) = [report rule]
  /\ (exists before,
        logOf r = before ++ [EMessage {| text := report rule; type := error |}])
  /\ message (stateOf r) = Some {| text := report rule; type := error |}.

(** A run of [validateForm] that lets the form through. *)
Definition passes (r : bool * State * list Effect) : Prop :=
  valueOf r = true /\ errors (logOf r) = [].

(** *** Sample states and networks *)

Definition jane : Artist :=
  {| id := js "artist-1"; name := js "Jane Doe"; email := None; mobile := None |}.

Definition dashboard (f : FormData) (nameAvailable symbolAvailable : jsvalue)
    : State :=
  {| artistData := Some jane; formData := f;
     projectNameAvailable := nameAvailable;
     projectSymbolAvailable := symbolAvailable;
     checkingProjectName := false; checkingProjectSymbol := false;
     submitting := false; message := None; previewUrl := None |}.

(** The name was found available before the network went away. *)
Definition seenAvailable : State :=
  dashboard emptyForm (Some (JBool true)) (Some (JBool true)).

Definition offline : Network := fun _ => FetchRejected.
Definition garbled : Network := fun _ => HttpResponse true None.

(** Every check answers that the candidate is taken. *)
Definition allTaken : Network :=
  fun _ => HttpResponse true (Some (JObject [(js "available", JBool false)])).

Definition artFile : File :=
  {| size := 1024; mime := js "image/png";
     dataURL := Some (js "data:image/png;base64,iVBORw0KGgo=") |}.

Definition goodForm : FormData :=
  {| projectName := js "My Art"; projectSymbol := js "ART";
     image := Some artFile; totalSupply := js "100"; mintPrice := js "0.5";
     contractOwner := js "0x00000000000000000000000000000000000000C3";
     royalties := js "5" |}.

(** The good form without a total supply. *)
Definition noSupplyForm : FormData :=
  {| projectName := js "My Art"; projectSymbol := js "ART";
     image := Some artFile; totalSupply := []; mintPrice := js "0.5";
     contractOwner := js "0x00000000000000000000000000000000000000C3";
     royalties := js "5" |}.

(** Blank symbol, malformed owner address and no image. *)
Definition sloppyForm : FormData :=
  {| projectName := js "My Art"; projectSymbol := js "  ";
     image := None; totalSupply := js "100"; mintPrice := js "0.5";
     contractOwner := js "0x123"; royalties := js "5" |}.

(** The two conversions on the numerals of the sample forms; [NaN] stands
    for their value on every other string. *)
Definition parseIntSamples (s : jsstring) : float :=
  if jsstring_eqb s (js "100") then 100%float else PrimFloat.nan.

Definition parseFloatSamples (s : jsstring) : float :=
  if jsstring_eqb s (js "0.5") then 0.5%float
  else if jsstring_eqb s (js "5") then 5%float
  else PrimFloat.nan.

End Home.

(** ** The gallery and the project view ([ProjectsApp.tsx]) *)

Module ProjectsApp.

Inductive Status : Type := pending | approved | rejected.

Record Project : Type := {
  id : jsstring;
  projectName : jsstring;
  artistName : jsstring;
  description : option jsstring;
  mintPrice : float;
  mintingEnabled : bool;
  contractAddress : option jsstring;
  status : Status;
  projectSymbol : jsstring;
  rejectionReason : option jsstring
}.

(** *** [ProjectsApp]: gallery or project, by the URL *)

(** ['gallery' | 'project'] *)
Inductive View : Type := view_gallery | view_project.

Record AppState : Type := {
  view : View;
  projects : list Project;
  loading : bool
}.

Definition initialState : AppState :=
  {| view := view_gallery; projects := []; loading := true |}.

(** [path.split('/').filter(p => p)] *)
Definition pathParts (path : jsstring) : list jsstring :=
  filter truthy (split slash path).

(** [GET /api/public/projects]: the request or the parsing throws, or the
    response is not ok, or [data.projects] arrives. *)
Inductive Listing : Type :=
| ListingThrows
| ListingNotOk
| ListingOk (data_projects : list Project).

Definition fetchProjects (listing : Listing) (st : AppState) : AppState :=
  match listing with
  | ListingOk ps => {| view := view st; projects := ps; loading := false |}
  | ListingNotOk | ListingThrows =>
      {| view := view st; projects := projects st; loading := false |}
  end.

(** The projects the gallery holds after the listing request. *)
Definition listed (listing : Listing) : list Project :=
  match listing with
  | ListingOk ps => ps
  | ListingNotOk | ListingThrows => []
  end.

(** The effect run once at mount. *)
Definition mountEffect (path : jsstring) (listing : Listing) (st : AppState)
    : AppState :=
  let pathParts := pathParts path in
  if (len pathParts =? 3) && jsstring_eqb (nth 0 pathParts []) (js "projects")
  then {| view := view_project; projects := projects st; loading := loading st |}
  else fetchProjects listing st.

(** What the component returns. *)
Inductive Screen : Type :=
| ProjectView (artistName projectName : jsstring)
| GalleryView (projects : list Project) (loading : bool).

Section Routing.
Context {host : CaseMapping}.

Definition render (path : jsstring) (st : AppState) : Screen :=
  let pathParts := pathParts path in
  let artistName :=
    if len pathParts =? 3 then Some (decodeSlug (nth 1 pathParts [])) else None in
  let projectName :=
    if len pathParts =? 3 then Some (decodeSlug (nth 2 pathParts [])) else None in
  match view st, artistName, projectName with
  | view_project, Some a, Some p =>
      if truthy a && truthy p then ProjectView a p
      else GalleryView (projects st) (loading st)
  | _, _, _ => GalleryView (projects st) (loading st)
  end.

(** The screen once the page is loaded at [path]: first state, mount
    effect, render. *)
Definition load (path : jsstring) (listing : Listing) : Screen :=
  render path (mountEffect path listing initialState).

(** A click on a card: the new state and the URL pushed. *)
Definition handleProjectClick (p : Project) (st : AppState) : AppState * jsstring :=
  let artistSlug := createSlug (artistName p) in
  let projectSlug := createSlug (projectName p) in
  let newUrl := js "/projects/" ++ artistSlug ++ js "/" ++ projectSlug in
  ({| view := view_project; projects := projects st; loading := loading st |},
   newUrl).

Definition handleBackToGallery (listing : Listing) (st : AppState)
    : AppState * jsstring :=
  (fetchProjects listing
     {| view := view_gallery; projects := projects st; loading := true |},
   js "/projects").
End Routing.

(** *** Gallery cards *)

Record Card : Type := {
  mintingLiveBadge : bool;
  comingSoonBadge : bool
}.

Definition renderCard (p : Project) : Card :=
  {| mintingLiveBadge := mintingEnabled p;
     comingSoonBadge := negb (mintingEnabled p) && present (contractAddress p) |}.

(** *** [ProjectView]: the mint flow *)

(** What the wallet hooks hand to the render: the account, the chain, the
    [publicSaleCost] read ([None] while it has produced no value), and
    whether awaiting [switchChain] resolves. *)
Record Wallet : Type := {
  isConnected : bool;
  walletAddress : option jsstring;
  chainId : Z;
  basePrice : option Z;
  switchChainResolves : bool
}.

Definition polygon_id : Z := 137.

(** The calls into the wallet library. *)
Inductive WalletCall : Type :=
| SwitchChain (chainId : Z)
| WriteContract (address functionName : jsstring)
    (_mintAmount : Z) (name email : jsstring) (value : Z).

(** [mintAmount] only ever holds an integer: it starts at 1 and is set by
    the three controls below. *)
Record ViewState : Type := {
  project : option Project;
  minting : bool;
  mintAmount : Z;
  message : option Message;
  txHash : option jsstring
}.

Definition setMessage (m : Message) (st : ViewState) : ViewState :=
  {| project := project st; minting := minting st; mintAmount := mintAmount st;
     message := Some m; txHash := txHash st |}.

Definition setMinting (b : bool) (st : ViewState) : ViewState :=
  {| project := project st; minting := b; mintAmount := mintAmount st;
     message := message st; txHash := txHash st |}.

Definition setMintAmount (n : Z) (st : ViewState) : ViewState :=
  {| project := project st; minting := minting st; mintAmount := n;
     message := message st; txHash := txHash st |}.

(** The number an arithmetic result is stored as: the double nearest to
    the integer [z], ties to the even mantissa. Every integer below 2^53
    in absolute value is a double; above, one in [2^(e-52)] is, for [e]
    the binary logarithm. (The integers here stay far below 2^1024.) *)
Definition toNumber (z : Z) : Z :=
  let a := Z.abs z in
  if (a <? 2 ^ 53)%Z then z
  else
    let q := (2 ^ (Z.log2 a - 52))%Z in
    let k := (a / q)%Z in
    let r := (a mod q)%Z in
    let up :=
      if (2 * r <? q)%Z then false
      else if (q <? 2 * r)%Z then true
      else Z.odd k in
    (Z.sgn z * (if up then (k + 1) * q else k * q))%Z.

(** The [-] and [+] buttons: [Math.max(1, mintAmount - 1)] and
    [mintAmount + 1], on numbers. *)
Definition decrement (st : ViewState) : ViewState :=
  setMintAmount (Z.max 1 (toNumber (mintAmount st - 1))) st.
Definition increment (st : ViewState) : ViewState :=
  setMintAmount (toNumber (mintAmount st + 1)) st.

(** [project?.contractAddress], when truthy. *)
Definition contractOf (st : ViewState) : option jsstring :=
  match project st with
  | Some p =>
      match contractAddress p with
      | Some a => if truthy a then Some a else None
      | None => None
      end
  | None => None
  end.

(** [basePrice || BigInt(0)] *)
Definition pricePerNFT (w : Wallet) : Z :=
  match basePrice w with
  | Some p => if (p =? 0)%Z then 0%Z else p
  | None => 0%Z
  end.

Definition handleMint (w : Wallet) (st : ViewState) : ViewState * list WalletCall :=
  match isConnected w, walletAddress w with
  | true, Some ((_ :: _) as walletAddress) =>
      match contractOf st with
      | None =>
          (setMessage {| text := js "Project contract address not found";
                         type := error |} st, [])
      | Some contract =>
          let switched :=
            if (chainId w =? polygon_id)%Z then [] else [SwitchChain polygon_id] in
          if negb (chainId w =? polygon_id)%Z && negb (switchChainResolves w)
          then
            (setMessage {| text := js "Please switch to Polygon network to mint";
                           type := error |} st, switched)
          else
            let totalPrice := (pricePerNFT w * mintAmount st)%Z in
            (setMessage {| text := js "Initiating mint transaction...";
                           type := info |} (setMinting true st),
             switched ++
             [WriteContract contract (js "mint")
                (mintAmount st) (js "Collector") walletAddress totalPrice])
      end
  | _, _ =>
      (setMessage {| text := js "Please connect your wallet first";
                     type := error |} st, [])
  end.

(** The value of the transaction a handler run submits, if it submits one. *)
Fixpoint submitted (calls : list WalletCall) : option Z :=
  match calls with
  | [] => None
  | WriteContract _ _ _ _ _ value :: _ => Some value
  | SwitchChain _ :: rest => submitted rest
  end.



(** *** [ProjectView]: what is rendered for a loaded project *)

Definition canMint (p : Project) : bool :=
  match status p with approved => true | _ => false end
  && present (contractAddress p)
  && mintingEnabled p.

Definition isMintDisabled (w : Wallet) (isConfirming : bool) (st : ViewState)
    (p : Project) : bool :=
  minting st || isConfirming || negb (isConnected w) || negb (canMint p).

Section Display.
(** [Number(formatEther(x))], a conversion of the wallet library. *)
Variable etherToNumber : Z -> float.

(** The price shown next to the controls: the stored price stands in
    while the on-chain read has no (non-zero) value. *)
Definition displayPricePerNFT (w : Wallet) (p : Project) : float :=
  match basePrice w with
  | Some b => if (b =? 0)%Z then mintPrice p else etherToNumber b
  | None => mintPrice p
  end.
End Display.

Record ProjectScreen : Type := {
  mintingSection : bool;       (* "Mint Your NFT" *)
  connectWalletButton : bool;  (* "Connect Wallet to Mint" *)
  mintControls : bool;         (* amount selector and mint button *)
  pendingBox : bool;           (* "pending approval" *)
  rejectedBox : bool;          (* "has been rejected" *)
  notLiveBox : bool            (* "not yet enabled. Check back soon!" *)
}.

Definition renderProject (w : Wallet) (p : Project) : ProjectScreen :=
  {| mintingSection := canMint p;
     connectWalletButton := canMint p && negb (isConnected w);
     mintControls := canMint p && isConnected w;
     pendingBox := match status p with pending => true | _ => false end;
     rejectedBox := match status p with rejected => true | _ => false end;
     notLiveBox :=
       match status p with approved => true | _ => false end
       && present (contractAddress p)
       && negb (mintingEnabled p) |}.

(** *** Messages and readiness of the mint flow *)

Definition connectMessage : Message :=
  {| text := js "Please connect your wallet first"; type := error |}.

Definition contractNotFoundMessage : Message :=
  {| text := js "Project contract address not found"; type := error |}.

Definition initiatingMessage : Message :=
  {| text := js "Initiating mint transaction..."; type := info |}.

(** The wallet is connected and its address is known. *)
Definition walletReady (w : Wallet) : bool :=
  isConnected w && present (walletAddress w).

(** The chain is Polygon already, or the switch to it goes through. *)
Definition chainReady (w : Wallet) : bool :=
  (chainId w =? polygon_id)%Z || switchChainResolves w.

(** *** Sample projects, wallets and view states *)

Definition comingSoonProject : Project :=
  {| id := js "p1"; projectName := js "My Art"; artistName := js "Jane Doe";
     description := None; mintPrice := 0.5%float; mintingEnabled := false;
     contractAddress := Some (js "0x00000000000000000000000000000000000000a1");
     status := approved; projectSymbol := js "ART"; rejectionReason := None |}.

Definition connectedWallet : Wallet :=
  {| isConnected := true;
     walletAddress := Some (js "0x00000000000000000000000000000000000000b2");
     chainId := 137; basePrice := Some 2000000000000000000%Z;
     switchChainResolves := true |}.

Definition liveProject : Project :=
  {| id := js "p2"; projectName := js "My Art"; artistName := js "Jane Doe";
     description := None; mintPrice := 0.5%float; mintingEnabled := true;
     contractAddress := Some (js "0x00000000000000000000000000000000000000a1");
     status := approved; projectSymbol := js "ART"; rejectionReason := None |}.

Definition mintThree : ViewState :=
  {| project := Some liveProject; minting := false; mintAmount := 3;
     message := None; txHash := None |}.

Definition noProject : ViewState :=
  {| project := None; minting := false; mintAmount := 1;
     message := None; txHash := None |}.


Definition disconnectedWallet : Wallet :=
  {| isConnected := false; walletAddress := None; chainId := 137;
     basePrice := None; switchChainResolves := true |}.

End ProjectsApp.

(** ** What is on screen after a click on a card ([ProjectsApp.tsx])

    [ProjectsApp] is rendered again when a [set...] call of a handler
    changed its state; a call with the value the state holds already is
    dropped, and [window.history.pushState] notifies nobody. The screen
    is what the last render returned. *)

Module GalleryPage.
Import ProjectsApp.

(** The address bar, the state of the component and what its last render
    returned. *)
Record Page : Type := {
  url : jsstring;
  state : AppState;
  screen : Screen
}.

Section Clicks.
Context {host : CaseMapping}.

(** [handleProjectClick] calls [setView('project')] and nothing else on
    the state: a render follows when the view was ['gallery']. *)
Definition clickProject (p : Project) (pg : Page) : Page :=
  let after := handleProjectClick p (state pg) in
  {| url := snd after;
     state := fst after;
     screen :=
       match view (state pg) with
       | view_gallery => render (snd after) (fst after)
       | view_project => screen pg
       end |}.
End Clicks.

(** The gallery is on screen, with the projects and the flag of the
    state. *)
Definition galleryShown (pg : Page) : Prop :=
  screen pg = GalleryView (projects (state pg)) (loading (state pg)).

(** The gallery, loaded at [/projects], showing one project. *)
Definition galleryPage : Page :=
  {| url := js "/projects";
     state := {| view := view_gallery; projects := [liveProject];
                 loading := false |};
     screen := GalleryView [liveProject] false |}.

End GalleryPage.

(** ** Canonical slugs *)

(** [c] with the hyphen turned into a space, as [.replace(/-/g, ' ')]
    does to each code unit. *)
Definition hyphenToSpace (c : N) : N := if isHyphen c then space else c.

(** A slug as it stands in a clean URL: slug characters only, no two
    hyphens in a row, no hyphen at either end. *)
Definition isCanonicalSlug (s : jsstring) : bool :=
  forallb isSlugChar s
  && runFree isHyphen false s
  && negb (startsWith [hyphen] s)
  && negb (startsWith [hyphen] (rev s)).

(** ** The effects of the project view on the wallet hooks
       ([ProjectsApp.tsx], [useEffect] bodies of [ProjectView]) *)

Module MintEffects.
Import ProjectsApp.

Definition setTxHash (h : option jsstring) (st : ViewState) : ViewState :=
  {| project := project st; minting := minting st; mintAmount := mintAmount st;
     message := message st; txHash := h |}.

Definition switchMessage : Message :=
  {| text := js "Please switch to Polygon network to mint"; type := error |}.

Definition cancelledMessage : Message :=
  {| text := js "Transaction cancelled by user"; type := error |}.

Definition insufficientFundsMessage : Message :=
  {| text := js "Insufficient funds for gas fees"; type := error |}.

Definition failedMessage : Message :=
  {| text := js "Transaction failed. Please try again."; type := error |}.

Definition submittedMessage : Message :=
  {| text := js "Transaction submitted! Waiting for confirmation...";
     type := info |}.

(** [writeContractError.message || 'Unknown error'] *)
Definition errorMessageOf (message : option jsstring) : jsstring :=
  match message with
  | Some ((_ :: _) as m) => m
  | Some [] | None => js "Unknown error"
  end.

(** The effect on [writeContractError]: [None] while the hook holds no
    error, [Some m] for an error whose [message] is [m]. *)
Definition onWriteContractError (writeContractError : option (option jsstring))
    (st : ViewState) : ViewState :=
  match writeContractError with
  | None => st
  | Some m =>
      let errorMessage := errorMessageOf m in
      let st := setTxHash None (setMinting false st) in
      if includes errorMessage (js "User rejected")
         || includes errorMessage (js "User denied")
      then setMessage cancelledMessage st
      else if includes errorMessage (js "balance")
              || includes errorMessage (js "insufficient funds")
      then setMessage insufficientFundsMessage st
      else setMessage failedMessage st
  end.

(** The effect on [hash], the transaction hash the write hook holds. *)
Definition onHash (hash : option jsstring) (st : ViewState) : ViewState :=
  if present hash && negb (present (txHash st))
  then setMessage submittedMessage (setTxHash hash st)
  else st.

(** What the view asks of the backend. *)
Inductive Refresh : Type := FetchProjectData.

Section Confirmation.
(** The decimal text of a number in a template literal, a conversion of
    the host. *)
Variable showNumber : Z -> jsstring.

Definition mintedMessage (n : Z) : Message :=
  {| text := js "Successfully minted " ++ showNumber n ++ js " NFT(s)!";
     type := success |}.

(** The effect on [isConfirmed], the receipt of the tracked hash. *)
Definition onConfirmed (isConfirmed : bool) (st : ViewState)
    : ViewState * list Refresh :=
  if isConfirmed && present (txHash st)
  then (setTxHash None
          (setMintAmount 1
             (setMessage (mintedMessage (mintAmount st))
                (setMinting false st))),
        [FetchProjectData])
  else (st, []).
End Confirmation.

Definition isSwitchChain (c : WalletCall) : bool :=
  match c with SwitchChain _ => true | WriteContract _ _ _ _ _ _ => false end.

Definition isWriteContract (c : WalletCall) : bool :=
  match c with WriteContract _ _ _ _ _ _ => true | SwitchChain _ => false end.

(** *** Samples *)

(** A project whose artist name has no character a slug keeps. *)
Definition unsluggableProject : Project :=
  {| id := js "p3"; projectName := js "My Art"; artistName := js "?!";
     description := None; mintPrice := 0.5%float; mintingEnabled := true;
     contractAddress := Some (js "0x00000000000000000000000000000000000000a1");
     status := approved; projectSymbol := js "ART"; rejectionReason := None |}.

(** Connected on another chain (Ethereum). The [switchChain] of the
    wallet hook returns at once and never rejects, so awaiting it
    resolves. *)
Definition otherChainWallet : Wallet :=
  {| isConnected := true;
     walletAddress := Some (js "0x00000000000000000000000000000000000000b2");
     chainId := 1; basePrice := Some 2000000000000000000%Z;
     switchChainResolves := true |}.

(** The decimal digits of an integer, as a template literal prints the
    integers below 10^21. *)
Definition decimal (n : Z) : jsstring := js (NilZero.string_of_int (Z.to_int n)).

(** Minting, with a tracked transaction hash. *)
Definition awaitingReceipt : ViewState :=
  {| project := Some liveProject; minting := true; mintAmount := 3;
     message := Some submittedMessage; txHash := Some (js "0xabc") |}.

End MintEffects.

(** ** The dashboard: form inputs and the list of projects ([Home.tsx]) *)

Module Dashboard.
Import Home.
Local Open Scope act_scope.

(** *** The inputs of the project form *)

(** The [name] attributes of the inputs [handleInputChange] is bound to. *)
Inductive TextField : Type :=
| fProjectName | fProjectSymbol | fTotalSupply | fMintPrice
| fContractOwner | fRoyalties.

(** [{...prev, [name]: value}] *)
Definition setField (name : TextField) (value : jsstring) (prev : FormData)
    : FormData :=
  {| projectName := match name with fProjectName => value | _ => projectName prev end;
     projectSymbol :=
       match name with fProjectSymbol => value | _ => projectSymbol prev end;
     image := image prev;
     totalSupply := match name with fTotalSupply => value | _ => totalSupply prev end;
     mintPrice := match name with fMintPrice => value | _ => mintPrice prev end;
     contractOwner :=
       match name with fContractOwner => value | _ => contractOwner prev end;
     royalties := match name with fRoyalties => value | _ => royalties prev end |}.

Definition handleInputChange (name : TextField) (value : jsstring) : Act unit :=
  (fun st => setFormData (setField name value (formData st)) st) ;;
  match name with
  | fProjectName => setProjectNameAvailable null
  | fProjectSymbol => setProjectSymbolAvailable null
  | _ => ret tt
  end.

(** [setMessage(null)] *)
Definition clearMessage : Act unit := fun st =>
  (tt,
   {| artistData := artistData st; formData := formData st;
      projectNameAvailable := projectNameAvailable st;
      projectSymbolAvailable := projectSymbolAvailable st;
      checkingProjectName := checkingProjectName st;
      checkingProjectSymbol := checkingProjectSymbol st;
      submitting := submitting st; message := None;
      previewUrl := previewUrl st |},
   []).

(** [10 * 1024 * 1024] *)
Definition maxImageSize : N := 10 * 1024 * 1024.

(** The file picked, [None] when the selection is empty. The preview is
    set when the reader has loaded the file, which a failed read never
    does. *)
Definition handleImageChange (file : option File) : Act unit :=
  match file with
  | None => ret tt
  | Some file =>
      if maxImageSize <? size file
      then setMessage {| text := js "Image size must be less than 10MB";
                         type := error |}
      else if negb (startsWith (js "image/") (mime file))
      then setMessage {| text := js "Please select a valid image file";
                         type := error |}
      else
        (fun st =>
           setFormData
             {| projectName := projectName (formData st);
                projectSymbol := projectSymbol (formData st);
                image := Some file;
                totalSupply := totalSupply (formData st);
                mintPrice := mintPrice (formData st);
                contractOwner := contractOwner (formData st);
                royalties := royalties (formData st) |} st) ;;
        clearMessage ;;
        match dataURL file with
        | Some result => setPreviewUrl (Some result)
        | None => ret tt
        end
  end.

(** The indicator in the label of the project name (lines 1065-1069):
    on the page when the stored value is not [null] and the name typed is
    not blank, "Available" for a truthy value and "Taken" otherwise;
    [unknown] stands for no indicator. *)
Definition projectNameIndicator (st : State) : Verdict :=
  if isNotNull (projectNameAvailable st)
     && truthy (trim (projectName (formData st)))
  then (if isTruthy (projectNameAvailable st) then available else taken)
  else unknown.

(** The same in the label of the project symbol (lines 1090-1094). *)
Definition projectSymbolIndicator (st : State) : Verdict :=
  if isNotNull (projectSymbolAvailable st)
     && truthy (trim (projectSymbol (formData st)))
  then (if isTruthy (projectSymbolAvailable st) then available else taken)
  else unknown.

(** What the checks and the validation leave alone in a state. *)
Definition sameForm (a b : State) : Prop :=
  formData a = formData b /\ artistData a = artistData b
  /\ submitting a = submitting b /\ previewUrl a = previewUrl b.

Definition createdMessage : Message :=
  {| text := js "Project created successfully! It's now pending approval.";
     type := success |}.

(** *** Samples *)

Definition loggedOut : State :=
  {| artistData := None; formData := goodForm;
     projectNameAvailable := Some (JBool true);
     projectSymbolAvailable := null;
     checkingProjectName := false; checkingProjectSymbol := false;
     submitting := false; message := None; previewUrl := None |}.

Definition bigFile : File :=
  {| size := 10 * 1024 * 1024 + 1; mime := js "image/png"; dataURL := None |}.

Definition textFile : File :=
  {| size := 12; mime := js "text/plain"; dataURL := Some (js "data:text/plain;base64,aGk=") |}.

(** The backend refuses the project for its name. *)
Definition duplicateName : Network := fun r =>
  if jsstring_eqb (url r) (API_BASE_URL ++ js "/api/artists/create-project")
  then HttpResponse false
         (Some (JObject [(js "error",
                          JString (js "A project name already exists for this artist"))]))
  else HttpResponse true (Some (JObject [(js "available", JBool true)])).

(** Every request is answered with [{}], status 200. *)
Definition emptyBodies : Network := fun _ => HttpResponse true (Some (JObject [])).

End Dashboard.

(** ** The dashboard: the list of the artist's projects ([Home.tsx]) *)

Module ProjectList.

Inductive Status : Type := pending | approved | rejected.

Record Project : Type := {
  id : jsstring;
  projectName : jsstring;
  projectSymbol : jsstring;
  totalSupply : float;
  mintPrice : float;
  royalties : option float;
  status : Status;
  imageIpfsUrl : option jsstring;
  imageUrl : option jsstring;
  createdAt : jsstring;
  rejectionReason : option jsstring;
  contractOwner : option jsstring
}.

Record ListState : Type := {
  userProjects : list Project;
  activeTab : jsstring;
  currentPage : Z
}.

Definition projectsPerPage : Z := 6.

Definition isApproved (p : Project) : bool :=
  match status p with approved => true | _ => false end.
Definition isPending (p : Project) : bool :=
  match status p with pending => true | _ => false end.
Definition isRejected (p : Project) : bool :=
  match status p with rejected => true | _ => false end.

Definition filteredProjects (st : ListState) : list Project :=
  filter (fun project =>
            if jsstring_eqb (activeTab st) (js "all") then true
            else if jsstring_eqb (activeTab st) (js "approved") then isApproved project
            else if jsstring_eqb (activeTab st) (js "pending") then isPending project
            else true)
         (userProjects st).

(** [array.slice(start, end)] on integers: a negative index counts from
    the end, and both ends are clamped to the array. *)
Definition slice {A : Type} (start finish : Z) (l : list A) : list A :=
  let length := Z.of_nat (List.length l) in
  let k := if (start <? 0)%Z then Z.max (length + start) 0 else Z.min start length in
  let final :=
    if (finish <? 0)%Z then Z.max (length + finish) 0 else Z.min finish length in
  firstn (Z.to_nat (final - k)) (skipn (Z.to_nat k) l).

Definition indexOfLastProject (st : ListState) : Z :=
  (currentPage st * projectsPerPage)%Z.

Definition indexOfFirstProject (st : ListState) : Z :=
  (indexOfLastProject st - projectsPerPage)%Z.

Definition currentProjects (st : ListState) : list Project :=
  slice (indexOfFirstProject st) (indexOfLastProject st) (filteredProjects st).

(** [Math.ceil(filteredProjects.length / projectsPerPage)]: the quotient
    of the two integers, rounded up. *)
Definition totalPages (st : ListState) : Z :=
  ((Z.of_nat (List.length (filteredProjects st)) + projectsPerPage - 1)
   / projectsPerPage)%Z.

Definition setCurrentPage (n : Z) (st : ListState) : ListState :=
  {| userProjects := userProjects st; activeTab := activeTab st;
     currentPage := n |}.

Definition paginate (pageNumber : Z) (st : ListState) : ListState :=
  setCurrentPage pageNumber st.

Definition nextPage (st : ListState) : ListState :=
  if (currentPage st <? totalPages st)%Z
  then setCurrentPage (currentPage st + 1) st
  else st.

Definition prevPage (st : ListState) : ListState :=
  if (1 <? currentPage st)%Z
  then setCurrentPage (currentPage st - 1) st
  else st.

(** A click on a tab, with the effect on [activeTab] that follows it:
    the page goes back to 1 when the tab changes. *)
Definition selectTab (tab : jsstring) (st : ListState) : ListState :=
  if jsstring_eqb tab (activeTab st) then st
  else {| userProjects := userProjects st; activeTab := tab; currentPage := 1 |}.

(** The numbers of the line "Showing a-b of n projects". *)
Definition showingFrom (st : ListState) : Z := (indexOfFirstProject st + 1)%Z.
Definition showingTo (st : ListState) : Z :=
  Z.min (indexOfLastProject st) (Z.of_nat (List.length (filteredProjects st))).

(** The page at [k] of the same list and tab. *)
Definition pageAt (st : ListState) (k : Z) : list Project :=
  currentProjects (setCurrentPage k st).

(** The page shown is one of the pages of the list (page 1 when the
    list is empty). *)
Definition pageInRange (st : ListState) : Prop :=
  (1 <= currentPage st <= Z.max 1 (totalPages st))%Z.

(** *** Samples *)

Definition sampleProject (n : string) (s : Status) : Project :=
  {| id := js n; projectName := js n; projectSymbol := js "ART";
     totalSupply := 100%float; mintPrice := 0.5%float; royalties := None;
     status := s; imageIpfsUrl := None; imageUrl := None;
     createdAt := js "2024-01-01T00:00:00.000Z"; rejectionReason := None;
     contractOwner := None |}.

(** Seven projects on the second page of the tab [all]. *)
Definition sevenProjects : ListState :=
  {| userProjects :=
       [sampleProject "a" approved; sampleProject "b" pending;
        sampleProject "c" rejected; sampleProject "d" approved;
        sampleProject "e" pending; sampleProject "f" approved;
        sampleProject "g" rejected];
     activeTab := js "all"; currentPage := 2 |}.

End ProjectList.

(** ** Regular expressions *)

(** The patterns the validators need: character classes, sequence,
    alternative, repetition. *)
Inductive regex : Type :=
| Void
| Eps
| Cls (p : N -> bool)
| Cat (r s : regex)
| Alt (r s : regex)
| Star (r : regex).

(** [r+] *)
Definition Plus (r : regex) : regex := Cat r (Star r).

Fixpoint nullable (r : regex) : bool :=
  match r with
  | Void => false
  | Eps => true
  | Cls _ => false
  | Cat r s => nullable r && nullable s
  | Alt r s => nullable r || nullable s
  | Star _ => true
  end.

(** What is left of [r] to match once [c] is read. *)
Fixpoint deriv (c : N) (r : regex) : regex :=
  match r with
  | Void => Void
  | Eps => Void
  | Cls p => if p c then Eps else Void
  | Cat r s =>
      if nullable r
      then Alt (Cat (deriv c r) s) (deriv c s)
      else Cat (deriv c r) s
  | Alt r s => Alt (deriv c r) (deriv c s)
  | Star r => Cat (deriv c r) (Star r)
  end.

(** [/^r$/.test(s)]: the whole of [s] matches [r]. *)
Definition test (r : regex) (s : jsstring) : bool :=
  nullable (fold_left (fun r c => deriv c r) s r).

(** The strings of a pattern. *)
Inductive matches : regex -> jsstring -> Prop :=
| MEps : matches Eps []
| MCls (p : N -> bool) (c : N) : p c = true -> matches (Cls p) [c]
| MCat (r s : regex) (u v : jsstring) :
    matches r u -> matches s v -> matches (Cat r s) (u ++ v)
| MAltL (r s : regex) (u : jsstring) : matches r u -> matches (Alt r s) u
| MAltR (r s : regex) (u : jsstring) : matches s u -> matches (Alt r s) u
| MStar0 (r : regex) : matches (Star r) []
| MStarS (r : regex) (u v : jsstring) :
    matches r u -> matches (Star r) v -> matches (Star r) (u ++ v).

(** ** The login modal of the dashboard ([Home.tsx]) *)

Module Login.

Definition at_sign : N := 64.
Definition dot : N := 46.

Definition isLetter (c : N) : bool := isUpperAscii c || isLowerAscii c.

(** [[a-zA-Z0-9._%+-]] *)
Definition isLocalChar (c : N) : bool :=
  isLetter c || isDigit c || (c =? dot) || (c =? underscore) || (c =? 37)
  || (c =? 43) || (c =? hyphen).

(** [[a-zA-Z0-9.-]] *)
Definition isDomainChar (c : N) : bool :=
  isLetter c || isDigit c || (c =? dot) || (c =? hyphen).

(** [/^[a-zA-Z0-9._%+-]+@[a-zA-Z0-9.-]+\.[a-zA-Z]{2,}$/] *)
Definition emailRegex : regex :=
  Cat (Plus (Cls isLocalChar))
    (Cat (Cls (fun c => c =? at_sign))
       (Cat (Plus (Cls isDomainChar))
          (Cat (Cls (fun c => c =? dot))
             (Cat (Cls isLetter) (Plus (Cls isLetter)))))).

Definition validateEmail (email : jsstring) : jsstring :=
  if negb (truthy email) then js "Email is required"
  else if negb (test emailRegex email) then js "Please enter a valid email address"
  else [].

Definition validateField (name value : jsstring) : jsstring :=
  if jsstring_eqb name (js "name") then Home.validateName value
  else if jsstring_eqb name (js "email") then validateEmail value
  else if jsstring_eqb name (js "mobile") then Home.validateMobile value
  else if jsstring_eqb name (js "password") then Home.validatePassword value
  else [].

(** [keyof LoginFormData] *)
Inductive LoginField : Type := lName | lEmail | lMobile | lPassword.

Definition fieldName (f : LoginField) : jsstring :=
  js match f with
     | lName => "name" | lEmail => "email"
     | lMobile => "mobile" | lPassword => "password"
     end.

Record LoginFormData : Type := {
  name : jsstring;
  email : jsstring;
  mobile : jsstring;
  password : jsstring
}.

(** [FieldErrors]: a message per field, [None] while the key is absent. *)
Record FieldErrors : Type := {
  nameError : option jsstring;
  emailError : option jsstring;
  mobileError : option jsstring;
  passwordError : option jsstring
}.

Record TouchedFields : Type := {
  nameTouched : bool;
  emailTouched : bool;
  mobileTouched : bool;
  passwordTouched : bool
}.

Record State : Type := {
  loginFormData : LoginFormData;
  fieldErrors : FieldErrors;
  touched : TouchedFields;
  loginMessage : option Message;
  isLogin : bool;
  isLoggingIn : bool;
  showPassword : bool;
  artistData : jsvalue;
  isAuthenticated : bool
}.

(** What a timer does when it fires. *)
Inductive Later : Type :=
| ClearLoginMessage
| EnterDashboard (artist : jsvalue)
| BackToLogin.

Inductive Effect : Type :=
| EFetch (r : Home.Request)
| ESetItem (key : jsstring) (value : jsvalue)
| ESetTimeout (later : Later) (ms : Z).

Definition requests (log : list Effect) : list Home.Request :=
  flat_map (fun e => match e with EFetch r => [r] | _ => [] end) log.

Definition stored (log : list Effect) : list (jsstring * jsvalue) :=
  flat_map (fun e => match e with ESetItem k v => [(k, v)] | _ => [] end) log.

Definition Act (A : Type) : Type := State -> A * State * list Effect.

Definition ret {A : Type} (a : A) : Act A := fun st => (a, st, []).

Definition bind {A B : Type} (m : Act A) (k : A -> Act B) : Act B :=
  fun st =>
    let r1 := m st in
    let r2 := k (fst (fst r1)) (snd (fst r1)) in
    (fst (fst r2), snd (fst r2), snd r1 ++ snd r2).

Definition valueOf {A : Type} (r : A * State * list Effect) : A := fst (fst r).
Definition stateOf {A : Type} (r : A * State * list Effect) : State := snd (fst r).
Definition logOf {A : Type} (r : A * State * list Effect) : list Effect := snd r.

Declare Scope login_scope.
Delimit Scope login_scope with login.
Notation "x <- m ;; k" := (bind m (fun x => k))
  (at level 61, m at next level, right associativity) : login_scope.
Notation "m ;; k" := (bind m (fun _ => k))
  (at level 61, right associativity) : login_scope.
Local Open Scope login_scope.

Definition emit (e : Effect) : Act unit := fun st => (tt, st, [e]).

Definition setLoginFormData (f : LoginFormData -> LoginFormData) : Act unit :=
  fun st =>
    (tt,
     {| loginFormData := f (loginFormData st); fieldErrors := fieldErrors st;
        touched := touched st; loginMessage := loginMessage st;
        isLogin := isLogin st; isLoggingIn := isLoggingIn st;
        showPassword := showPassword st; artistData := artistData st;
        isAuthenticated := isAuthenticated st |},
     []).

Definition setFieldErrors (f : FieldErrors -> FieldErrors) : Act unit :=
  fun st =>
    (tt,
     {| loginFormData := loginFormData st; fieldErrors := f (fieldErrors st);
        touched := touched st; loginMessage := loginMessage st;
        isLogin := isLogin st; isLoggingIn := isLoggingIn st;
        showPassword := showPassword st; artistData := artistData st;
        isAuthenticated := isAuthenticated st |},
     []).

Definition setTouched (f : TouchedFields -> TouchedFields) : Act unit :=
  fun st =>
    (tt,
     {| loginFormData := loginFormData st; fieldErrors := fieldErrors st;
        touched := f (touched st); loginMessage := loginMessage st;
        isLogin := isLogin st; isLoggingIn := isLoggingIn st;
        showPassword := showPassword st; artistData := artistData st;
        isAuthenticated := isAuthenticated st |},
     []).

Definition setLoginMessage (m : option Message) : Act unit :=
  fun st =>
    (tt,
     {| loginFormData := loginFormData st; fieldErrors := fieldErrors st;
        touched := touched st; loginMessage := m;
        isLogin := isLogin st; isLoggingIn := isLoggingIn st;
        showPassword := showPassword st; artistData := artistData st;
        isAuthenticated := isAuthenticated st |},
     []).

Definition setIsLoggingIn (b : bool) : Act unit :=
  fun st =>
    (tt,
     {| loginFormData := loginFormData st; fieldErrors := fieldErrors st;
        touched := touched st; loginMessage := loginMessage st;
        isLogin := isLogin st; isLoggingIn := b;
        showPassword := showPassword st; artistData := artistData st;
        isAuthenticated := isAuthenticated st |},
     []).

Definition setShowPassword (b : bool) : Act unit :=
  fun st =>
    (tt,
     {| loginFormData := loginFormData st; fieldErrors := fieldErrors st;
        touched := touched st; loginMessage := loginMessage st;
        isLogin := isLogin st; isLoggingIn := isLoggingIn st;
        showPassword := b; artistData := artistData st;
        isAuthenticated := isAuthenticated st |},
     []).

Definition setArtistData (v : jsvalue) : Act unit :=
  fun st =>
    (tt,
     {| loginFormData := loginFormData st; fieldErrors := fieldErrors st;
        touched := touched st; loginMessage := loginMessage st;
        isLogin := isLogin st; isLoggingIn := isLoggingIn st;
        showPassword := showPassword st; artistData := v;
        isAuthenticated := isAuthenticated st |},
     []).

Definition setIsAuthenticated (b : bool) : Act unit :=
  fun st =>
    (tt,
     {| loginFormData := loginFormData st; fieldErrors := fieldErrors st;
        touched := touched st; loginMessage := loginMessage st;
        isLogin := isLogin st; isLoggingIn := isLoggingIn st;
        showPassword := showPassword st; artistData := artistData st;
        isAuthenticated := b |},
     []).

Definition fetch (net : Home.Network) (r : Home.Request) : Act Home.Response :=
  fun st => (net r, st, [EFetch r]).

(** [{...prev, [name]: value}] on the three records. *)
Definition setValue (f : LoginField) (value : jsstring) (prev : LoginFormData)
    : LoginFormData :=
  {| name := match f with lName => value | _ => name prev end;
     email := match f with lEmail => value | _ => email prev end;
     mobile := match f with lMobile => value | _ => mobile prev end;
     password := match f with lPassword => value | _ => password prev end |}.

Definition setError (f : LoginField) (e : jsstring) (prev : FieldErrors)
    : FieldErrors :=
  {| nameError := match f with lName => Some e | _ => nameError prev end;
     emailError := match f with lEmail => Some e | _ => emailError prev end;
     mobileError := match f with lMobile => Some e | _ => mobileError prev end;
     passwordError :=
       match f with lPassword => Some e | _ => passwordError prev end |}.

Definition touch (f : LoginField) (prev : TouchedFields) : TouchedFields :=
  {| nameTouched := match f with lName => true | _ => nameTouched prev end;
     emailTouched := match f with lEmail => true | _ => emailTouched prev end;
     mobileTouched := match f with lMobile => true | _ => mobileTouched prev end;
     passwordTouched :=
       match f with lPassword => true | _ => passwordTouched prev end |}.

Definition showLoginMessage (t : jsstring) (ty : MessageType) : Act unit :=
  setLoginMessage (Some {| text := t; type := ty |}) ;;
  emit (ESetTimeout ClearLoginMessage 5000).

Definition resetLoginForm : Act unit :=
  setLoginFormData
    (fun _ => {| name := []; email := []; mobile := []; password := [] |}) ;;
  setFieldErrors
    (fun _ => {| nameError := None; emailError := None; mobileError := None;
                 passwordError := None |}) ;;
  setTouched
    (fun _ => {| nameTouched := false; emailTouched := false;
                 mobileTouched := false; passwordTouched := false |}) ;;
  setLoginMessage None ;;
  setShowPassword false.

Section Handlers.
Context {host : CaseMapping}.
Variable net : Home.Network.
(** The state of the render whose closure the handler is. *)
Variable snap : State.

Definition handleLoginInputChange (f : LoginField) (value : jsstring) : Act unit :=
  if match f with lName => 30 <? len value | _ => false end
  then ret tt
  else
    setLoginFormData (setValue f value) ;;
    setTouched (touch f) ;;
    setFieldErrors (setError f (validateField (fieldName f) value)) ;;
    match loginMessage snap with
    | Some _ => setLoginMessage None
    | None => ret tt
    end.

(** [value] is [None] when the phone input hands [undefined]. *)
Definition handleMobileChange (value : option jsstring) : Act unit :=
  let mobileValue :=
    match value with Some ((_ :: _) as v) => v | Some [] | None => [] end in
  setLoginFormData (setValue lMobile mobileValue) ;;
  setTouched (touch lMobile) ;;
  setFieldErrors (setError lMobile (Home.validateMobile mobileValue)) ;;
  match loginMessage snap with
  | Some _ => setLoginMessage None
  | None => ret tt
  end.

(** The [errors] object of [validateLoginForm]. *)
Definition loginErrors : FieldErrors :=
  let f := loginFormData snap in
  {| nameError :=
       if isLogin snap then None else Some (Home.validateName (name f));
     emailError := Some (validateEmail (email f));
     mobileError :=
       if isLogin snap then None else Some (Home.validateMobile (mobile f));
     passwordError := Some (Home.validatePassword (password f)) |}.

(** [!error] for a value of the object. *)
Definition noError (e : option jsstring) : bool :=
  match e with Some e => negb (truthy e) | None => true end.

Definition validateLoginForm : Act bool :=
  setFieldErrors (fun _ => loginErrors) ;;
  setTouched (fun _ => {| nameTouched := true; emailTouched := true;
                          mobileTouched := true; passwordTouched := true |}) ;;
  ret (noError (nameError loginErrors) && noError (mobileError loginErrors)
       && noError (emailError loginErrors)
       && noError (passwordError loginErrors)).

(** The answer of [validateLoginForm]. *)
Definition loginValid : bool :=
  noError (nameError loginErrors) && noError (mobileError loginErrors)
  && noError (emailError loginErrors)
  && noError (passwordError loginErrors).

Definition loginRequest : Home.Request :=
  {| Home.url := API_BASE_URL ++ js "/api/artists/login";
     Home.method := Home.POST;
     Home.body :=
       Some (JObject [(js "email", JString (email (loginFormData snap)));
                      (js "password", JString (password (loginFormData snap)))]) |}.

Definition registerRequest : Home.Request :=
  {| Home.url := API_BASE_URL ++ js "/api/artists/register";
     Home.method := Home.POST;
     Home.body :=
       Some (JObject
         [(js "name", JString (trim (name (loginFormData snap))));
          (js "email", JString (trim (toLowerCase (email (loginFormData snap)))));
          (js "mobile", JString (mobile (loginFormData snap)));
          (js "password", JString (password (loginFormData snap)))]) |}.

(** [data.error || fallback], the error read as the API types it; [None]
    when reading it throws. *)
Definition errorOr (fallback : string) (data : json) : option jsstring :=
  match Home.errorText data with
  | None => None
  | Some None => Some (js fallback)
  | Some (Some e) => Some e
  end.

(** The [catch] block of [handleLogin]. *)
Definition loginCaught : Act unit :=
  showLoginMessage
    (js "Login failed. Please check your connection and try again.") error.

(** The [else] branch: [showLoginMessage(data.error || "Login failed")]. *)
Definition loginRefused (data : json) : Act unit :=
  match errorOr "Login failed" data with
  | Some t => showLoginMessage t error
  | None => loginCaught
  end.

(** What [handleLogin] does with the answer to its request. *)
Definition onLoginResponse (response : Home.Response) : Act unit :=
  match response with
  | Home.HttpResponse true (Some data) =>
      match getProp data (js "success"), getProp data (js "artist") with
      | Some data_success, Some artist =>
          if isTruthy data_success
          then
            showLoginMessage (js "Login successful! Loading dashboard...")
              success ;;
            emit (ESetItem (js "artistData") artist) ;;
            setArtistData artist ;;
            setIsAuthenticated true ;;
            emit (ESetTimeout (EnterDashboard artist) 1500)
          else loginRefused data
      | _, _ => loginCaught
      end
  | Home.HttpResponse false (Some data) => loginRefused data
  | Home.HttpResponse _ None | Home.FetchRejected => loginCaught
  end.

Definition handleLogin : Act unit :=
  valid <- validateLoginForm ;;
  if negb valid
  then showLoginMessage (js "Please fix the errors above") error
  else
    setIsLoggingIn true ;;
    showLoginMessage (js "Logging in...") info ;;
    response <- fetch net loginRequest ;;
    onLoginResponse response ;;
    setIsLoggingIn false.

Definition handleRegister : Act unit :=
  valid <- validateLoginForm ;;
  if negb valid
  then showLoginMessage (js "Please fix the errors above") error
  else
    setIsLoggingIn true ;;
    showLoginMessage (js "Creating account...") info ;;
    response <- fetch net registerRequest ;;
    let caught :=
      showLoginMessage
        (js "Registration failed. Please check your connection and try again.")
        error in
    let refused data :=
      match errorOr "Registration failed" data with
      | Some t => showLoginMessage t error
      | None => caught
      end in
    match response with
    | Home.HttpResponse true (Some data) =>
        match getProp data (js "success") with
        | Some data_success =>
            if isTruthy data_success
            then
              showLoginMessage
                (js "Registration successful! You can now log in.") success ;;
              emit (ESetTimeout BackToLogin 2000)
            else refused data
        | None => caught
        end
    | Home.HttpResponse false (Some data) => refused data
    | Home.HttpResponse _ None | Home.FetchRejected => caught
    end ;;
    setIsLoggingIn false.
End Handlers.

Definition tooLongMessage : jsstring := js "Name must be 30 characters or less".

(** *** Samples *)

Definition blank : State :=
  {| loginFormData := {| name := []; email := []; mobile := []; password := [] |};
     fieldErrors := {| nameError := None; emailError := None;
                       mobileError := None; passwordError := None |};
     touched := {| nameTouched := false; emailTouched := false;
                   mobileTouched := false; passwordTouched := false |};
     loginMessage := None; isLogin := true; isLoggingIn := false;
     showPassword := false; artistData := null; isAuthenticated := false |}.

Definition typed (e p : string) : State :=
  {| loginFormData := {| name := []; email := js e; mobile := []; password := js p |};
     fieldErrors := fieldErrors blank; touched := touched blank;
     loginMessage := None; isLogin := true; isLoggingIn := false;
     showPassword := false; artistData := null; isAuthenticated := false |}.

(** The backend lets everyone in. *)
Definition welcoming : Home.Network := fun _ =>
  Home.HttpResponse true
    (Some (JObject [(js "success", JBool true);
                    (js "artist", JObject [(js "id", JString (js "artist-1"))])])).

End Login.

(* ================================================================== *)
(** * Part II: lemmas and theorems                                     *)
(* ================================================================== *)

(** ** Character classes *)

(** Tactics for facts on the character classes: a goal [b = false] (or
    [b = true]) is settled by turning the opposite value into arithmetic
    facts on the code unit. *)
Ltac unfold_classes :=
  unfold isSlugChar, isSpecial, isWordChar, isWhiteSpace, isHyphen, isHexDigit,
    isUpperAscii, isLowerAscii, isDigit, isAscii, lowerAscii, upperAscii,
    underscore, hyphen, space, slash in *.

Ltac bool_to_arith :=
  repeat match goal with
  | H : _ && _ = true |- _ => apply andb_true_iff in H; destruct H
  | H : _ || _ = true |- _ => apply orb_true_iff in H; destruct H
  | H : _ && _ = false |- _ => apply andb_false_iff in H; destruct H
  | H : _ || _ = false |- _ => apply orb_false_iff in H; destruct H
  | H : negb _ = true |- _ => apply negb_true_iff in H
  | H : negb _ = false |- _ => apply negb_false_iff in H
  | H : (_ <=? _) = true |- _ => apply N.leb_le in H
  | H : (_ <=? _) = false |- _ => apply N.leb_gt in H
  | H : (_ <? _) = true |- _ => apply N.ltb_lt in H
  | H : (_ <? _) = false |- _ => apply N.ltb_ge in H
  | H : (_ =? _) = true |- _ => apply N.eqb_eq in H
  | H : (_ =? _) = false |- _ => apply N.eqb_neq in H
  end.

(** Settles a goal [b = false] (or [b = true]) on character classes:
    the opposite value is turned into arithmetic facts and refuted. *)
Ltac class_false :=
  match goal with
  | |- ?b = false =>
      let E := fresh "E" in
      destruct b eqn:E; [exfalso; unfold_classes; bool_to_arith; lia | reflexivity]
  | |- ?b = true =>
      let E := fresh "E" in
      destruct b eqn:E; [reflexivity | exfalso; unfold_classes; bool_to_arith; lia]
  end.

Lemma slugChar_not_space c : isSlugChar c = true -> isWhiteSpace c = false.
Proof. intros H. class_false. Qed.

Lemma slugChar_not_special c : isSlugChar c = true -> isSpecial c = false.
Proof. intros H. class_false. Qed.

Lemma slugChar_ascii c : isSlugChar c = true -> isAscii c = true.
Proof. intros H. class_false. Qed.

Lemma slugChar_lower c : isSlugChar c = true -> lowerAscii c = c.
Proof.
  intros H. unfold lowerAscii.
  assert (E : isUpperAscii c = false) by class_false.
  now rewrite E.
Qed.

Lemma hyphen_is_slugChar : isSlugChar hyphen = true.
Proof. reflexivity. Qed.

(** What survives the three first steps of [createSlug] and is no white
    space is a slug character. *)
Lemma kept_is_slugChar c :
  isUpperAscii c = false -> isSpecial c = false -> isWhiteSpace c = false ->
  isSlugChar c = true.
Proof. intros H1 H2 H3. class_false. Qed.

(** ** String methods *)

Lemma forallb_trimStart p s :
  forallb p s = true -> forallb p (trimStart s) = true.
Proof.
  induction s as [|c t IH]; simpl; intros H; [reflexivity|].
  destruct (isWhiteSpace c); [|exact H].
  apply andb_true_iff in H. now apply IH.
Qed.

Lemma forallb_rev (p : N -> bool) s : forallb p (rev s) = forallb p s.
Proof.
  induction s as [|c t IH]; simpl; [reflexivity|].
  rewrite forallb_app, IH. simpl. rewrite andb_true_r. apply andb_comm.
Qed.

Lemma forallb_trim p s : forallb p s = true -> forallb p (trim s) = true.
Proof.
  intros H. unfold trim, trimEnd.
  rewrite forallb_rev. apply forallb_trimStart.
  rewrite forallb_rev. now apply forallb_trimStart.
Qed.

Lemma trimStart_fixed s :
  forallb (fun c => negb (isWhiteSpace c)) s = true -> trimStart s = s.
Proof.
  destruct s as [|c t]; simpl; [reflexivity|].
  intros H. apply andb_true_iff in H. destruct H as [H _].
  apply negb_true_iff in H. now rewrite H.
Qed.

Lemma trim_fixed s :
  forallb (fun c => negb (isWhiteSpace c)) s = true -> trim s = s.
Proof.
  intros H. unfold trim, trimEnd.
  rewrite (trimStart_fixed s H), trimStart_fixed.
  - apply rev_involutive.
  - now rewrite forallb_rev.
Qed.

Lemma forallb_impl (p q : N -> bool) s :
  (forall c, p c = true -> q c = true) ->
  forallb p s = true -> forallb q s = true.
Proof.
  intros Hpq. induction s as [|c t IH]; simpl; [reflexivity|].
  intros H. apply andb_true_iff in H. destruct H as [Hc Ht].
  now rewrite (Hpq c Hc), IH.
Qed.

Lemma replaceEach_delete_forallb p q s :
  forallb q s = true ->
  forallb (fun c => q c && negb (p c)) (replaceEach p [] s) = true.
Proof.
  induction s as [|c t IH]; simpl; [reflexivity|].
  intros H. apply andb_true_iff in H. destruct H as [Hc Ht].
  destruct (p c) eqn:E; simpl.
  - now apply IH.
  - now rewrite Hc, E, IH.
Qed.

Lemma replaceEach_fixed p r s :
  forallb (fun c => negb (p c)) s = true -> replaceEach p r s = s.
Proof.
  induction s as [|c t IH]; simpl; [reflexivity|].
  intros H. apply andb_true_iff in H. destruct H as [Hc Ht].
  apply negb_true_iff in Hc. now rewrite Hc, IH.
Qed.

Lemma replaceRuns_forallb p r q q' b s :
  (forall c, q c = true -> p c = false -> q' c = true) ->
  forallb q' r = true ->
  forallb q s = true ->
  forallb q' (replaceRuns p r b s) = true.
Proof.
  intros Hkeep Hr. revert b.
  induction s as [|c t IH]; simpl; intros b H; [reflexivity|].
  apply andb_true_iff in H. destruct H as [Hc Ht].
  destruct (p c) eqn:E.
  - rewrite forallb_app, (IH true Ht), andb_true_r.
    now destruct b.
  - simpl. now rewrite (Hkeep c Hc E), (IH false Ht).
Qed.

Lemma replaceRuns_fixed_none p r b s :
  forallb (fun c => negb (p c)) s = true -> replaceRuns p r b s = s.
Proof.
  revert b. induction s as [|c t IH]; simpl; intros b H; [reflexivity|].
  apply andb_true_iff in H. destruct H as [Hc Ht].
  apply negb_true_iff in Hc. now rewrite Hc, IH.
Qed.

(** After the replacement no two code units of the class are adjacent. *)
Lemma replaceRuns_runFree p r b s :
  p r = true -> runFree p b (replaceRuns p [r] b s) = true.
Proof.
  intros Hr. revert b.
  induction s as [|c t IH]; simpl; intros b; [reflexivity|].
  destruct (p c) eqn:E.
  - destruct b; simpl.
    + apply IH.
    + rewrite Hr. simpl. apply IH.
  - simpl. rewrite E. apply IH.
Qed.

(** A string without runs is left as it is, when the class is the one
    code unit that replaces it. *)
Lemma replaceRuns_fixed_runFree p r b s :
  (forall c, p c = true -> c = r) ->
  runFree p b s = true -> replaceRuns p [r] b s = s.
Proof.
  intros Hp. revert b.
  induction s as [|c t IH]; simpl; intros b H; [reflexivity|].
  destruct (p c) eqn:E.
  - apply andb_true_iff in H. destruct H as [Hb Ht].
    apply negb_true_iff in Hb. subst b. simpl.
    now rewrite (IH true Ht), (Hp c E).
  - now rewrite (IH false H).
Qed.

Lemma map_fixed (f : N -> N) (p : N -> bool) s :
  (forall c, p c = true -> f c = c) -> forallb p s = true -> map f s = s.
Proof.
  intros Hf. induction s as [|c t IH]; simpl; [reflexivity|].
  intros H. apply andb_true_iff in H. destruct H as [Hc Ht].
  now rewrite (Hf c Hc), IH.
Qed.

(** ** Slug codec *)

Section SlugFacts.
Context {host : CaseMapping}.

Lemma createSlug_chars name : forallb isSlugChar (createSlug name) = true.
Proof.
  unfold createSlug.
  apply replaceRuns_forallb with (q := isSlugChar);
    [intros c H _; exact H | reflexivity |].
  apply replaceRuns_forallb
    with (q := fun c => negb (isUpperAscii c) && negb (isSpecial c));
    [| reflexivity |].
  - intros c H Hs. apply andb_true_iff in H. destruct H as [H1 H2].
    apply negb_true_iff in H1, H2. now apply kept_is_slugChar.
  - apply replaceEach_delete_forallb, forallb_trim, toLowerCase_no_upper.
Qed.

Lemma createSlug_runFree name : runFree isHyphen false (createSlug name) = true.
Proof. unfold createSlug. now apply replaceRuns_runFree. Qed.

(** On a string of slug characters without a double hyphen every step of
    [createSlug] is the identity. *)
Lemma createSlug_fixed s :
  forallb isSlugChar s = true -> runFree isHyphen false s = true ->
  createSlug s = s.
Proof.
  intros Hs Hr. unfold createSlug.
  rewrite toLowerCase_ascii
    by (eapply forallb_impl; [apply slugChar_ascii | exact Hs]).
  rewrite (map_fixed lowerAscii isSlugChar s slugChar_lower Hs).
  assert (Hws : forallb (fun c => negb (isWhiteSpace c)) s = true).
  { eapply forallb_impl; [|exact Hs].
    intros c H. now rewrite (slugChar_not_space c H). }
  rewrite (trim_fixed s Hws).
  rewrite replaceEach_fixed.
  2:{ eapply forallb_impl; [|exact Hs].
      intros c H. now rewrite (slugChar_not_special c H). }
  rewrite (replaceRuns_fixed_none _ _ _ s Hws).
  apply replaceRuns_fixed_runFree; [|exact Hr].
  intros c H. now apply N.eqb_eq in H.
Qed.

(** C4. The slug encoder is idempotent: for every input string [x],
    [createSlug (createSlug x)] equals [createSlug x]. *)
Theorem createSlug_idempotent (x : jsstring) :
  createSlug (createSlug x) = createSlug x.
Proof.
  apply createSlug_fixed.
  - apply createSlug_chars.
  - apply createSlug_runFree.
Qed.

(** C10. For every input string, every code unit of the output of
    [createSlug] is a lowercase letter, a digit, an underscore or a
    hyphen; so the output holds no white space and no uppercase letter. *)
Theorem createSlug_alphabet (x : jsstring) :
  Forall (fun c =>
            (isLowerAscii c || isDigit c || (c =? underscore) || (c =? hyphen) = true)
            /\ isWhiteSpace c = false /\ isUpperAscii c = false)
         (createSlug x).
Proof.
  apply Forall_forall. intros c Hin.
  pose proof (createSlug_chars x) as H.
  rewrite forallb_forall in H. specialize (H c Hin).
  split; [exact H|]. split; class_false.
Qed.
End SlugFacts.

Lemma createSlug_idempotent_witness :
  @createSlug basicLatin (@createSlug basicLatin (js " Jane  DOE -- #1 "))
  = @createSlug basicLatin (js " Jane  DOE -- #1 ").
Proof. apply (@createSlug_idempotent basicLatin). Defined.

Lemma createSlug_alphabet_witness :
  Forall (fun c =>
            (isLowerAscii c || isDigit c || (c =? underscore) || (c =? hyphen) = true)
            /\ isWhiteSpace c = false /\ isUpperAscii c = false)
         (@createSlug basicLatin (js " Jane  DOE -- #1 ")).
Proof. apply (@createSlug_alphabet basicLatin). Defined.


Lemma forallb_replaceEach p q r s :
  forallb q r = true -> forallb q s = true ->
  forallb q (replaceEach p r s) = true.
Proof.
  intros Hr. induction s as [|c t IH]; simpl; [reflexivity|].
  intros H. apply andb_true_iff in H. destruct H as [Hc Ht].
  destruct (p c); simpl.
  - now rewrite forallb_app, Hr, IH.
  - now rewrite Hc, IH.
Qed.

Lemma truthy_app a b : truthy (a ++ b) = truthy a || truthy b.
Proof. now destruct a. Qed.

Lemma split_nonempty sep s : split sep s <> [].
Proof.
  destruct s as [|c t]; simpl; [discriminate|].
  destruct (c =? sep); [discriminate|].
  destruct (split sep t); discriminate.
Qed.

Lemma forallb_split (q : N -> bool) sep s :
  forallb q s = true -> forallb (forallb q) (split sep s) = true.
Proof.
  induction s as [|c t IH]; simpl; [reflexivity|].
  intros H. apply andb_true_iff in H. destruct H as [Hc Ht].
  specialize (IH Ht).
  destruct (c =? sep); simpl; [exact IH|].
  destruct (split sep t) as [|w ws]; simpl in *.
  - now rewrite Hc.
  - apply andb_true_iff in IH. destruct IH as [Hw Hws].
    now rewrite Hc, Hw, Hws.
Qed.

Section CodecOnBasicLatin.
Context {host : CaseMapping}.

Lemma createSlug_ascii s :
  forallb isAscii s = true -> createSlug s = @createSlug basicLatin s.
Proof. intros H. unfold createSlug. now rewrite (toLowerCase_ascii s H). Qed.

Lemma capitalize_ascii w :
  forallb isAscii w = true -> capitalize w = @capitalize basicLatin w.
Proof.
  intros H. unfold capitalize. rewrite toUpperCase_ascii; [reflexivity|].
  destruct w as [|c t]; simpl in *; [reflexivity|].
  apply andb_true_iff in H. destruct H as [Hc _]. now rewrite Hc.
Qed.

Lemma decodeSlug_ascii s :
  forallb isAscii s = true -> decodeSlug s = @decodeSlug basicLatin s.
Proof.
  intros H. unfold decodeSlug. f_equal.
  assert (Hw : forallb (forallb isAscii)
                 (split space (replaceEach isHyphen [space] s)) = true)
    by (apply forallb_split, forallb_replaceEach; [reflexivity | exact H]).
  induction (split space (replaceEach isHyphen [space] s)) as [|w ws IH];
    simpl in *; [reflexivity|].
  apply andb_true_iff in Hw. destruct Hw as [Hw Hws].
  now rewrite (capitalize_ascii w Hw), (IH Hws).
Qed.

(** The pair of the specification: [encode("Jane Doe") == "jane-doe"] and
    [decode("jane-doe") == "Jane Doe"], on every host. *)
Example createSlug_jane_doe : createSlug (js "Jane Doe") = js "jane-doe".
Proof. rewrite createSlug_ascii by reflexivity. reflexivity. Qed.

Example decodeSlug_jane_doe : decodeSlug (js "jane-doe") = js "Jane Doe".
Proof. rewrite decodeSlug_ascii by reflexivity. reflexivity. Qed.

Example createSlug_punctuation :
  createSlug (js "  Hello,   World -- 2nd_Ed!  ") = js "hello-world-2nd_ed".
Proof. rewrite createSlug_ascii by reflexivity. reflexivity. Qed.

(** The encoder is not injective, and a slug may start with a hyphen. *)
Example createSlug_collision :
  createSlug (js "My Art") = createSlug (js "my-art!")
  /\ createSlug (js "! a") = js "-a".
Proof. rewrite !createSlug_ascii by reflexivity. split; reflexivity. Qed.

(** A decoded segment is never the empty string. *)
Lemma decodeSlug_truthy s : truthy s = true -> truthy (decodeSlug s) = true.
Proof.
  destruct s as [|c t]; [discriminate|]. intros _.
  unfold decodeSlug.
  assert (Hne : exists c' t', replaceEach isHyphen [space] (c :: t) = c' :: t').
  { simpl. destruct (isHyphen c); simpl; eauto. }
  destruct Hne as (c' & t' & ->). simpl.
  pose proof (split_nonempty space t') as Hs.
  destruct (split space t') as [|w ws]; [contradiction|].
  destruct (c' =? space).
  - change (truthy (capitalize [] ++ [space]
                      ++ join [space] (map capitalize (w :: ws))) = true).
    rewrite truthy_app. simpl. apply orb_true_r.
  - assert (Hc : truthy (capitalize (c' :: w)) = true).
    { unfold capitalize. rewrite truthy_app.
      change (charAt0 (c' :: w)) with [c'].
      now rewrite (toUpperCase_nonempty [c'] eq_refl). }
    simpl. destruct (map capitalize ws).
    + exact Hc.
    + rewrite truthy_app, Hc. reflexivity.
Qed.
End CodecOnBasicLatin.

(** ** View routing *)

Section RoutingFacts.
Import ProjectsApp.
Context {host : CaseMapping}.

Lemma pathParts_truthy path w : In w (pathParts path) -> truthy w = true.
Proof. unfold pathParts. intros H. now apply filter_In in H. Qed.

Lemma len_four_or_more {A : Type} (a b c d : A) l :
  (len (a :: b :: c :: d :: l) =? 3) = false.
Proof. apply N.eqb_neq. unfold len. simpl List.length. lia. Qed.

Lemma fetchProjects_initial listing :
  fetchProjects listing initialState =
  {| view := view_gallery; projects := listed listing; loading := false |}.
Proof. now destruct listing. Qed.

(** What is on screen after a load, for every path. *)
Lemma load_by_path_shape path listing :
  load path listing =
  match pathParts path with
  | [p; a; b] =>
      if jsstring_eqb p (js "projects")
      then ProjectView (decodeSlug a) (decodeSlug b)
      else GalleryView (listed listing) false
  | _ => GalleryView (listed listing) false
  end.
Proof.
  unfold load, mountEffect, render.
  pose proof (pathParts_truthy path) as Htruthy.
  destruct (pathParts path) as [|p [|a [|b [|d rest]]]].
  - change (len (@nil jsstring) =? 3) with false. cbv iota. simpl andb.
    rewrite fetchProjects_initial. reflexivity.
  - change (len [p] =? 3) with false. cbv iota. simpl andb.
    rewrite fetchProjects_initial. reflexivity.
  - change (len [p; a] =? 3) with false. cbv iota. simpl andb.
    rewrite fetchProjects_initial. reflexivity.
  - change (len [p; a; b] =? 3) with true. cbv iota. simpl andb.
    change (nth 0 [p; a; b] []) with p.
    change (nth 1 [p; a; b] []) with a.
    change (nth 2 [p; a; b] []) with b.
    destruct (jsstring_eqb p (js "projects")).
    + cbn [view initialState].
      rewrite (decodeSlug_truthy a), (decodeSlug_truthy b);
        [reflexivity | apply Htruthy; simpl; auto | apply Htruthy; simpl; auto].
    + rewrite fetchProjects_initial. reflexivity.
  - rewrite len_four_or_more. cbv iota. simpl andb.
    rewrite fetchProjects_initial. reflexivity.
Qed.

(** C8. Initial view from the URL: a load whose path has exactly the three
    segments [projects], [a], [b] shows the project view with the decoded
    names of [a] and [b] (hyphens to spaces, each word capitalized), so
    [/projects/jane-doe/my-art] gives "Jane Doe" and "My Art"; the path
    [/projects] shows the gallery; and so does every other path. *)
Theorem initial_view_from_url (listing : Listing) :
  (forall path,
     load path listing =
     match pathParts path with
     | [p; a; b] =>
         if jsstring_eqb p (js "projects")
         then ProjectView (decodeSlug a) (decodeSlug b)
         else GalleryView (listed listing) false
     | _ => GalleryView (listed listing) false
     end)
  /\ (forall path a b,
        pathParts path = [js "projects"; a; b] ->
        load path listing = ProjectView (decodeSlug a) (decodeSlug b))
  /\ load (js "/projects/jane-doe/my-art") listing
     = ProjectView (js "Jane Doe") (js "My Art")
  /\ load (js "/projects") listing = GalleryView (listed listing) false.
Proof.
  split; [intros path; apply load_by_path_shape|].
  split; [intros path a b H; rewrite load_by_path_shape, H; reflexivity|].
  split.
  - rewrite load_by_path_shape.
    change (pathParts (js "/projects/jane-doe/my-art"))
      with [js "projects"; js "jane-doe"; js "my-art"].
    cbv beta iota.
    change (jsstring_eqb (js "projects") (js "projects")) with true.
    cbv beta iota.
    rewrite (decodeSlug_ascii (js "jane-doe")), (decodeSlug_ascii (js "my-art"))
      by reflexivity.
    reflexivity.
  - rewrite load_by_path_shape. reflexivity.
Qed.
End RoutingFacts.

Lemma initial_view_from_url_witness :
  @ProjectsApp.load basicLatin (js "/projects/jane-doe/my-art/")
    ProjectsApp.ListingThrows
  = ProjectsApp.ProjectView (js "Jane Doe") (js "My Art").
Proof.
  apply (proj1 (proj2
    (@initial_view_from_url basicLatin ProjectsApp.ListingThrows))
    (js "/projects/jane-doe/my-art/") (js "jane-doe") (js "my-art")).
  reflexivity.
Defined.

(** ** Field validators *)

Section ValidatorFacts.
Import Home.

Lemma digitsOnly_filter mobile : digitsOnly mobile = filter isDigit mobile.
Proof.
  unfold digitsOnly. induction mobile as [|c t IH]; simpl; [reflexivity|].
  destruct (isDigit c); simpl; now rewrite IH.
Qed.

Example validateMobile_formatted :
  validateMobile (js "+1 (234) 567-8901") = [].
Proof. reflexivity. Qed.

Example validateMobile_too_long :
  validateMobile (js "1234567890123456") = js "Phone number cannot exceed 15 digits".
Proof. reflexivity. Qed.

(** C5. [validateMobile] strips the non-digit characters and accepts
    exactly the inputs whose digit count is between 10 and 15: it returns
    the empty string for them and one of its three messages otherwise;
    [validateMobile("123")] is "Please enter a valid mobile number" and
    [validateMobile("12345678901")] is the empty string. *)
Theorem validateMobile_accepts_10_to_15_digits :
  (forall mobile,
     let digits := len (filter isDigit mobile) in
     digitsOnly mobile = filter isDigit mobile
     /\ (validateMobile mobile = [] <-> 10 <= digits <= 15)
     /\ (validateMobile mobile = []
         \/ validateMobile mobile = js "Mobile number is required"
         \/ validateMobile mobile = js "Please enter a valid mobile number"
         \/ validateMobile mobile = js "Phone number cannot exceed 15 digits"))
  /\ validateMobile (js "123") = js "Please enter a valid mobile number"
  /\ validateMobile (js "12345678901") = [].
Proof.
  split; [|split; reflexivity].
  intros mobile digits. split; [apply digitsOnly_filter|].
  unfold validateMobile. fold (digitsOnly mobile).
  rewrite digitsOnly_filter. fold digits.
  destruct mobile as [|c t].
  - simpl. split; [|auto].
    split; [discriminate|]. subst digits. unfold len. simpl. lia.
  - change (negb (truthy (c :: t))) with false. cbv iota.
    destruct (N.ltb_spec digits 10) as [Hlo|Hlo].
    + split; [|auto]. split; [discriminate | lia].
    + destruct (N.ltb_spec 15 digits) as [Hhi|Hhi].
      * split; [|auto 6]. split; [discriminate | lia].
      * split; [|auto]. split; [lia | reflexivity].
Qed.
End ValidatorFacts.

(** ** Mintability and what the project view renders *)

Section MintabilityFacts.
Import ProjectsApp.

Lemma canMint_iff p :
  canMint p = true <->
  status p = approved /\ present (contractAddress p) = true
  /\ mintingEnabled p = true.
Proof.
  unfold canMint. rewrite !andb_true_iff.
  destruct (status p); intuition (auto; discriminate).
Qed.

(** C9. A project is mintable exactly when its status is approved, its
    contract address is present and minting is enabled. The minting
    section, with the mint controls in it, is rendered exactly for the
    mintable projects; for an approved project with a contract address
    and minting not enabled it is not rendered, and the "check back soon"
    box (on the gallery card, the "Coming Soon" badge) is shown instead. *)
Theorem mintable_iff_approved_contract_enabled (p : Project) (w : Wallet) :
  (canMint p = true <->
     status p = approved /\ present (contractAddress p) = true
     /\ mintingEnabled p = true)
  /\ mintingSection (renderProject w p) = canMint p
  /\ (mintControls (renderProject w p) = true -> canMint p = true)
  /\ (status p = approved -> present (contractAddress p) = true ->
      mintingEnabled p = false ->
      mintingSection (renderProject w p) = false
      /\ mintControls (renderProject w p) = false
      /\ connectWalletButton (renderProject w p) = false
      /\ notLiveBox (renderProject w p) = true
      /\ comingSoonBadge (renderCard p) = true
      /\ mintingLiveBadge (renderCard p) = false).
Proof.
  split; [apply canMint_iff|].
  split; [reflexivity|].
  split.
  - simpl. intros H. now apply andb_true_iff in H.
  - intros Hs Ha He. unfold renderProject, renderCard, canMint. simpl.
    rewrite Hs, Ha, He. repeat split.
Qed.


Lemma mintable_iff_approved_contract_enabled_witness :
  mintingSection (renderProject connectedWallet comingSoonProject) = false
  /\ mintControls (renderProject connectedWallet comingSoonProject) = false
  /\ connectWalletButton (renderProject connectedWallet comingSoonProject) = false
  /\ notLiveBox (renderProject connectedWallet comingSoonProject) = true
  /\ comingSoonBadge (renderCard comingSoonProject) = true
  /\ mintingLiveBadge (renderCard comingSoonProject) = false.
Proof.
  apply (proj2 (proj2 (proj2
    (mintable_iff_approved_contract_enabled comingSoonProject connectedWallet))));
    reflexivity.
Defined.
End MintabilityFacts.

(** ** The mint flow *)

Section MintFlowFacts.
Import ProjectsApp.




Lemma handleMint_submits w st contract :
  walletReady w = true -> contractOf st = Some contract -> chainReady w = true ->
  fst (handleMint w st) = setMessage initiatingMessage (setMinting true st)
  /\ submitted (snd (handleMint w st)) = Some (pricePerNFT w * mintAmount st)%Z.
Proof.
  unfold walletReady, chainReady, handleMint.
  destruct (isConnected w); [|discriminate].
  destruct (walletAddress w) as [[|c t]|]; simpl; intros H Hc Hr;
    [discriminate | | discriminate].
  rewrite Hc.
  destruct (chainId w =? polygon_id)%Z; simpl in *.
  - split; reflexivity.
  - rewrite Hr. simpl. split; reflexivity.
Qed.

(** Whatever is submitted carries the unit price times the amount. *)
Lemma handleMint_value w st v :
  submitted (snd (handleMint w st)) = Some v ->
  v = (pricePerNFT w * mintAmount st)%Z.
Proof.
  unfold handleMint.
  destruct (isConnected w); [|discriminate].
  destruct (walletAddress w) as [[|c t]|]; [discriminate | | discriminate].
  destruct (contractOf st); [|discriminate].
  destruct (chainId w =? polygon_id)%Z; simpl.
  - intros H. now inversion H.
  - destruct (switchChainResolves w); simpl; [|discriminate].
    intros H. now inversion H.
Qed.

Lemma pricePerNFT_read w P : basePrice w = Some P -> pricePerNFT w = P.
Proof.
  unfold pricePerNFT. intros ->.
  destruct (Z.eqb_spec P 0); congruence.
Qed.

(** C3. With the on-chain unit price [P] read, the value of the submitted
    transaction is [P] times the mint amount, in exact integer arithmetic:
    every run that submits carries that value, a run whose preconditions
    hold does submit, and for the amount 3 the value is [3 * P]. *)
Theorem total_value_is_price_times_amount
    (w : Wallet) (st : ViewState) (P : Z) :
  basePrice w = Some P ->
  (1 <= mintAmount st)%Z ->
  (forall v, submitted (snd (handleMint w st)) = Some v ->
             v = (P * mintAmount st)%Z)
  /\ (forall contract,
        walletReady w = true -> contractOf st = Some contract ->
        chainReady w = true ->
        submitted (snd (handleMint w st)) = Some (P * mintAmount st)%Z)
  /\ (mintAmount st = 3%Z ->
      forall v, submitted (snd (handleMint w st)) = Some v -> v = (3 * P)%Z).
Proof.
  intros HP _. split; [|split].
  - intros v Hv. apply handleMint_value in Hv.
    now rewrite (pricePerNFT_read w HP) in Hv.
  - intros contract Hw Hc Hr.
    destruct (handleMint_submits w st Hw Hc Hr) as [_ Hs].
    now rewrite (pricePerNFT_read w HP) in Hs.
  - intros H3 v Hv. apply handleMint_value in Hv.
    rewrite (pricePerNFT_read w HP), H3 in Hv. lia.
Qed.

Lemma total_value_is_price_times_amount_witness :
  submitted (snd (handleMint connectedWallet mintThree))
  = Some (3 * 2000000000000000000)%Z.
Proof.
  destruct (@total_value_is_price_times_amount connectedWallet mintThree
              2000000000000000000%Z eq_refl ltac:(simpl; lia)) as (_ & H & _).
  apply (H (js "0x00000000000000000000000000000000000000a1")); reflexivity.
Defined.








(** The order of the two checks on one input: the wallet is disconnected
    and the project has no contract address, and the message asks to
    connect the wallet. *)
Lemma no_contract_but_connect_message :
  contractOf noProject = None
  /\ message (fst (handleMint disconnectedWallet noProject))
     = Some connectMessage
  /\ message (fst (handleMint disconnectedWallet noProject))
     <> Some contractNotFoundMessage.
Proof. split; [|split]; [reflexivity | reflexivity | discriminate]. Qed.

(** Below 2^53 in absolute value an integer is stored as it is. *)
Lemma toNumber_exact z : (Z.abs z < 2 ^ 53)%Z -> toNumber z = z.
Proof.
  intros H. unfold toNumber. apply Z.ltb_lt in H. now rewrite H.
Qed.

Lemma toNumber_positive z : (1 <= z)%Z -> (1 <= toNumber z)%Z.
Proof.
  intros H. unfold toNumber. rewrite (Z.abs_eq z) by lia.
  destruct (z <? 2 ^ 53)%Z eqn:E; [exact H|].
  apply Z.ltb_ge in E.
  assert (Hlog : (53 <= Z.log2 z)%Z) by (apply Z.log2_le_pow2; lia).
  destruct (Z.log2_spec z ltac:(lia)) as [Hlow _].
  set (q := (2 ^ (Z.log2 z - 52))%Z).
  assert (Hq : (1 <= q)%Z)
    by (subst q; pose proof (Z.pow_pos_nonneg 2 (Z.log2 z - 52)); lia).
  assert (Hqz : (q <= z)%Z).
  { subst q. etransitivity; [|exact Hlow].
    apply Z.pow_le_mono_r; lia. }
  assert (Hk : (1 <= z / q)%Z) by (apply Z.div_le_lower_bound; lia).
  rewrite (Z.sgn_pos z) by lia.
  destruct (if (2 * (z mod q) <? q)%Z then false
            else if (q <? 2 * (z mod q))%Z then true else Z.odd (z / q)); nia.
Qed.

(** The amount never falls below 1 under the two buttons. *)
Lemma mintAmount_floor st :
  (1 <= mintAmount st)%Z ->
  (1 <= mintAmount (decrement st))%Z /\ (1 <= mintAmount (increment st))%Z.
Proof.
  intros H. cbn [decrement increment setMintAmount mintAmount]. split; [lia|].
  apply toNumber_positive. lia.
Qed.

(** The [+] button adds one below 2^53 and leaves 2^53 as it is, 2^53 + 1
    being no double. *)
Lemma increment_saturates st :
  ((0 <= mintAmount st < 2 ^ 53 - 1)%Z ->
     mintAmount (increment st) = (mintAmount st + 1)%Z)
  /\ (mintAmount st = (2 ^ 53)%Z -> mintAmount (increment st) = (2 ^ 53)%Z).
Proof.
  cbn [increment setMintAmount mintAmount]. split.
  - intros H. apply toNumber_exact. lia.
  - intros ->. reflexivity.
Qed.

(** Where the stored price is used: the price on display, while the
    on-chain read has no value. *)
Lemma displayPrice_falls_back etherToNumber w p :
  basePrice w = None -> displayPricePerNFT etherToNumber w p = mintPrice p.
Proof. unfold displayPricePerNFT. now intros ->. Qed.
End MintFlowFacts.

(** ** The availability checker *)

Section AvailabilityFacts.
Import Home.
Variable net : Network.
Variable snap : State.

Lemma short_name_no_request input st :
  len (trim input) < 2 ->
  checkProjectNameAvailability net snap input st
  = setProjectNameAvailable null st.
Proof.
  intros H. unfold checkProjectNameAvailability.
  apply N.ltb_lt in H. rewrite H, orb_true_r. reflexivity.
Qed.

Lemma failed_name_check input st r :
  In r (requests (logOf (checkProjectNameAvailability net snap input st))) ->
  failed (net r) = true ->
  projectNameAvailable
    (stateOf (checkProjectNameAvailability net snap input st)) = null.
Proof.
  unfold checkProjectNameAvailability.
  destruct (negb (truthy (trim input)) || (len (trim input) <? 2));
    [intros []|].
  destruct (artistId snap) as [aid|]; [|intros []].
  cbn [bind fetch logOf stateOf fst snd setCheckingProjectName requests
       flat_map app].
  destruct (net (checkNameRequest input aid)) as [|ok [result|]] eqn:E.
  - intros _ _. reflexivity.
  - intros Hin Hf. exfalso.
    destruct (getProp result (js "available"));
      cbn in Hin; destruct Hin as [<-|[]]; rewrite E in Hf; discriminate.
  - intros _ _. reflexivity.
Qed.

Lemma failed_symbol_check input st r :
  In r (requests (logOf (checkProjectSymbolAvailability net snap input st))) ->
  failed (net r) = true ->
  projectSymbolAvailable
    (stateOf (checkProjectSymbolAvailability net snap input st)) = null.
Proof.
  unfold checkProjectSymbolAvailability.
  destruct (negb (truthy (trim input)) || (len (trim input) <? 1));
    [intros []|].
  destruct (artistId snap) as [aid|]; [|intros []].
  cbn [bind fetch logOf stateOf fst snd setCheckingProjectSymbol requests
       flat_map app].
  destruct (net (checkSymbolRequest input aid)) as [|ok [result|]] eqn:E.
  - intros _ _. reflexivity.
  - intros Hin Hf. exfalso.
    destruct (getProp result (js "available"));
      cbn in Hin; destruct Hin as [<-|[]]; rewrite E in Hf; discriminate.
  - intros _ _. reflexivity.
Qed.

(** C7. For a project name whose trimmed length is below 2 the checker
    makes no network call and stores [null], the unknown verdict; and
    whenever the request of a check (of the name or of the symbol) fails,
    or the body of its response does not parse, the stored verdict is
    [null]: unknown, never available. *)
Theorem availability_unknown_when_short_or_failed (input : jsstring) (st : State) :
  let name := checkProjectNameAvailability net snap input st in
  let symbol := checkProjectSymbolAvailability net snap input st in
  (len (trim input) < 2 ->
     logOf name = []
     /\ projectNameAvailable (stateOf name) = null
     /\ verdict (projectNameAvailable (stateOf name)) = unknown)
  /\ (forall r, In r (requests (logOf name)) -> failed (net r) = true ->
        projectNameAvailable (stateOf name) = null
        /\ verdict (projectNameAvailable (stateOf name)) = unknown
        /\ verdict (projectNameAvailable (stateOf name)) <> available)
  /\ (forall r, In r (requests (logOf symbol)) -> failed (net r) = true ->
        projectSymbolAvailable (stateOf symbol) = null
        /\ verdict (projectSymbolAvailable (stateOf symbol)) = unknown
        /\ verdict (projectSymbolAvailable (stateOf symbol)) <> available).
Proof.
  intros name symbol. split; [|split].
  - intros H. subst name. rewrite (short_name_no_request input st H).
    repeat split.
  - intros r Hin Hf. subst name.
    rewrite (failed_name_check input st r Hin Hf).
    split; [reflexivity|]. split; [reflexivity | discriminate].
  - intros r Hin Hf. subst symbol.
    rewrite (failed_symbol_check input st r Hin Hf).
    split; [reflexivity|]. split; [reflexivity | discriminate].
Qed.
End AvailabilityFacts.

Section AvailabilityWitness.
Import Home.


Lemma availability_unknown_when_short_or_failed_witness :
  (logOf (checkProjectNameAvailability offline seenAvailable (js " a ") seenAvailable)
   = []
   /\ verdict (projectNameAvailable
        (stateOf (checkProjectNameAvailability offline seenAvailable
                    (js " a ") seenAvailable))) = unknown)
  /\ verdict (projectNameAvailable
       (stateOf (checkProjectNameAvailability offline seenAvailable
                   (js "My Art") seenAvailable))) = unknown
  /\ verdict (projectSymbolAvailable
       (stateOf (checkProjectSymbolAvailability garbled seenAvailable
                   (js "ART") seenAvailable))) = unknown.
Proof.
  split; [|split].
  - destruct (availability_unknown_when_short_or_failed offline seenAvailable
                (js " a ") seenAvailable) as (H & _ & _).
    destruct H as (Hlog & _ & Hv); [vm_compute; reflexivity|].
    split; [exact Hlog | exact Hv].
  - destruct (availability_unknown_when_short_or_failed offline seenAvailable
                (js "My Art") seenAvailable) as (_ & H & _).
    apply (H (checkNameRequest (js "My Art") (js "artist-1")));
      [left; reflexivity | reflexivity].
  - destruct (availability_unknown_when_short_or_failed garbled seenAvailable
                (js "ART") seenAvailable) as (_ & _ & H).
    apply (H (checkSymbolRequest (js "ART") (js "artist-1")));
      [left; reflexivity | reflexivity].
Defined.
End AvailabilityWitness.

(** ** The project form *)

Section FormFacts.
Import Home.
Context {host : CaseMapping}.
Variable parseInt : jsstring -> float.
Variable parseFloat : jsstring -> float.
Variable net : Network.

Lemma errors_app l1 l2 : errors (l1 ++ l2) = errors l1 ++ errors l2.
Proof.
  unfold errors, messages.
  now rewrite flat_map_app, filter_app, map_app.
Qed.

Lemma checkProjectNameAvailability_quiet snap input st :
  errors (logOf (checkProjectNameAvailability net snap input st)) = [].
Proof.
  unfold checkProjectNameAvailability.
  destruct (negb (truthy (trim input)) || (len (trim input) <? 2));
    [reflexivity|].
  destruct (artistId snap) as [aid|]; [|reflexivity].
  cbn [bind fetch logOf stateOf fst snd setCheckingProjectName app].
  destruct (net (checkNameRequest input aid)) as [|ok [result|]];
    try reflexivity.
  destruct (getProp result (js "available")); reflexivity.
Qed.

Lemma checkProjectSymbolAvailability_quiet snap input st :
  errors (logOf (checkProjectSymbolAvailability net snap input st)) = [].
Proof.
  unfold checkProjectSymbolAvailability.
  destruct (negb (truthy (trim input)) || (len (trim input) <? 1));
    [reflexivity|].
  destruct (artistId snap) as [aid|]; [|reflexivity].
  cbn [bind fetch logOf stateOf fst snd setCheckingProjectSymbol app].
  destruct (net (checkSymbolRequest input aid)) as [|ok [result|]];
    try reflexivity.
  destruct (getProp result (js "available")); reflexivity.
Qed.


Lemma fail_reports rule t st :
  js t = report rule -> reports rule (fail t st).
Proof.
  intros E. unfold reports, fail. cbn [bind setMessage ret valueOf stateOf logOf
    fst snd app message]. rewrite E.
  repeat split. now exists [].
Qed.

Lemma reports_after (m : Act unit) (k : Act bool) rule st :
  errors (logOf (m st)) = [] ->
  reports rule (k (stateOf (m st))) ->
  reports rule (bind m (fun _ => k) st).
Proof.
  intros Hq (Hv & He & (before & Hl) & Hm). unfold reports.
  change (valueOf (bind m (fun _ => k) st)) with (valueOf (k (stateOf (m st)))).
  change (stateOf (bind m (fun _ => k) st)) with (stateOf (k (stateOf (m st)))).
  change (logOf (bind m (fun _ => k) st))
    with (logOf (m st) ++ logOf (k (stateOf (m st)))).
  rewrite errors_app, Hq, He, Hl.
  repeat split; [exact Hv | | exact Hm].
  exists (logOf (m st) ++ before). apply app_assoc.
Qed.


Lemma passes_after (m : Act unit) (k : Act bool) st :
  errors (logOf (m st)) = [] ->
  passes (k (stateOf (m st))) ->
  passes (bind m (fun _ => k) st).
Proof.
  intros Hq (Hv & He). unfold passes.
  change (valueOf (bind m (fun _ => k) st)) with (valueOf (k (stateOf (m st)))).
  change (logOf (bind m (fun _ => k) st))
    with (logOf (m st) ++ logOf (k (stateOf (m st)))).
  now rewrite errors_app, Hq, He.
Qed.

Ltac quiet_step :=
  first [ apply checkProjectNameAvailability_quiet
        | apply checkProjectSymbolAvailability_quiet
        | reflexivity ].

Ltac ends_on_report :=
  repeat (apply reports_after; [quiet_step|]);
  apply fail_reports; reflexivity.

(** The nested tests of [validateForm] against the priority list. *)
Lemma validateForm_first_broken snap st :
  match firstBroken parseInt parseFloat snap with
  | Some rule => reports rule (validateForm parseInt parseFloat net snap st)
  | None => passes (validateForm parseInt parseFloat net snap st)
  end.
Proof.
  unfold firstBroken, priority, validateForm.
  cbn beta iota zeta delta [find broken].
  destruct (negb (truthy (trim (projectName (formData snap)))));
    [ends_on_report|].
  destruct (negb (truthy (trim (projectSymbol (formData snap)))));
    [ends_on_report|].
  destruct (10 <? len (projectSymbol (formData snap)));
    [ends_on_report|].
  destruct (isFalse (projectNameAvailable snap));
    [ends_on_report|].
  destruct (isFalse (projectSymbolAvailable snap));
    [ends_on_report|].
  destruct (negb (truthy (totalSupply (formData snap)))
            || PrimFloat.ltb (parseInt (totalSupply (formData snap))) 1);
    [ends_on_report|].
  destruct (negb (truthy (mintPrice (formData snap)))
            || PrimFloat.ltb (parseFloat (mintPrice (formData snap))) 0);
    [ends_on_report|].
  destruct (negb (truthy (royalties (formData snap)))
            || PrimFloat.ltb (parseFloat (royalties (formData snap))) 0);
    [ends_on_report|].
  destruct (PrimFloat.ltb 100 (parseFloat (royalties (formData snap))));
    [ends_on_report|].
  destruct (negb (truthy (trim (contractOwner (formData snap)))));
    [ends_on_report|].
  destruct (negb (ethAddressRegex (trim (contractOwner (formData snap)))));
    [ends_on_report|].
  destruct (image (formData snap));
    [|ends_on_report].
  repeat (apply passes_after; [quiet_step|]).
  split; reflexivity.
Qed.

(** [handleSubmit] returns right after a validation that fails. *)
Lemma handleSubmit_stops snap st :
  valueOf (validateForm parseInt parseFloat net snap st) = false ->
  handleSubmit parseInt parseFloat net snap st
  = (tt, stateOf (validateForm parseInt parseFloat net snap st),
     logOf (validateForm parseInt parseFloat net snap st)).
Proof.
  intros H. unfold handleSubmit, bind at 1.
  fold (valueOf (validateForm parseInt parseFloat net snap st)).
  rewrite H. cbn [negb ret fst snd]. now rewrite app_nil_r.
Qed.

(** On the conditions it tests, [validateForm] is fail-fast: it stops
    at the first rule of the priority order whose test succeeds, reports
    that rule and no other, the report is the last thing it does, and the
    submit handler ends there. When no test succeeds it raises no error
    and answers [true]. The two availability tests read the verdicts of
    the render the handler belongs to. *)
Theorem validateForm_fail_fast_first_error_wins (st : State) :
  let r := run (validateForm parseInt parseFloat net) st in
  match firstBroken parseInt parseFloat st with
  | Some rule =>
      valueOf r = false
      /\ errors (logOf r) = [report rule]
      /\ (exists before,
            logOf r = before ++ [EMessage {| text := report rule; type := error |}])
      /\ message (stateOf r) = Some {| text := report rule; type := error |}
      /\ run (handleSubmit parseInt parseFloat net) st
         = (tt, stateOf r, logOf r)
  | None => valueOf r = true /\ errors (logOf r) = []
  end.
Proof.
  intros r. subst r. unfold run.
  pose proof (validateForm_first_broken st st) as H.
  destruct (firstBroken parseInt parseFloat st) as [rule|]; [|exact H].
  destruct H as (Hv & He & Hl & Hm).
  repeat split; try assumption.
  now apply handleSubmit_stops.
Qed.

(** With every rule kept, a logged-in artist and a readable image, the
    create-project request is sent. *)
Lemma handleSubmit_sends_when_valid snap st aid file data :
  firstBroken parseInt parseFloat snap = None ->
  artistId snap = Some aid ->
  image (formData snap) = Some file -> dataURL file = Some data ->
  In (createProjectRequest parseInt parseFloat snap aid data)
     (requests (logOf (handleSubmit parseInt parseFloat net snap st))).
Proof.
  intros Hb Ha Hi Hd.
  pose proof (validateForm_first_broken snap st) as H. rewrite Hb in H.
  destruct H as [Hv _].
  unfold handleSubmit, bind at 1.
  fold (valueOf (validateForm parseInt parseFloat net snap st)).
  rewrite Hv, Ha, Hi. destruct file as [sz mm du]. simpl in Hd. subst du.
  cbn [negb logOf snd fst].
  unfold requests. rewrite flat_map_app. apply in_or_app. right.
  cbn [bind setSubmitting setMessage fetch fst snd app flat_map].
  left. reflexivity.
Qed.
End FormFacts.

Section FormExamples.
Import Home.

Example goodForm_keeps_every_rule :
  firstBroken parseIntSamples parseFloatSamples (dashboard goodForm null null) = None
  /\ valueOf (run (validateForm parseIntSamples parseFloatSamples offline)
                (dashboard goodForm null null)) = true.
Proof. split; reflexivity. Qed.

Example stored_taken_verdict_breaks_name_rule :
  firstBroken parseIntSamples parseFloatSamples
    (dashboard goodForm (Some (JBool false)) null)
  = Some RNameAvailability.
Proof. reflexivity. Qed.

(** C6. The validation is not first-error-wins on the availability
    rules. A logged-in artist submits the good form, no verdict stored
    yet, and the backend answers every check with [available: false]:
    the first failing rule is the availability of the name, yet
    [validateForm] raises no error and answers [true], having stored
    "taken" for the next render only, and [handleSubmit] goes on to send
    the create-project request. On the same form without a total supply
    the only error reported is that of the total supply, a rule that
    comes after the two availability rules. *)
Theorem validateForm_misses_the_answer_of_its_check :
  let st := dashboard goodForm null null in
  let r := run (validateForm parseIntSamples parseFloatSamples allTaken) st in
  let st' := dashboard noSupplyForm null null in
  let r' := run (validateForm parseIntSamples parseFloatSamples allTaken) st' in
  specFirstBroken parseIntSamples parseFloatSamples allTaken st
  = Some RNameAvailability
  /\ valueOf r = true
  /\ errors (logOf r) = []
  /\ projectNameAvailable (stateOf r) = Some (JBool false)
  /\ In (@createProjectRequest basicLatin parseIntSamples parseFloatSamples st
           (js "artist-1") (js "data:image/png;base64,iVBORw0KGgo="))
        (requests
           (logOf (@run unit
                     (@handleSubmit basicLatin parseIntSamples parseFloatSamples
                        allTaken) st)))
  /\ specFirstBroken parseIntSamples parseFloatSamples allTaken st'
     = Some RNameAvailability
  /\ valueOf r' = false
  /\ errors (logOf r') = [report RTotalSupply].
Proof.
  cbv zeta.
  split; [reflexivity|]. split; [reflexivity|]. split; [reflexivity|].
  split; [reflexivity|].
  split.
  - apply (@handleSubmit_sends_when_valid basicLatin parseIntSamples
             parseFloatSamples allTaken (dashboard goodForm null null)
             (dashboard goodForm null null) (js "artist-1") artFile);
      reflexivity.
  - split; [reflexivity|]. split; reflexivity.
Qed.

(** A handler tests the verdict of its own render: the check made during
    the validation stores "taken" for the next render only. *)
Example validateForm_tests_the_rendered_verdict :
  let r := run (validateForm parseIntSamples parseFloatSamples allTaken)
               (dashboard goodForm null null) in
  valueOf r = true
  /\ verdict (projectNameAvailable (stateOf r)) = taken
  /\ firstBroken parseIntSamples parseFloatSamples (stateOf r) = Some RNameAvailability.
Proof. repeat split. Qed.

Lemma validateForm_fail_fast_first_error_wins_witness :
  errors (logOf (run (validateForm parseIntSamples parseFloatSamples offline)
                     (dashboard sloppyForm null null)))
  = [js "Project symbol is required"]
  /\ @run unit (@handleSubmit basicLatin parseIntSamples parseFloatSamples offline)
       (dashboard sloppyForm null null)
     = (tt,
        stateOf (run (validateForm parseIntSamples parseFloatSamples offline)
                     (dashboard sloppyForm null null)),
        logOf (run (validateForm parseIntSamples parseFloatSamples offline)
                   (dashboard sloppyForm null null))).
Proof.
  pose proof (@validateForm_fail_fast_first_error_wins basicLatin
                parseIntSamples parseFloatSamples offline
                (dashboard sloppyForm null null)) as H.
  cbv zeta in H.
  change (firstBroken parseIntSamples parseFloatSamples (dashboard sloppyForm null null))
    with (Some RSymbol) in H.
  destruct H as (_ & He & _ & _ & Hs).
  split; [exact He | exact Hs].
Defined.
End FormExamples.

(** ** The codec as a round trip, and the URLs the gallery pushes *)

Lemma replaceEach_hyphenToSpace s :
  replaceEach isHyphen [space] s = map hyphenToSpace s.
Proof.
  induction s as [|c t IH]; simpl; [reflexivity|].
  unfold hyphenToSpace at 1. destruct (isHyphen c); simpl; now rewrite IH.
Qed.

Lemma join_cons (sep w w' : jsstring) (ws : list jsstring) :
  join sep (w :: w' :: ws) = w ++ sep ++ join sep (w' :: ws).
Proof. reflexivity. Qed.

Lemma join_split sep s : join [sep] (split sep s) = s.
Proof.
  induction s as [|c t IH]; [reflexivity|].
  simpl split. pose proof (split_nonempty sep t) as Hne.
  destruct (N.eqb_spec c sep) as [->|Hc].
  - destruct (split sep t) as [|w ws]; [contradiction|].
    rewrite join_cons, IH. reflexivity.
  - destruct (split sep t) as [|w ws]; [contradiction|].
    destruct ws as [|w' ws].
    + simpl in *. now rewrite IH.
    + rewrite join_cons. rewrite join_cons in IH. now rewrite <- IH.
Qed.

Lemma map_join (f : N -> N) sep (ws : list jsstring) :
  map f (join [sep] ws) = join [f sep] (map (map f) ws).
Proof.
  induction ws as [|w ws IH]; [reflexivity|].
  destruct ws as [|w' ws]; [reflexivity|].
  rewrite join_cons, !map_app, IH. reflexivity.
Qed.

Lemma forallb_join (q : N -> bool) (sep : jsstring) (ws : list jsstring) :
  forallb q sep = true -> forallb (forallb q) ws = true ->
  forallb q (join sep ws) = true.
Proof.
  intros Hs. induction ws as [|w ws IH]; [reflexivity|].
  intros H. simpl in H. apply andb_true_iff in H. destruct H as [Hw Hws].
  destruct ws as [|w' ws]; [exact Hw|].
  rewrite join_cons, forallb_app, forallb_app.
  specialize (IH Hws). rewrite IH, Hs, Hw. reflexivity.
Qed.

Lemma lower_upper c : isUpperAscii c = false -> lowerAscii (upperAscii c) = c.
Proof.
  intros H. unfold upperAscii. destruct (isLowerAscii c) eqn:E.
  - unfold lowerAscii.
    assert (Hu : isUpperAscii (c - 32) = true) by class_false.
    rewrite Hu. clear Hu H. unfold_classes. bool_to_arith; lia.
  - unfold lowerAscii. now rewrite H.
Qed.

Lemma upperAscii_ascii c : isAscii c = true -> isAscii (upperAscii c) = true.
Proof.
  intros H. unfold upperAscii. destruct (isLowerAscii c) eqn:E; [|exact H].
  class_false.
Qed.

Lemma capitalize_basicLatin w :
  @capitalize basicLatin w = map upperAscii (charAt0 w) ++ slice1 w.
Proof. reflexivity. Qed.

Lemma lower_capitalize w :
  forallb (fun c => negb (isUpperAscii c)) w = true ->
  map lowerAscii (@capitalize basicLatin w) = w.
Proof.
  intros H. rewrite capitalize_basicLatin.
  destruct w as [|c t]; [reflexivity|].
  cbn [forallb] in H. apply andb_true_iff in H. destruct H as [Hc Ht].
  change (charAt0 (c :: t)) with [c]. change (slice1 (c :: t)) with t.
  cbn [map app].
  apply negb_true_iff in Hc. rewrite (lower_upper c Hc). f_equal.
  apply map_fixed with (p := fun c => negb (isUpperAscii c)); [|exact Ht].
  intros d Hd. apply negb_true_iff in Hd. unfold lowerAscii. now rewrite Hd.
Qed.

Lemma capitalize_ascii_chars w :
  forallb isAscii w = true -> forallb isAscii (@capitalize basicLatin w) = true.
Proof.
  intros H. rewrite capitalize_basicLatin.
  destruct w as [|c t]; [reflexivity|].
  cbn [forallb] in H. apply andb_true_iff in H. destruct H as [Hc Ht].
  change (charAt0 (c :: t)) with [c]. change (slice1 (c :: t)) with t.
  cbn [map app forallb].
  now rewrite (upperAscii_ascii c Hc), Ht.
Qed.

Lemma forallb_map_words (f : jsstring -> jsstring) (q : N -> bool) ws :
  (forall w, forallb q w = true -> forallb q (f w) = true) ->
  forallb (forallb q) ws = true -> forallb (forallb q) (map f ws) = true.
Proof.
  intros Hf. induction ws as [|w ws IH]; [reflexivity|].
  simpl. intros H. apply andb_true_iff in H. destruct H as [Hw Hws].
  now rewrite (Hf w Hw), (IH Hws).
Qed.

Lemma map_words_fixed (f g : jsstring -> jsstring) (q : N -> bool) ws :
  (forall w, forallb q w = true -> g (f w) = w) ->
  forallb (forallb q) ws = true -> map g (map f ws) = ws.
Proof.
  intros Hf. induction ws as [|w ws IH]; [reflexivity|].
  simpl. intros H. apply andb_true_iff in H. destruct H as [Hw Hws].
  now rewrite (Hf w Hw), (IH Hws).
Qed.

Lemma hyphenToSpace_chars s :
  forallb isSlugChar s = true ->
  forallb isAscii (map hyphenToSpace s) = true
  /\ forallb (fun c => negb (isUpperAscii c)) (map hyphenToSpace s) = true
  /\ forallb (fun c => negb (isSpecial c)) (map hyphenToSpace s) = true.
Proof.
  induction s as [|c t IH]; [repeat split|].
  simpl. intros H. apply andb_true_iff in H. destruct H as [Hc Ht].
  destruct (IH Ht) as (H1 & H2 & H3). rewrite H1, H2, H3.
  unfold hyphenToSpace. destruct (isHyphen c) eqn:E.
  - repeat split.
  - rewrite (slugChar_ascii c Hc), (slugChar_not_special c Hc).
    assert (Hu : isUpperAscii c = false) by class_false.
    rewrite Hu. repeat split.
Qed.

(** Lower-casing the decoded slug gives the slug back, spaces for
    hyphens. *)
Lemma lower_decodeSlug_basicLatin s :
  forallb isSlugChar s = true ->
  map lowerAscii (@decodeSlug basicLatin s) = map hyphenToSpace s.
Proof.
  intros H. destruct (hyphenToSpace_chars s H) as (_ & Hu & _).
  unfold decodeSlug. rewrite replaceEach_hyphenToSpace, map_join.
  change (lowerAscii space) with space.
  rewrite map_words_fixed with (q := fun c => negb (isUpperAscii c)).
  - apply join_split.
  - apply lower_capitalize.
  - now apply forallb_split.
Qed.

Lemma decodeSlug_basicLatin_ascii s :
  forallb isSlugChar s = true ->
  forallb isAscii (@decodeSlug basicLatin s) = true.
Proof.
  intros H. destruct (hyphenToSpace_chars s H) as (Ha & _ & _).
  unfold decodeSlug. rewrite replaceEach_hyphenToSpace.
  apply forallb_join; [reflexivity|].
  apply forallb_map_words; [apply capitalize_ascii_chars|].
  now apply forallb_split.
Qed.

Lemma trimStart_head s :
  negb (startsWith [hyphen] s) = true ->
  forallb isSlugChar s = true ->
  trimStart (map hyphenToSpace s) = map hyphenToSpace s.
Proof.
  destruct s as [|c t]; [reflexivity|].
  intros Hh H.
  assert (Hn : isHyphen c = false).
  { unfold isHyphen. rewrite N.eqb_sym. cbn [startsWith] in Hh.
    rewrite andb_true_r in Hh. now apply negb_true_iff in Hh. }
  cbn [forallb] in H. apply andb_true_iff in H. destruct H as [Hc _].
  assert (Hfix : hyphenToSpace c = c) by (unfold hyphenToSpace; now rewrite Hn).
  cbn [map trimStart]. rewrite Hfix.
  now rewrite (slugChar_not_space c Hc).
Qed.

Lemma trim_canonical s :
  isCanonicalSlug s = true -> trim (map hyphenToSpace s) = map hyphenToSpace s.
Proof.
  unfold isCanonicalSlug. rewrite !andb_true_iff.
  intros [[[Hc _] Hs] He].
  unfold trim, trimEnd. rewrite (trimStart_head s Hs Hc).
  rewrite <- map_rev, trimStart_head; [| exact He | now rewrite forallb_rev].
  now rewrite map_rev, rev_involutive.
Qed.

Lemma spaces_back_to_hyphens b s :
  forallb isSlugChar s = true -> runFree isHyphen b s = true ->
  replaceRuns isWhiteSpace [hyphen] b (map hyphenToSpace s) = s.
Proof.
  revert b. induction s as [|c t IH]; [reflexivity|].
  intros b H Hr. simpl in H. apply andb_true_iff in H. destruct H as [Hc Ht].
  simpl in Hr. simpl map. unfold hyphenToSpace at 1.
  destruct (isHyphen c) eqn:E.
  - apply andb_true_iff in Hr. destruct Hr as [Hb Hr].
    apply negb_true_iff in Hb. subst b. simpl.
    rewrite (IH true Ht Hr). apply N.eqb_eq in E. now rewrite E.
  - simpl. rewrite (slugChar_not_space c Hc), (IH false Ht Hr). reflexivity.
Qed.

Section CodecRoundTrip.
Context {host : CaseMapping}.

(** X1. On a canonical slug (slug characters, no double hyphen, no hyphen
    at either end) encoding undoes decoding:
    [createSlug (decodeSlug s) = s]. *)
Theorem createSlug_decodeSlug (s : jsstring) :
  isCanonicalSlug s = true -> createSlug (decodeSlug s) = s.
Proof.
  intros Hcan. pose proof Hcan as Hparts. unfold isCanonicalSlug in Hparts.
  rewrite !andb_true_iff in Hparts. destruct Hparts as [[[Hc Hr] _] _].
  assert (Ha : forallb isAscii s = true)
    by (eapply forallb_impl; [apply slugChar_ascii | exact Hc]).
  unfold createSlug.
  rewrite (decodeSlug_ascii s Ha).
  rewrite toLowerCase_ascii by now apply decodeSlug_basicLatin_ascii.
  rewrite (lower_decodeSlug_basicLatin s Hc), (trim_canonical s Hcan).
  destruct (hyphenToSpace_chars s Hc) as (_ & _ & Hsp).
  rewrite (replaceEach_fixed _ _ _ Hsp).
  rewrite (spaces_back_to_hyphens false s Hc Hr).
  apply replaceRuns_fixed_runFree; [|exact Hr].
  intros c H. now apply N.eqb_eq in H.
Qed.

(** X2. The output of [createSlug] never holds two hyphens in a row. *)
Theorem createSlug_no_double_hyphen (x pre post : jsstring) :
  createSlug x <> pre ++ hyphen :: hyphen :: post.
Proof.
  intros E. pose proof (createSlug_runFree x) as H. rewrite E in H.
  clear E. revert H. generalize false.
  induction pre as [|c t IH]; intros b H.
  - simpl in H. rewrite andb_false_r in H. discriminate.
  - simpl in H. destruct (isHyphen c).
    + apply andb_true_iff in H. destruct H as [_ H]. exact (IH _ H).
    + exact (IH _ H).
Qed.
End CodecRoundTrip.

Lemma createSlug_decodeSlug_witness :
  @createSlug basicLatin (@decodeSlug basicLatin (js "jane-doe_2nd")) = js "jane-doe_2nd".
Proof. apply (@createSlug_decodeSlug basicLatin). reflexivity. Defined.

Lemma split_without_sep sep (x : jsstring) :
  forallb (fun c => negb (c =? sep)) x = true -> split sep x = [x].
Proof.
  induction x as [|c t IH]; [reflexivity|].
  cbn [forallb]. intros H. apply andb_true_iff in H. destruct H as [Hc Ht].
  apply negb_true_iff in Hc. cbn [split]. now rewrite Hc, (IH Ht).
Qed.

Lemma split_at_sep sep (x y : jsstring) :
  forallb (fun c => negb (c =? sep)) x = true ->
  split sep (x ++ sep :: y) = x :: split sep y.
Proof.
  induction x as [|c t IH].
  - intros _. cbn [app split]. now rewrite N.eqb_refl.
  - cbn [forallb]. intros H. apply andb_true_iff in H. destruct H as [Hc Ht].
    apply negb_true_iff in Hc. cbn [app split]. now rewrite Hc, (IH Ht).
Qed.

Lemma slugChars_without_slash s :
  forallb isSlugChar s = true ->
  forallb (fun c => negb (c =? slash)) s = true.
Proof.
  apply forallb_impl. intros c H. apply negb_true_iff. class_false.
Qed.

Section GalleryNavigation.
Import ProjectsApp GalleryPage.
Context {host : CaseMapping}.

(** The parts of the URL a click pushes: [projects] and the slugs that
    are not empty. *)
Lemma pathParts_of_pushed_url (a b : jsstring) :
  forallb isSlugChar a = true -> forallb isSlugChar b = true ->
  pathParts (js "/projects/" ++ a ++ js "/" ++ b)
  = js "projects" :: filter truthy [a; b].
Proof.
  intros Ha Hb. unfold pathParts.
  change (js "/projects/" ++ a ++ js "/" ++ b)
    with ([] ++ slash :: (js "projects" ++ slash :: (a ++ slash :: b))).
  rewrite split_at_sep by reflexivity.
  rewrite split_at_sep by reflexivity.
  rewrite split_at_sep by now apply slugChars_without_slash.
  rewrite split_without_sep by now apply slugChars_without_slash.
  reflexivity.
Qed.

Lemma render_three_parts path st x a b :
  view st = view_project -> pathParts path = [x; a; b] ->
  render path st = ProjectView (decodeSlug a) (decodeSlug b).
Proof.
  intros Hv Hp. unfold render. rewrite Hp, Hv.
  change (len [x; a; b] =? 3) with true. cbv iota.
  change (nth 1 [x; a; b] []) with a. change (nth 2 [x; a; b] []) with b.
  pose proof (pathParts_truthy path) as Ht. rewrite Hp in Ht.
  rewrite (decodeSlug_truthy a), (decodeSlug_truthy b);
    [reflexivity | apply Ht; simpl; auto | apply Ht; simpl; auto].
Qed.

(** The parts of the URL a click pushes. *)
Lemma pathParts_of_click (p : Project) (st : AppState) :
  pathParts (snd (handleProjectClick p st))
  = js "projects"
    :: filter truthy [createSlug (artistName p); createSlug (projectName p)].
Proof.
  cbn [handleProjectClick snd].
  now rewrite pathParts_of_pushed_url by apply createSlug_chars.
Qed.

(** After a click the view is ['project'], so a further click is followed
    by no render. *)
Lemma clickProject_twice (p q : Project) (pg : Page) :
  screen (clickProject q (clickProject p pg)) = screen (clickProject p pg).
Proof. reflexivity. Qed.

(** X3. A click on a gallery card whose artist and project names both
    have a non-empty slug pushes [/projects/<artistSlug>/<projectSlug>].
    When the view was ['gallery'] a render follows and the project view
    comes on screen, with the names decoded from the two slugs. When the
    view was ['project'] already, the state is not changed, no render
    follows and the screen stays as it was. *)
Theorem handleProjectClick_opens_project (p : Project) (pg : Page) :
  truthy (createSlug (artistName p)) = true ->
  truthy (createSlug (projectName p)) = true ->
  url (clickProject p pg)
  = js "/projects/" ++ createSlug (artistName p) ++ js "/"
    ++ createSlug (projectName p)
  /\ pathParts (url (clickProject p pg))
     = [js "projects"; createSlug (artistName p); createSlug (projectName p)]
  /\ (view (state pg) = view_gallery ->
      screen (clickProject p pg)
      = ProjectView (decodeSlug (createSlug (artistName p)))
                    (decodeSlug (createSlug (projectName p))))
  /\ (view (state pg) = view_project ->
      state (clickProject p pg) = state pg
      /\ screen (clickProject p pg) = screen pg).
Proof.
  intros Ha Hb.
  assert (Hp : pathParts (url (clickProject p pg))
               = [js "projects"; createSlug (artistName p);
                  createSlug (projectName p)]).
  { cbn [clickProject url]. rewrite pathParts_of_click.
    cbn [filter]. now rewrite Ha, Hb. }
  split; [reflexivity|]. split; [exact Hp|]. split.
  - intros Hv. cbn [clickProject screen]. rewrite Hv.
    now apply render_three_parts with (x := js "projects").
  - intros Hv. cbn [clickProject screen state]. rewrite Hv.
    split; [|reflexivity].
    destruct (state pg) as [v ps l]. cbn in Hv |- *. now subst v.
Qed.

(** X4. When the slug of the artist name or of the project name is the
    empty string, a click on the card, the gallery being on screen,
    pushes a URL with fewer than three parts and sets the view to
    ['project'], and the gallery stays on screen. It stays on screen
    after a further click on any card as well, that one's slugs being
    what they may: the view is ['project'] already and no render
    follows. *)
Theorem handleProjectClick_empty_slug_stays_in_gallery
    (p : Project) (pg : Page) :
  truthy (createSlug (artistName p)) && truthy (createSlug (projectName p))
  = false ->
  galleryShown pg ->
  (List.length (pathParts (url (clickProject p pg))) < 3)%nat
  /\ view (state (clickProject p pg)) = view_project
  /\ screen (clickProject p pg)
     = GalleryView (projects (state pg)) (loading (state pg))
  /\ (forall q,
        pathParts (url (clickProject q (clickProject p pg)))
        = js "projects"
          :: filter truthy [createSlug (artistName q); createSlug (projectName q)]
        /\ screen (clickProject q (clickProject p pg))
           = GalleryView (projects (state pg)) (loading (state pg))).
Proof.
  intros H Hshown.
  assert (Hs : screen (clickProject p pg)
               = GalleryView (projects (state pg)) (loading (state pg))).
  { cbn [clickProject screen]. destruct (view (state pg)); [|exact Hshown].
    unfold render. rewrite pathParts_of_click. cbn [filter].
    destruct (truthy (createSlug (artistName p)));
      destruct (truthy (createSlug (projectName p)));
      [discriminate | reflexivity | reflexivity | reflexivity]. }
  split; [|split; [reflexivity|split; [exact Hs|]]].
  - cbn [clickProject url]. rewrite pathParts_of_click. cbn [filter].
    destruct (truthy (createSlug (artistName p)));
      destruct (truthy (createSlug (projectName p)));
      [discriminate | cbn; lia | cbn; lia | cbn; lia].
  - intros q. split.
    + cbn [clickProject url]. apply pathParts_of_click.
    + now rewrite clickProject_twice.
Qed.

(** X5. Going back to the gallery shows the gallery on [/projects],
    no longer loading, with the projects just listed, or with the ones
    held before when the listing request fails. *)
Theorem handleBackToGallery_shows_gallery (listing : Listing) (st : AppState) :
  snd (handleBackToGallery listing st) = js "/projects"
  /\ render (snd (handleBackToGallery listing st))
            (fst (handleBackToGallery listing st))
     = GalleryView
         (match listing with
          | ListingOk ps => ps
          | ListingNotOk | ListingThrows => projects st
          end) false.
Proof.
  split; [reflexivity|]. now destruct listing.
Qed.
End GalleryNavigation.

Lemma handleProjectClick_opens_project_witness :
  GalleryPage.screen
    (@GalleryPage.clickProject basicLatin ProjectsApp.liveProject
       GalleryPage.galleryPage)
  = ProjectsApp.ProjectView (js "Jane Doe") (js "My Art").
Proof.
  apply (proj1 (proj2 (proj2
    (@handleProjectClick_opens_project basicLatin ProjectsApp.liveProject
       GalleryPage.galleryPage eq_refl eq_refl)))).
  reflexivity.
Defined.

Lemma handleProjectClick_empty_slug_stays_in_gallery_witness :
  GalleryPage.screen
    (@GalleryPage.clickProject basicLatin MintEffects.unsluggableProject
       GalleryPage.galleryPage)
  = ProjectsApp.GalleryView [ProjectsApp.liveProject] false
  /\ GalleryPage.screen
       (@GalleryPage.clickProject basicLatin ProjectsApp.liveProject
          (@GalleryPage.clickProject basicLatin MintEffects.unsluggableProject
             GalleryPage.galleryPage))
     = ProjectsApp.GalleryView [ProjectsApp.liveProject] false.
Proof.
  pose proof (@handleProjectClick_empty_slug_stays_in_gallery basicLatin
                MintEffects.unsluggableProject GalleryPage.galleryPage
                eq_refl eq_refl) as (_ & _ & Hs & Hq).
  split; [exact Hs|]. exact (proj2 (Hq ProjectsApp.liveProject)).
Defined.

(** ** The mint flow: wallet calls, failure, confirmation *)

Section MintCallFacts.
Import ProjectsApp MintEffects.

Lemma walletReady_address w :
  walletReady w = true ->
  exists c t, isConnected w = true /\ walletAddress w = Some (c :: t).
Proof.
  unfold walletReady. destruct (isConnected w); [|discriminate].
  destruct (walletAddress w) as [[|c t]|]; try discriminate. eauto.
Qed.

(** The wallet calls of a run, by the outcome of the three checks. *)
Lemma handleMint_calls w st :
  snd (handleMint w st) =
  match contractOf st, walletAddress w with
  | Some contract, Some walletAddress =>
      if walletReady w
      then (if (chainId w =? polygon_id)%Z then [] else [SwitchChain polygon_id])
           ++ (if (chainId w =? polygon_id)%Z || switchChainResolves w
               then [WriteContract contract (js "mint") (mintAmount st)
                       (js "Collector") walletAddress
                       (pricePerNFT w * mintAmount st)%Z]
               else [])
      else []
  | _, _ => []
  end.
Proof.
  unfold handleMint, walletReady.
  destruct (isConnected w);
    destruct (walletAddress w) as [[|c t]|];
    destruct (contractOf st); try reflexivity.
  cbn [present truthy andb].
  destruct (chainId w =? polygon_id)%Z; [reflexivity|].
  now destruct (switchChainResolves w).
Qed.

(** X6. [handleMint] asks the wallet to switch to Polygon (chain 137)
    exactly when the wallet is ready, the project has a contract address
    and the chain of the render is another one; the request is the first
    wallet call of the run and the only one of its kind. The run does
    not learn what became of the request: awaiting it resolving, as with
    the wallet hook it does, the run raises [minting], announces the
    transaction and writes to the contract right after the request. *)
Theorem handleMint_switches_chain_first (w : Wallet) (st : ViewState) :
  existsb isSwitchChain (snd (handleMint w st))
  = walletReady w
    && match contractOf st with Some _ => true | None => false end
    && negb (chainId w =? polygon_id)%Z
  /\ (forall calls,
        snd (handleMint w st) = calls ->
        existsb isSwitchChain calls = true ->
        exists rest, calls = SwitchChain polygon_id :: rest
                     /\ existsb isSwitchChain rest = false)
  /\ (forall contract address,
        isConnected w = true -> walletAddress w = Some address ->
        truthy address = true -> contractOf st = Some contract ->
        (chainId w =? polygon_id)%Z = false -> switchChainResolves w = true ->
        handleMint w st
        = (setMessage initiatingMessage (setMinting true st),
           [SwitchChain polygon_id;
            WriteContract contract (js "mint") (mintAmount st) (js "Collector")
              address (pricePerNFT w * mintAmount st)%Z])).
Proof.
  split; [|split].
  - rewrite handleMint_calls. unfold walletReady, contractOf.
    destruct (project st) as [p|]; [|now rewrite andb_false_r].
    destruct (contractAddress p) as [[|a0 a]|];
      try (cbn; now rewrite andb_false_r).
    cbn [truthy].
    destruct (walletAddress w) as [[|c t]|];
      try (cbn; now rewrite ?andb_false_r).
    cbn [present truthy]. rewrite !andb_true_r.
    destruct (isConnected w); [|reflexivity].
    destruct (chainId w =? polygon_id)%Z; [reflexivity|].
    now destruct (switchChainResolves w).
  - intros calls <-. rewrite handleMint_calls.
    destruct (contractOf st); [|discriminate].
    destruct (walletAddress w); [|discriminate].
    destruct (walletReady w); [|discriminate].
    destruct (chainId w =? polygon_id)%Z; [discriminate|].
    intros _. cbn [orb app]. eexists. split; [reflexivity|].
    now destruct (switchChainResolves w).
  - intros contract address Hi Ha Ht Hc Hchain Hs.
    unfold handleMint. rewrite Hi, Ha.
    destruct address as [|c t]; [discriminate|].
    now rewrite Hc, Hchain, Hs.
Qed.

Lemma handleMint_switches_chain_first_witness :
  handleMint otherChainWallet mintThree
  = (setMessage initiatingMessage (setMinting true mintThree),
     [SwitchChain 137;
      WriteContract (js "0x00000000000000000000000000000000000000a1")
        (js "mint") 3 (js "Collector")
        (js "0x00000000000000000000000000000000000000b2")
        6000000000000000000]).
Proof.
  apply (proj2 (proj2 (handleMint_switches_chain_first otherChainWallet mintThree))
           (js "0x00000000000000000000000000000000000000a1")
           (js "0x00000000000000000000000000000000000000b2"));
    reflexivity.
Defined.

(** X7. Every contract write of [handleMint] goes to the contract address
    of the project, calls [mint] with the mint amount, the literal name
    "Collector" and the wallet address, and carries the unit price times
    the amount; a run makes at most one such write. *)
Theorem handleMint_write_shape (w : Wallet) (st : ViewState) :
  (forall address functionName amount name email value,
     In (WriteContract address functionName amount name email value)
        (snd (handleMint w st)) ->
     contractOf st = Some address
     /\ functionName = js "mint"
     /\ amount = mintAmount st
     /\ name = js "Collector"
     /\ walletAddress w = Some email
     /\ value = (pricePerNFT w * mintAmount st)%Z)
  /\ (List.length (filter isWriteContract (snd (handleMint w st))) <= 1)%nat.
Proof.
  rewrite handleMint_calls.
  destruct (contractOf st) as [contract|]; [|split; [intros ? ? ? ? ? ? []|auto]].
  destruct (walletAddress w) as [addr|]; [|split; [intros ? ? ? ? ? ? []|auto]].
  destruct (walletReady w); [|split; [intros ? ? ? ? ? ? []|auto]].
  destruct (chainId w =? polygon_id)%Z; cbn [orb app].
  - split; [|cbn; auto].
    intros a f n nm em v [H|[]]. inversion H. repeat split.
  - destruct (switchChainResolves w); cbn [app].
    + split; [|cbn; auto].
      intros a f n nm em v [H|[H|[]]]; [discriminate|].
      inversion H. repeat split.
    + split; [|cbn; auto].
      intros a f n nm em v [H|[]]. discriminate.
Qed.

Lemma handleMint_write_shape_witness :
  contractOf mintThree = Some (js "0x00000000000000000000000000000000000000a1")
  /\ js "mint" = js "mint" /\ 3%Z = mintAmount mintThree
  /\ js "Collector" = js "Collector"
  /\ walletAddress connectedWallet
     = Some (js "0x00000000000000000000000000000000000000b2")
  /\ 6000000000000000000%Z = (pricePerNFT connectedWallet * mintAmount mintThree)%Z.
Proof.
  apply (proj1 (handleMint_write_shape connectedWallet mintThree)).
  left. reflexivity.
Defined.

(** X8. [handleMint] raises the [minting] flag exactly when it submits a
    transaction (otherwise the flag is left as it was), and with the
    flag raised the mint button is disabled whatever the wallet and the
    receipt hooks report. *)
Theorem minting_flag_iff_submitted (w : Wallet) (st : ViewState) :
  (forall v, submitted (snd (handleMint w st)) = Some v ->
     minting (fst (handleMint w st)) = true
     /\ forall w' isConfirming p,
          isMintDisabled w' isConfirming (fst (handleMint w st)) p = true)
  /\ (submitted (snd (handleMint w st)) = None ->
      minting (fst (handleMint w st)) = minting st
      /\ mintAmount (fst (handleMint w st)) = mintAmount st).
Proof.
  unfold handleMint.
  destruct (isConnected w); [|split; [discriminate | split; reflexivity]].
  destruct (walletAddress w) as [[|c t]|];
    try (split; [discriminate | split; reflexivity]).
  destruct (contractOf st); [|split; [discriminate | split; reflexivity]].
  destruct (chainId w =? polygon_id)%Z; cbn [negb andb].
  - split; [|discriminate]. intros v _. split; reflexivity.
  - destruct (switchChainResolves w); cbn [negb].
    + split; [|discriminate]. intros v _. split; reflexivity.
    + split; [discriminate | split; reflexivity].
Qed.

Lemma minting_flag_iff_submitted_witness :
  minting (fst (handleMint connectedWallet mintThree)) = true
  /\ minting (fst (handleMint disconnectedWallet mintThree)) = false.
Proof.
  split.
  - apply (proj1 (minting_flag_iff_submitted connectedWallet mintThree)
             6000000000000000000%Z). reflexivity.
  - apply (proj2 (minting_flag_iff_submitted disconnectedWallet mintThree)).
    reflexivity.
Defined.
End MintCallFacts.

Section MintEffectFacts.
Import ProjectsApp MintEffects.

Lemma includes_nil s : includes s [] = true.
Proof. now destruct s. Qed.


(** X9. A write error always brings the flow back to idle: [minting] is
    lowered and the tracked hash dropped, the project and the amount are
    kept, and one of three error messages is raised. A message holding
    "User rejected" or "User denied" reads as a cancellation even when it
    also speaks of insufficient funds; one holding "balance" or
    "insufficient funds" (and no rejection) reads as insufficient funds. *)
Theorem onWriteContractError_resets (m : option jsstring) (st : ViewState) :
  let st' := onWriteContractError (Some m) st in
  minting st' = false /\ txHash st' = None
  /\ project st' = project st /\ mintAmount st' = mintAmount st
  /\ (message st' = Some cancelledMessage
      \/ message st' = Some insufficientFundsMessage
      \/ message st' = Some failedMessage)
  /\ (includes (errorMessageOf m) (js "User rejected")
      || includes (errorMessageOf m) (js "User denied") = true ->
      message st' = Some cancelledMessage)
  /\ (includes (errorMessageOf m) (js "User rejected")
      || includes (errorMessageOf m) (js "User denied") = false ->
      includes (errorMessageOf m) (js "balance")
      || includes (errorMessageOf m) (js "insufficient funds") = true ->
      message st' = Some insufficientFundsMessage).
Proof.
  cbv zeta. unfold onWriteContractError.
  destruct (includes (errorMessageOf m) (js "User rejected")
            || includes (errorMessageOf m) (js "User denied")).
  - repeat split; auto; discriminate.
  - destruct (includes (errorMessageOf m) (js "balance")
              || includes (errorMessageOf m) (js "insufficient funds")).
    + repeat split; auto; discriminate.
    + repeat split; auto; discriminate.
Qed.

Lemma onWriteContractError_resets_witness :
  message (onWriteContractError
             (Some (Some (js "User rejected the request: insufficient funds")))
             awaitingReceipt)
  = Some cancelledMessage.
Proof.
  apply (proj1 (proj2 (proj2 (proj2 (proj2 (proj2
    (onWriteContractError_resets
       (Some (js "User rejected the request: insufficient funds"))
       awaitingReceipt))))))).
  reflexivity.
Defined.


Section ConfirmationFacts.
Variable showNumber : Z -> jsstring.

(** X11. A confirmation is processed once: with a tracked hash the
    receipt lowers [minting], resets the amount to 1, drops the hash,
    announces the amount minted and asks for the project data again;
    without a tracked hash, and so on a second run, it changes nothing
    and asks for nothing. *)
Theorem onConfirmed_once (st : ViewState) :
  (present (txHash st) = true ->
     let done := onConfirmed showNumber true st in
     minting (fst done) = false /\ mintAmount (fst done) = 1%Z
     /\ txHash (fst done) = None
     /\ message (fst done) = Some (mintedMessage showNumber (mintAmount st))
     /\ snd done = [FetchProjectData]
     /\ forall again,
          onConfirmed showNumber again (fst done) = (fst done, []))
  /\ (present (txHash st) = false ->
      forall isConfirmed, onConfirmed showNumber isConfirmed st = (st, [])).
Proof.
  split.
  - intros H. cbv zeta.
    assert (E : onConfirmed showNumber true st
                = (setTxHash None
                     (setMintAmount 1
                        (setMessage (mintedMessage showNumber (mintAmount st))
                           (setMinting false st))),
                   [FetchProjectData]))
      by (unfold onConfirmed; now rewrite H).
    rewrite E. cbn [fst snd]. repeat split.
    intros again. unfold onConfirmed. cbn [txHash setTxHash present].
    now rewrite andb_false_r.
  - intros H isConfirmed. unfold onConfirmed. now rewrite H, andb_false_r.
Qed.

(** X12. The hash effect tracks a hash only while none is tracked: a
    held hash is never replaced, and running the effect again with any
    hash changes nothing. *)
Theorem onHash_tracks_first (hash : option jsstring) (st : ViewState) :
  (present (txHash st) = true -> onHash hash st = st)
  /\ (present (txHash st) = false -> present hash = true ->
      txHash (onHash hash st) = hash
      /\ message (onHash hash st) = Some submittedMessage
      /\ forall later, onHash later (onHash hash st) = onHash hash st).
Proof.
  unfold onHash. split.
  - intros H. now rewrite H, andb_false_r.
  - intros H Hh. rewrite H, Hh. cbn [andb negb]. repeat split.
    intros later. cbn [txHash setTxHash setMessage]. rewrite Hh.
    now rewrite andb_false_r.
Qed.

(** X13. The flow is not at rest after a confirmation: the confirmation
    drops the tracked hash, so the hash effect, run with the hash the
    write hook still holds, tracks that hash again and puts the
    "submitted" message over the success message. *)
Theorem confirmation_rearms_hash_effect (h : jsstring) (st : ViewState) :
  truthy h = true -> txHash st = Some h ->
  let confirmed := fst (onConfirmed showNumber true st) in
  txHash confirmed = None
  /\ txHash (onHash (Some h) confirmed) = Some h
  /\ message (onHash (Some h) confirmed) = Some submittedMessage
  /\ snd (onConfirmed showNumber true (onHash (Some h) confirmed))
     = [FetchProjectData].
Proof.
  intros Ht Hh. cbv zeta.
  assert (E : onConfirmed showNumber true st
              = (setTxHash None
                   (setMintAmount 1
                      (setMessage (mintedMessage showNumber (mintAmount st))
                         (setMinting false st))),
                 [FetchProjectData]))
    by (unfold onConfirmed; rewrite Hh; cbn [present]; now rewrite Ht).
  rewrite E. cbn [fst].
  unfold onHash. cbn [txHash setTxHash present]. rewrite Ht.
  cbn [andb negb]. unfold onConfirmed.
  cbn [txHash setTxHash setMessage present]. rewrite Ht. repeat split.
Qed.
End ConfirmationFacts.
End MintEffectFacts.

Lemma onConfirmed_once_witness :
  ProjectsApp.mintAmount (fst (MintEffects.onConfirmed MintEffects.decimal true
                     MintEffects.awaitingReceipt)) = 1%Z
  /\ MintEffects.onConfirmed MintEffects.decimal true ProjectsApp.mintThree
     = (ProjectsApp.mintThree, []).
Proof.
  split.
  - apply (proj1 (onConfirmed_once MintEffects.decimal MintEffects.awaitingReceipt)).
    reflexivity.
  - apply (proj2 (onConfirmed_once MintEffects.decimal ProjectsApp.mintThree)).
    reflexivity.
Defined.

Lemma onHash_tracks_first_witness :
  MintEffects.onHash (Some (js "0xdef")) MintEffects.awaitingReceipt
  = MintEffects.awaitingReceipt
  /\ ProjectsApp.txHash (MintEffects.onHash (Some (js "0xdef")) ProjectsApp.mintThree)
     = Some (js "0xdef").
Proof.
  split.
  - apply (proj1 (onHash_tracks_first (Some (js "0xdef")) MintEffects.awaitingReceipt)).
    reflexivity.
  - apply (proj2 (onHash_tracks_first (Some (js "0xdef")) ProjectsApp.mintThree));
      reflexivity.
Defined.

Lemma confirmation_rearms_hash_effect_witness :
  ProjectsApp.txHash
    (MintEffects.onHash (Some (js "0xabc"))
       (fst (MintEffects.onConfirmed MintEffects.decimal true
               MintEffects.awaitingReceipt)))
  = Some (js "0xabc").
Proof.
  apply (@confirmation_rearms_hash_effect MintEffects.decimal (js "0xabc")
           MintEffects.awaitingReceipt); reflexivity.
Defined.

(** ** The dashboard: inputs of the project form *)

Section FormInputFacts.
Import Home Dashboard.

(** X14. Typing in the project-name input withdraws the stored verdict
    on the name, so that the name-availability rule is no longer broken,
    and typing in the symbol input does the same for the symbol; every
    other input leaves both verdicts as they are. No input makes a
    request or raises a message. *)
Theorem handleInputChange_withdraws_verdict
    (parseInt parseFloat : jsstring -> float)
    (name : TextField) (value : jsstring) (st : State) :
  let r := handleInputChange name value st in
  formData (stateOf r) = setField name value (formData st)
  /\ logOf r = []
  /\ message (stateOf r) = message st
  /\ match name with
     | fProjectName =>
         verdict (projectNameAvailable (stateOf r)) = unknown
         /\ broken parseInt parseFloat (stateOf r) RNameAvailability = false
         /\ projectSymbolAvailable (stateOf r) = projectSymbolAvailable st
     | fProjectSymbol =>
         verdict (projectSymbolAvailable (stateOf r)) = unknown
         /\ broken parseInt parseFloat (stateOf r) RSymbolAvailability = false
         /\ projectNameAvailable (stateOf r) = projectNameAvailable st
     | _ =>
         projectNameAvailable (stateOf r) = projectNameAvailable st
         /\ projectSymbolAvailable (stateOf r) = projectSymbolAvailable st
     end.
Proof. destruct name; repeat split. Qed.

(** X15. [handleImageChange] takes a file exactly when its size is at
    most 10 MiB and its MIME type starts with [image/]: then the file
    becomes the image of the form and the message is cleared. Otherwise
    the form keeps what it had and an error is raised, the size error
    first. An empty selection changes nothing. *)
Theorem handleImageChange_limits (file : File) (st : State) :
  let r := handleImageChange (Some file) st in
  (size file <= 10485760 -> startsWith (js "image/") (mime file) = true ->
     image (formData (stateOf r)) = Some file
     /\ message (stateOf r) = None /\ errors (logOf r) = [])
  /\ (10485760 < size file ->
      formData (stateOf r) = formData st
      /\ errors (logOf r) = [js "Image size must be less than 10MB"])
  /\ (size file <= 10485760 -> startsWith (js "image/") (mime file) = false ->
      formData (stateOf r) = formData st
      /\ errors (logOf r) = [js "Please select a valid image file"])
  /\ handleImageChange None st = (tt, st, []).
Proof.
  cbv zeta. unfold handleImageChange.
  change maxImageSize with 10485760.
  destruct (N.ltb_spec 10485760 (size file)) as [Hbig|Hok].
  - split; [intros; lia|]. split; [intros _; split; reflexivity|].
    split; [intros; lia | reflexivity].
  - split; [|split; [intros; lia|split; [|reflexivity]]].
    + intros _ Hm. rewrite Hm. cbn [negb].
      destruct (dataURL file); repeat split.
    + intros _ Hm. rewrite Hm. split; reflexivity.
Qed.

Lemma handleImageChange_limits_witness :
  image (formData (stateOf (handleImageChange (Some artFile)
                              (dashboard emptyForm null null)))) = Some artFile
  /\ errors (logOf (handleImageChange (Some bigFile)
                      (dashboard emptyForm null null)))
     = [js "Image size must be less than 10MB"]
  /\ errors (logOf (handleImageChange (Some textFile)
                      (dashboard emptyForm null null)))
     = [js "Please select a valid image file"].
Proof.
  split; [|split].
  - apply (proj1 (handleImageChange_limits artFile (dashboard emptyForm null null)));
      [vm_compute; discriminate | reflexivity].
  - apply (proj1 (proj2 (handleImageChange_limits bigFile
                           (dashboard emptyForm null null)))).
    reflexivity.
  - apply (proj1 (proj2 (proj2 (handleImageChange_limits textFile
                                  (dashboard emptyForm null null)))));
      [vm_compute; discriminate | reflexivity].
Defined.
End FormInputFacts.

(** ** The availability checker: answers that arrive *)

Section AvailabilityAnswers.
Import Home Dashboard.
Variable net : Network.
Variable snap : State.

Lemma long_enough input :
  2 <= len (trim input) ->
  negb (truthy (trim input)) || (len (trim input) <? 2) = false.
Proof.
  intros H. apply orb_false_iff. split.
  - destruct (trim input); [unfold len in H; simpl in H; lia | reflexivity].
  - apply N.ltb_ge. exact H.
Qed.

(** X16. An answer to the name check whose body is a JSON object is
    stored as it stands, whatever the HTTP status; the check makes
    exactly one request, leaves the form as it is and the loading flag
    lowered. With a name in the field that is not blank, the indicator of
    the label then reads "Available" for [available: true], "Taken" for
    [available: false], and "Taken" as well for a body without the
    [available] key (an error body, say). With a blank field there is no
    indicator, whatever was stored. *)
Theorem checkProjectNameAvailability_answer
    (input aid : jsstring) (st : State) (ok : bool)
    (fields : list (jsstring * json)) :
  2 <= len (trim input) ->
  artistId snap = Some aid ->
  net (checkNameRequest input aid) = HttpResponse ok (Some (JObject fields)) ->
  let r := checkProjectNameAvailability net snap input st in
  projectNameAvailable (stateOf r) = lookupField (js "available") fields
  /\ formData (stateOf r) = formData st
  /\ requests (logOf r) = [checkNameRequest input aid]
  /\ checkingProjectName (stateOf r) = false
  /\ (truthy (trim (projectName (formData st))) = true ->
      (lookupField (js "available") fields = Some (JBool true) ->
       projectNameIndicator (stateOf r) = available)
      /\ (lookupField (js "available") fields = Some (JBool false) ->
          projectNameIndicator (stateOf r) = taken)
      /\ (lookupField (js "available") fields = None ->
          projectNameIndicator (stateOf r) = taken))
  /\ (truthy (trim (projectName (formData st))) = false ->
      projectNameIndicator (stateOf r) = unknown).
Proof.
  intros Hlen Ha Hnet. cbv zeta. unfold checkProjectNameAvailability.
  rewrite (long_enough input Hlen), Ha.
  cbn [bind fetch logOf stateOf fst snd setCheckingProjectName app].
  rewrite Hnet. cbn [getProp].
  split; [reflexivity|]. split; [reflexivity|].
  split; [reflexivity|]. split; [reflexivity|].
  unfold projectNameIndicator.
  cbn [setProjectNameAvailable projectNameAvailable formData fst snd].
  split.
  - intros Hname. rewrite Hname, !andb_true_r.
    split; [|split]; intros ->; reflexivity.
  - intros Hname. rewrite Hname, andb_false_r. reflexivity.
Qed.

(** X17. Without a logged-in artist id a name long enough to be checked
    is not checked: no request is made and the state, the stored verdict
    with it, stays as it was. *)
Theorem checkProjectNameAvailability_without_artist
    (input : jsstring) (st : State) :
  2 <= len (trim input) -> artistId snap = None ->
  checkProjectNameAvailability net snap input st = (tt, st, []).
Proof.
  intros Hlen Ha. unfold checkProjectNameAvailability.
  now rewrite (long_enough input Hlen), Ha.
Qed.
End AvailabilityAnswers.

Lemma checkProjectNameAvailability_answer_witness :
  Dashboard.projectNameIndicator
    (Home.stateOf
       (Home.checkProjectNameAvailability Dashboard.emptyBodies
          (Home.dashboard Home.goodForm null null) (js "My Art")
          (Home.dashboard Home.goodForm null null)))
  = Home.taken.
Proof.
  destruct (@checkProjectNameAvailability_answer Dashboard.emptyBodies
              (Home.dashboard Home.goodForm null null)
              (js "My Art") (js "artist-1")
              (Home.dashboard Home.goodForm null null) true []
              ltac:(vm_compute; discriminate) eq_refl eq_refl)
    as (_ & _ & _ & _ & H & _).
  destruct (H eq_refl) as (_ & _ & Hmissing).
  apply Hmissing. reflexivity.
Defined.

Lemma checkProjectNameAvailability_without_artist_witness :
  Home.checkProjectNameAvailability Home.offline Dashboard.loggedOut
    (js "My Art") Dashboard.loggedOut
  = (tt, Dashboard.loggedOut, []).
Proof.
  apply (@checkProjectNameAvailability_without_artist Home.offline
           Dashboard.loggedOut (js "My Art") Dashboard.loggedOut);
    [vm_compute; discriminate | reflexivity].
Defined.

(** ** The dashboard: what a submission leaves behind *)

Section SubmitFacts.
Import Home Dashboard.
Context {host : CaseMapping}.
Variable parseInt : jsstring -> float.
Variable parseFloat : jsstring -> float.
Variable net : Network.

Lemma sameForm_refl st : sameForm st st.
Proof. repeat split. Qed.

Lemma sameForm_trans a b c : sameForm a b -> sameForm b c -> sameForm a c.
Proof.
  intros (H1 & H2 & H3 & H4) (K1 & K2 & K3 & K4).
  repeat split; congruence.
Qed.

Lemma sameForm_bind {A B : Type} (m : Act A) (k : A -> Act B) st :
  sameForm st (stateOf (m st)) ->
  (forall a st', sameForm st' (stateOf (k a st'))) ->
  sameForm st (stateOf (bind m k st)).
Proof.
  intros Hm Hk.
  change (stateOf (bind m k st))
    with (stateOf (k (valueOf (m st)) (stateOf (m st)))).
  eapply sameForm_trans; [exact Hm | apply Hk].
Qed.

Lemma sameForm_checkName snap input st :
  sameForm st (stateOf (checkProjectNameAvailability net snap input st)).
Proof.
  unfold checkProjectNameAvailability, sameForm.
  destruct (negb (truthy (trim input)) || (len (trim input) <? 2));
    [repeat split; reflexivity|].
  destruct (artistId snap) as [aid|]; [|repeat split; reflexivity].
  cbn [bind fetch stateOf fst snd setCheckingProjectName].
  destruct (net (checkNameRequest input aid)) as [|ok [result|]];
    [ repeat split; reflexivity
    | destruct (getProp result (js "available")); repeat split; reflexivity
    | repeat split; reflexivity ].
Qed.

Lemma sameForm_checkSymbol snap input st :
  sameForm st (stateOf (checkProjectSymbolAvailability net snap input st)).
Proof.
  unfold checkProjectSymbolAvailability, sameForm.
  destruct (negb (truthy (trim input)) || (len (trim input) <? 1));
    [repeat split; reflexivity|].
  destruct (artistId snap) as [aid|]; [|repeat split; reflexivity].
  cbn [bind fetch stateOf fst snd setCheckingProjectSymbol].
  destruct (net (checkSymbolRequest input aid)) as [|ok [result|]];
    [ repeat split; reflexivity
    | destruct (getProp result (js "available")); repeat split; reflexivity
    | repeat split; reflexivity ].
Qed.

Lemma sameForm_setMessage m st : sameForm st (stateOf (setMessage m st)).
Proof. repeat split. Qed.

Lemma sameForm_fail t st : sameForm st (stateOf (fail t st)).
Proof. repeat split. Qed.

Ltac same_form :=
  repeat first
    [ apply sameForm_fail
    | apply sameForm_setMessage
    | apply sameForm_checkName
    | apply sameForm_checkSymbol
    | apply sameForm_refl
    | (apply sameForm_bind; [|intros ? ?]) ].

(** Validation changes messages, verdicts and loading flags only. *)
Lemma sameForm_validateForm snap st :
  sameForm st (stateOf (validateForm parseInt parseFloat net snap st)).
Proof.
  unfold validateForm. cbv zeta.
  destruct (negb (truthy (trim (projectName (formData snap))))); [same_form|].
  destruct (negb (truthy (trim (projectSymbol (formData snap))))); [same_form|].
  destruct (10 <? len (projectSymbol (formData snap))); [same_form|].
  destruct (isFalse (projectNameAvailable snap)); [same_form|].
  destruct (isFalse (projectSymbolAvailable snap)); [same_form|].
  destruct (negb (truthy (totalSupply (formData snap)))
            || PrimFloat.ltb (parseInt (totalSupply (formData snap))) 1);
    [same_form|].
  destruct (negb (truthy (mintPrice (formData snap)))
            || PrimFloat.ltb (parseFloat (mintPrice (formData snap))) 0);
    [same_form|].
  destruct (negb (truthy (royalties (formData snap)))
            || PrimFloat.ltb (parseFloat (royalties (formData snap))) 0);
    [same_form|].
  destruct (PrimFloat.ltb 100 (parseFloat (royalties (formData snap))));
    [same_form|].
  destruct (negb (truthy (trim (contractOwner (formData snap)))));
    [same_form|].
  destruct (negb (ethAddressRegex (trim (contractOwner (formData snap)))));
    [same_form|].
  destruct (image (formData snap)); same_form.
Qed.

(** X18. A submission never leaves the form locked: started with
    [submitting] lowered, [handleSubmit] ends with it lowered, whatever
    the form, the session and the network do. *)
Theorem handleSubmit_releases_the_form (snap st : State) :
  submitting st = false ->
  submitting (stateOf (handleSubmit parseInt parseFloat net snap st)) = false.
Proof.
  intros Hs. unfold handleSubmit.
  change (stateOf (bind ?m ?k st)) with (stateOf (k (valueOf (m st)) (stateOf (m st)))).
  destruct (sameForm_validateForm snap st) as (_ & _ & Hsub & _).
  destruct (valueOf (validateForm parseInt parseFloat net snap st)); cbn [negb].
  - destruct (artistId snap) as [aid|].
    + reflexivity.
    + cbn [setMessage stateOf fst snd submitting]. now rewrite <- Hsub.
  - cbn [ret stateOf fst snd]. now rewrite <- Hsub.
Qed.
End SubmitFacts.

Lemma handleSubmit_releases_the_form_witness :
  Home.submitting
    (Home.stateOf
       (@Home.handleSubmit basicLatin Home.parseIntSamples
          Home.parseFloatSamples Dashboard.duplicateName
          (Home.dashboard Home.goodForm null null)
          (Home.dashboard Home.goodForm null null)))
  = false.
Proof.
  apply (@handleSubmit_releases_the_form basicLatin). reflexivity.
Defined.

Section SubmitOutcomes.
Import Home Dashboard.
Context {host : CaseMapping}.
Variable parseInt : jsstring -> float.
Variable parseFloat : jsstring -> float.
Variable net : Network.

Lemma requests_app l1 l2 : requests (l1 ++ l2) = requests l1 ++ requests l2.
Proof. unfold requests. apply flat_map_app. Qed.

Lemma bind_run {A B : Type} (m : Act A) (k : A -> Act B) st :
  bind m k st
  = (valueOf (k (valueOf (m st)) (stateOf (m st))),
     stateOf (k (valueOf (m st)) (stateOf (m st))),
     logOf (m st) ++ logOf (k (valueOf (m st)) (stateOf (m st)))).
Proof. reflexivity. Qed.

(** X19. A submission the backend accepts (validation passed, artist
    logged in, image read, response ok with a JSON body) empties the
    form, withdraws both verdicts and the preview, announces the creation,
    lowers [submitting], and asks for the artist's projects again, right
    after the one create-project request. *)
Theorem handleSubmit_accepted
    (snap st : State) (aid data : jsstring) (file : File) (body : json) :
  firstBroken parseInt parseFloat snap = None ->
  artistId snap = Some aid ->
  image (formData snap) = Some file -> dataURL file = Some data ->
  net (createProjectRequest parseInt parseFloat snap aid data)
  = HttpResponse true (Some body) ->
  let r := handleSubmit parseInt parseFloat net snap st in
  formData (stateOf r) = emptyForm
  /\ projectNameAvailable (stateOf r) = null
  /\ projectSymbolAvailable (stateOf r) = null
  /\ previewUrl (stateOf r) = None
  /\ message (stateOf r) = Some createdMessage
  /\ submitting (stateOf r) = false
  /\ requests (logOf r)
     = requests (logOf (validateForm parseInt parseFloat net snap st))
       ++ [createProjectRequest parseInt parseFloat snap aid data;
           userProjectsRequest aid].
Proof.
  intros Hb Ha Hi Hd Hnet. cbv zeta.
  pose proof (validateForm_first_broken parseInt parseFloat net snap st) as H.
  rewrite Hb in H. destruct H as [Hv _].
  unfold handleSubmit.
  rewrite (bind_run (validateForm parseInt parseFloat net snap)).
  rewrite Hv, Ha, Hi. destruct file as [sz mm du]. simpl in Hd. subst du.
  cbn [negb].
  generalize (stateOf (validateForm parseInt parseFloat net snap st)) as v.
  generalize (logOf (validateForm parseInt parseFloat net snap st)) as l.
  intros l v.
  cbn [bind setSubmitting setMessage fetch fst snd stateOf logOf valueOf].
  rewrite Hnet.
  cbn [bind setSubmitting setMessage setFormData setProjectNameAvailable
       setProjectSymbolAvailable setPreviewUrl fetch ret fst snd stateOf logOf
       formData projectNameAvailable projectSymbolAvailable previewUrl
       message submitting].
  do 6 (split; [reflexivity|]).
  rewrite requests_app. reflexivity.
Qed.

(** The first three rules read the form only. *)
Lemma firstBroken_name_taken (a b : State) :
  firstBroken parseInt parseFloat a = None ->
  formData b = formData a ->
  projectNameAvailable b = Some (JBool false) ->
  firstBroken parseInt parseFloat b = Some RNameAvailability.
Proof.
  unfold firstBroken, priority. cbn beta iota zeta delta [find broken].
  intros Ha Hf Hn. rewrite Hf, Hn.
  destruct (negb (truthy (trim (projectName (formData a))))); [discriminate|].
  destruct (negb (truthy (trim (projectSymbol (formData a))))); [discriminate|].
  destruct (10 <? len (projectSymbol (formData a))); [discriminate|].
  reflexivity.
Qed.

(** X20. When the backend refuses a valid submission with an error text
    that holds "already exists" and "project name", the text is shown,
    the form keeps its fields, and the name is marked as taken: the next
    validation of the same form stops at the name-availability rule. *)
Theorem handleSubmit_duplicate_name
    (st : State) (aid data e : jsstring) (file : File) (result : json) :
  firstBroken parseInt parseFloat st = None ->
  artistId st = Some aid ->
  image (formData st) = Some file -> dataURL file = Some data ->
  net (createProjectRequest parseInt parseFloat st aid data)
  = HttpResponse false (Some result) ->
  errorText result = Some (Some e) ->
  includes e (js "already exists") = true ->
  includes e (js "project name") = true ->
  let r := run (handleSubmit parseInt parseFloat net) st in
  message (stateOf r) = Some {| text := e; type := error |}
  /\ formData (stateOf r) = formData st
  /\ projectNameAvailable (stateOf r) = Some (JBool false)
  /\ submitting (stateOf r) = false
  /\ firstBroken parseInt parseFloat (stateOf r) = Some RNameAvailability.
Proof.
  intros Hb Ha Hi Hd Hnet He Hx Hn. cbv zeta. unfold run.
  pose proof (validateForm_first_broken parseInt parseFloat net st st) as H.
  rewrite Hb in H. destruct H as [Hv _].
  destruct (sameForm_validateForm parseInt parseFloat net st st) as (Hf & _).
  assert (E : message (stateOf (handleSubmit parseInt parseFloat net st st))
              = Some {| text := e; type := error |}
              /\ formData (stateOf (handleSubmit parseInt parseFloat net st st))
                 = formData (stateOf (validateForm parseInt parseFloat net st st))
              /\ projectNameAvailable
                   (stateOf (handleSubmit parseInt parseFloat net st st))
                 = Some (JBool false)
              /\ submitting (stateOf (handleSubmit parseInt parseFloat net st st))
                 = false).
  { unfold handleSubmit.
    rewrite (bind_run (validateForm parseInt parseFloat net st)).
    rewrite Hv, Ha, Hi. destruct file as [sz mm du]. simpl in Hd. subst du.
    cbn [negb].
    generalize (stateOf (validateForm parseInt parseFloat net st st)) as v.
    generalize (logOf (validateForm parseInt parseFloat net st st)) as l.
    intros l v.
    cbn [bind setSubmitting setMessage fetch fst snd stateOf logOf valueOf].
    rewrite Hnet, He.
    cbn [bind setMessage fst snd stateOf]. rewrite Hx, Hn.
    repeat split. }
  destruct E as (E1 & E2 & E3 & E4).
  split; [exact E1|]. split; [now rewrite E2|].
  split; [exact E3|]. split; [exact E4|].
  apply (firstBroken_name_taken st); [exact Hb | now rewrite E2 | exact E3].
Qed.
End SubmitOutcomes.

Lemma handleSubmit_accepted_witness :
  Home.formData
    (Home.stateOf
       (@Home.handleSubmit basicLatin Home.parseIntSamples
          Home.parseFloatSamples Dashboard.emptyBodies
          (Home.dashboard Home.goodForm null null)
          (Home.dashboard Home.goodForm null null)))
  = Home.emptyForm.
Proof.
  apply (@handleSubmit_accepted basicLatin Home.parseIntSamples
           Home.parseFloatSamples Dashboard.emptyBodies
           (Home.dashboard Home.goodForm null null)
           (Home.dashboard Home.goodForm null null)
           (js "artist-1") (js "data:image/png;base64,iVBORw0KGgo=")
           Home.artFile (JObject []));
    reflexivity.
Defined.

Lemma handleSubmit_duplicate_name_witness :
  Home.firstBroken Home.parseIntSamples Home.parseFloatSamples
    (Home.stateOf
       (Home.run (@Home.handleSubmit basicLatin Home.parseIntSamples
                    Home.parseFloatSamples Dashboard.duplicateName)
          (Home.dashboard Home.goodForm null null)))
  = Some Home.RNameAvailability.
Proof.
  apply (@handleSubmit_duplicate_name basicLatin Home.parseIntSamples
           Home.parseFloatSamples Dashboard.duplicateName
           (Home.dashboard Home.goodForm null null)
           (js "artist-1") (js "data:image/png;base64,iVBORw0KGgo=")
           (js "A project name already exists for this artist")
           Home.artFile
           (JObject [(js "error",
                      JString (js "A project name already exists for this artist"))]));
    reflexivity.
Defined.

(** ** The dashboard: tabs and pages of the project list *)

Lemma jsstring_eqb_eq a b : jsstring_eqb a b = true <-> a = b.
Proof.
  revert b. induction a as [|x a IH]; intros [|y b]; simpl;
    try (split; [discriminate | discriminate]); [split; reflexivity|].
  rewrite andb_true_iff, N.eqb_eq, IH. split.
  - intros [-> ->]. reflexivity.
  - intros H. inversion H. split; reflexivity.
Qed.

Lemma firstn_beyond {A : Type} (n m : nat) (l : list A) :
  (List.length l <= n)%nat -> (List.length l <= m)%nat -> firstn n l = firstn m l.
Proof. intros Hn Hm. now rewrite !firstn_all2. Qed.

(** [slice] between two non-negative indices in order. *)
Lemma slice_nonneg {A : Type} (a b : Z) (l : list A) :
  (0 <= a <= b)%Z ->
  ProjectList.slice a b l = firstn (Z.to_nat (b - a)) (skipn (Z.to_nat a) l).
Proof.
  intros H. unfold ProjectList.slice. cbv zeta.
  destruct (Z.ltb_spec a 0); [lia|]. destruct (Z.ltb_spec b 0); [lia|].
  destruct (Z_lt_le_dec a (Z.of_nat (List.length l))) as [Hlt|Hge].
  - rewrite (Z.min_l a) by lia.
    destruct (Z_le_gt_dec b (Z.of_nat (List.length l))) as [Hb|Hb].
    + now rewrite (Z.min_l b) by lia.
    + rewrite (Z.min_r b) by lia.
      apply firstn_beyond; rewrite length_skipn; lia.
  - rewrite (Z.min_r a) by lia.
    rewrite !skipn_all2 by lia. now rewrite !firstn_nil.
Qed.

Lemma chunks_cover {A : Type} (n : nat) (T : nat) (l : list A) :
  (List.length l <= n * T)%nat ->
  flat_map (fun k => firstn n (skipn (n * k) l)) (seq 0 T) = l.
Proof.
  revert l. induction T as [|T IH]; intros l H.
  - destruct l; [reflexivity | simpl in H; lia].
  - cbn [seq flat_map]. rewrite Nat.mul_0_r. cbn [skipn].
    rewrite <- seq_shift, flat_map_concat_map, map_map, <- flat_map_concat_map.
    etransitivity; [|apply (firstn_skipn n l)]. f_equal.
    etransitivity; [|apply (IH (skipn n l)); rewrite length_skipn; lia].
    apply flat_map_ext. intros k. rewrite skipn_skipn. do 2 f_equal. lia.
Qed.

Section ProjectListFacts.
Import ProjectList.

Lemma pageAt_chunk st (k : nat) :
  pageAt st (Z.of_nat k + 1) = firstn 6 (skipn (6 * k) (filteredProjects st)).
Proof.
  unfold pageAt, currentProjects, indexOfFirstProject, indexOfLastProject,
    projectsPerPage.
  change (filteredProjects (setCurrentPage (Z.of_nat k + 1) st))
    with (filteredProjects st).
  cbn [currentPage setCurrentPage].
  rewrite slice_nonneg by lia.
  replace (Z.to_nat ((Z.of_nat k + 1) * 6 - ((Z.of_nat k + 1) * 6 - 6)))
    with 6%nat by lia.
  replace (Z.to_nat ((Z.of_nat k + 1) * 6 - 6)) with (6 * k)%nat by lia.
  reflexivity.
Qed.

Lemma totalPages_covers st :
  (Z.of_nat (List.length (filteredProjects st)) <= 6 * totalPages st)%Z
  /\ (6 * (totalPages st - 1) < Z.of_nat (List.length (filteredProjects st))
      \/ totalPages st = 0)%Z
  /\ (0 <= totalPages st)%Z.
Proof.
  unfold totalPages, projectsPerPage.
  pose proof (Z.div_mod (Z.of_nat (List.length (filteredProjects st)) + 6 - 1) 6
                ltac:(lia)) as Hd.
  pose proof (Z.mod_pos_bound
                (Z.of_nat (List.length (filteredProjects st)) + 6 - 1) 6
                ltac:(lia)) as Hm.
  lia.
Qed.

(** X21. The pages 1 to [totalPages] cover the filtered list: put one
    after the other they give the list back, every project once and in
    its order. *)
Theorem pages_cover_the_list (st : ListState) :
  flat_map (fun k => pageAt st (Z.of_nat k))
           (seq 1 (Z.to_nat (totalPages st)))
  = filteredProjects st.
Proof.
  rewrite <- seq_shift, flat_map_concat_map, map_map, <- flat_map_concat_map.
  etransitivity;
    [|apply (chunks_cover 6 (Z.to_nat (totalPages st)) (filteredProjects st));
      destruct (totalPages_covers st) as (H & _ & H0); lia].
  apply flat_map_ext. intros k.
  rewrite <- pageAt_chunk. f_equal. lia.
Qed.

(** X22. Every page from 1 to [totalPages] shows between one and six
    projects, as many as the line "Showing a-b of n" counts; a page
    after the last one is empty. *)
Theorem page_sizes (st : ListState) (k : Z) :
  ((1 <= k <= totalPages st)%Z ->
     (1 <= List.length (pageAt st k) <= 6)%nat
     /\ Z.of_nat (List.length (pageAt st k))
        = (showingTo (setCurrentPage k st) - showingFrom (setCurrentPage k st) + 1)%Z)
  /\ ((totalPages st < k)%Z -> pageAt st k = []).
Proof.
  destruct (totalPages_covers st) as (Hup & Hlow & H0).
  assert (Hk : forall j : nat, k = (Z.of_nat j + 1)%Z ->
               List.length (pageAt st k)
               = Nat.min 6 (List.length (filteredProjects st) - 6 * j)).
  { intros j ->. rewrite pageAt_chunk, length_firstn, length_skipn.
    reflexivity. }
  split.
  - intros Hr. specialize (Hk (Z.to_nat (k - 1)) ltac:(lia)).
    unfold showingTo, showingFrom, indexOfFirstProject, indexOfLastProject,
      projectsPerPage.
    change (filteredProjects (setCurrentPage k st)) with (filteredProjects st).
    cbn [currentPage setCurrentPage]. rewrite Hk. lia.
  - intros Hr.
    assert (1 <= k)%Z by lia.
    specialize (Hk (Z.to_nat (k - 1)) ltac:(lia)).
    apply length_zero_iff_nil. rewrite Hk. lia.
Qed.

Lemma totalPages_setCurrentPage n st :
  totalPages (setCurrentPage n st) = totalPages st.
Proof. reflexivity. Qed.

(** X23. Navigation keeps the page in range: from a page between 1 and
    [totalPages] (page 1 for an empty list), next, previous, a page
    button and a tab lead to such a page again; "next" on the last page
    and "previous" on the first change nothing. *)
Theorem navigation_stays_in_range (st : ListState) :
  pageInRange st ->
  pageInRange (nextPage st)
  /\ pageInRange (prevPage st)
  /\ (forall tab, pageInRange (selectTab tab st))
  /\ (forall n, (1 <= n <= totalPages st)%Z -> pageInRange (paginate n st))
  /\ (currentPage st = totalPages st -> nextPage st = st)
  /\ (currentPage st = 1%Z -> prevPage st = st).
Proof.
  unfold pageInRange. intros H.
  split; [|split; [|split; [|split; [|split]]]].
  - unfold nextPage. destruct (Z.ltb_spec (currentPage st) (totalPages st));
      [|exact H].
    rewrite totalPages_setCurrentPage. cbn [currentPage setCurrentPage]. lia.
  - unfold prevPage. destruct (Z.ltb_spec 1 (currentPage st)); [|exact H].
    rewrite totalPages_setCurrentPage. cbn [currentPage setCurrentPage]. lia.
  - intros tab. unfold selectTab.
    destruct (jsstring_eqb tab (activeTab st)); [exact H|].
    cbn [currentPage]. lia.
  - intros n Hn. unfold paginate. rewrite totalPages_setCurrentPage.
    cbn [currentPage setCurrentPage]. lia.
  - intros E. unfold nextPage. rewrite E, Z.ltb_irrefl. reflexivity.
  - intros E. unfold prevPage. rewrite E. reflexivity.
Qed.

(** X24. The tab [approved] lists the approved projects and [pending]
    the pending ones, each in the order of the full list; every other
    tab value lists all projects. A rejected project is therefore listed
    under no tab but [all]. *)
Theorem tabs_filter_by_status (st : ListState) :
  (activeTab st = js "approved" ->
     filteredProjects st = filter isApproved (userProjects st))
  /\ (activeTab st = js "pending" ->
      filteredProjects st = filter isPending (userProjects st))
  /\ (activeTab st <> js "approved" -> activeTab st <> js "pending" ->
      filteredProjects st = userProjects st)
  /\ (forall p, In p (filteredProjects st) -> isRejected p = true ->
      activeTab st <> js "approved" /\ activeTab st <> js "pending").
Proof.
  unfold filteredProjects.
  split; [|split; [|split]].
  - intros ->. reflexivity.
  - intros ->. reflexivity.
  - intros Ha Hp.
    assert (Ea : jsstring_eqb (activeTab st) (js "approved") = false)
      by (apply not_true_is_false; now rewrite jsstring_eqb_eq).
    assert (Ep : jsstring_eqb (activeTab st) (js "pending") = false)
      by (apply not_true_is_false; now rewrite jsstring_eqb_eq).
    rewrite Ea, Ep.
    induction (userProjects st) as [|p l IH]; [reflexivity|].
    cbn [filter]. destruct (jsstring_eqb (activeTab st) (js "all"));
      now rewrite IH.
  - intros p Hin Hr. apply filter_In in Hin. destruct Hin as [_ Hf].
    unfold isRejected in Hr. unfold isApproved, isPending in Hf.
    split; intros E; rewrite E in Hf; cbn in Hf;
      destruct (status p); discriminate.
Qed.
End ProjectListFacts.

Lemma page_sizes_witness :
  (1 <= List.length (ProjectList.pageAt ProjectList.sevenProjects 2) <= 6)%nat
  /\ ProjectList.pageAt ProjectList.sevenProjects 3 = [].
Proof.
  split.
  - apply (proj1 (page_sizes ProjectList.sevenProjects 2)). vm_compute.
    split; discriminate.
  - apply (proj2 (page_sizes ProjectList.sevenProjects 3)). reflexivity.
Defined.

Lemma navigation_stays_in_range_witness :
  ProjectList.pageInRange (ProjectList.nextPage ProjectList.sevenProjects)
  /\ ProjectList.pageInRange
       (ProjectList.selectTab (js "approved") ProjectList.sevenProjects).
Proof.
  assert (H : ProjectList.pageInRange ProjectList.sevenProjects)
    by (vm_compute; split; discriminate).
  destruct (@navigation_stays_in_range ProjectList.sevenProjects H)
    as (Hn & _ & Ht & _).
  split; [exact Hn | apply Ht].
Defined.

Lemma tabs_filter_by_status_witness :
  ProjectList.filteredProjects
    (ProjectList.selectTab (js "approved") ProjectList.sevenProjects)
  = filter ProjectList.isApproved
      (ProjectList.userProjects ProjectList.sevenProjects).
Proof.
  apply (proj1 (tabs_filter_by_status
                  (ProjectList.selectTab (js "approved") ProjectList.sevenProjects))).
  reflexivity.
Defined.

(** ** The validators of the login form *)

Section LoginValidatorFacts.
Import Home.

(** X25. [validateName] accepts exactly the names of 2 to 30 code units;
    the empty name is "required", a longer one "must be 30 characters or
    less", a name of one code unit "must be at least 2 characters". *)
Theorem validateName_accepts_2_to_30 (name : jsstring) :
  (validateName name = [] <-> 2 <= len name <= 30)
  /\ (len name = 0 -> validateName name = js "Name is required")
  /\ (30 < len name -> validateName name = js "Name must be 30 characters or less")
  /\ (len name = 1 -> validateName name = js "Name must be at least 2 characters").
Proof.
  unfold validateName.
  destruct name as [|c t].
  - cbn [truthy negb]. unfold len. cbn [List.length].
    repeat split; try discriminate; try lia.
  - cbn [truthy negb].
    assert (Hpos : 1 <= len (c :: t)) by (unfold len; cbn [List.length]; lia).
    destruct (N.ltb_spec 30 (len (c :: t))) as [H30|H30].
    + repeat split; try discriminate; try lia.
    + destruct (N.ltb_spec (len (c :: t)) 2) as [H2|H2].
      * repeat split; try discriminate; try lia.
      * repeat split; try discriminate; try lia.
Qed.

(** X26. [validatePassword] accepts exactly the passwords of at least 6
    code units, and tells the empty password ("required") from a short
    one ("at least 6 characters"). *)
Theorem validatePassword_accepts_6_or_more (password : jsstring) :
  (validatePassword password = [] <-> 6 <= len password)
  /\ (len password = 0 -> validatePassword password = js "Password is required")
  /\ (1 <= len password < 6 ->
      validatePassword password = js "Password must be at least 6 characters").
Proof.
  unfold validatePassword.
  destruct password as [|c t].
  - cbn [truthy negb]. unfold len. cbn [List.length].
    repeat split; try discriminate; try lia.
  - cbn [truthy negb].
    assert (Hpos : 1 <= len (c :: t)) by (unfold len; cbn [List.length]; lia).
    destruct (N.ltb_spec (len (c :: t)) 6) as [H6|H6].
    + repeat split; try discriminate; try lia.
    + repeat split; try discriminate; try lia.
Qed.
End LoginValidatorFacts.

Lemma validateName_accepts_2_to_30_witness :
  Home.validateName (js "Jo") = []
  /\ Home.validateName (js "J") = js "Name must be at least 2 characters".
Proof.
  split.
  - apply (proj1 (validateName_accepts_2_to_30 (js "Jo"))).
    vm_compute. split; discriminate.
  - apply (proj2 (proj2 (proj2 (validateName_accepts_2_to_30 (js "J"))))).
    reflexivity.
Defined.

Lemma validatePassword_accepts_6_or_more_witness :
  Home.validatePassword (js "secret") = []
  /\ Home.validatePassword (js "abc") = js "Password must be at least 6 characters".
Proof.
  split.
  - apply (proj1 (validatePassword_accepts_6_or_more (js "secret"))).
    vm_compute. discriminate.
  - apply (proj2 (proj2 (validatePassword_accepts_6_or_more (js "abc")))).
    change (len (js "abc")) with 3. lia.
Defined.

(** ** Regular expressions: the matcher against the strings of a pattern *)

Lemma nullable_matches r : nullable r = true <-> matches r [].
Proof.
  split.
  - induction r; simpl; intros H; try discriminate.
    + constructor.
    + apply andb_true_iff in H. destruct H as [H1 H2].
      change (@nil N) with (@nil N ++ []). constructor; auto.
    + apply orb_true_iff in H. destruct H as [H|H].
      * apply MAltL; auto.
      * apply MAltR; auto.
    + constructor.
  - assert (G : forall r0 w, matches r0 w -> w = [] -> nullable r0 = true).
    { intros r0 w H0. induction H0; intros E; simpl; try reflexivity.
      - discriminate.
      - apply app_eq_nil in E. destruct E as [Eu Ev].
        now rewrite (IHmatches1 Eu), (IHmatches2 Ev).
      - now rewrite (IHmatches E).
      - rewrite (IHmatches E). apply orb_true_r. }
    intros H. exact (G r [] H eq_refl).
Qed.

(** A non-empty repetition starts with a non-empty piece. *)
Lemma star_cons r c w :
  matches (Star r) (c :: w) ->
  exists u v, w = u ++ v /\ matches r (c :: u) /\ matches (Star r) v.
Proof.
  assert (G : forall sr cw, matches sr cw -> sr = Star r -> cw = c :: w ->
              exists u v, w = u ++ v /\ matches r (c :: u) /\ matches (Star r) v).
  { intros sr cw H. revert w.
    induction H; intros w' Er Ew; try discriminate.
    inversion Er; subst r0.
    destruct u as [|x u].
    - simpl in Ew. exact (IHmatches2 w' eq_refl Ew).
    - simpl in Ew. inversion Ew; subst. eauto. }
  intros H. exact (G _ _ H eq_refl eq_refl).
Qed.

Lemma matches_void w : matches Void w <-> False.
Proof. split; intros H; inversion H. Qed.

Lemma matches_eps w : matches Eps w <-> w = [].
Proof.
  split; intros H; [now inversion H | subst; constructor].
Qed.

Lemma matches_char (q : N -> bool) s :
  matches (Cls q) s <-> exists c, s = [c] /\ q c = true.
Proof.
  split.
  - intros H. inversion H; subst. eauto.
  - intros (c & -> & H). now constructor.
Qed.

Lemma matches_cat r1 r2 s :
  matches (Cat r1 r2) s <-> exists u v, s = u ++ v /\ matches r1 u /\ matches r2 v.
Proof.
  split.
  - intros H. inversion H; subst. eauto.
  - intros (u & v & -> & Hu & Hv). now constructor.
Qed.

Lemma matches_alt r1 r2 s :
  matches (Alt r1 r2) s <-> matches r1 s \/ matches r2 s.
Proof.
  split.
  - intros H. inversion H; subst; auto.
  - intros [H|H]; [now apply MAltL | now apply MAltR].
Qed.

Lemma deriv_matches c r w : matches (deriv c r) w <-> matches r (c :: w).
Proof.
  revert w. induction r as [| |p|r1 IH1 r2 IH2|r1 IH1 r2 IH2|r IH]; intros w; simpl.
  - rewrite !matches_void. reflexivity.
  - rewrite matches_void, matches_eps. split; [contradiction | discriminate].
  - rewrite matches_char. destruct (p c) eqn:E.
    + rewrite matches_eps. split.
      * intros ->. eauto.
      * intros (d & Hd & _). now inversion Hd.
    + rewrite matches_void. split; [contradiction|].
      intros (d & Hd & Hp). inversion Hd; subst. congruence.
  - assert (Hcat : matches (Cat (deriv c r1) r2) w
                   <-> exists u v, c :: w = (c :: u) ++ v
                                   /\ matches r1 (c :: u) /\ matches r2 v).
    { rewrite matches_cat. split.
      - intros (u & v & -> & H1 & H2). exists u, v. rewrite <- IH1. auto.
      - intros (u & v & E & H1 & H2). inversion E; subst.
        exists u, v. rewrite IH1. auto. }
    rewrite (matches_cat r1 r2 (c :: w)).
    destruct (nullable r1) eqn:En.
    + rewrite matches_alt, Hcat, IH2. split.
      * intros [(u & v & E & H1 & H2)|H]; [eauto|].
        exists [], (c :: w). split; [reflexivity|].
        split; [now apply nullable_matches | exact H].
      * intros (u & v & E & H1 & H2). destruct u as [|x u].
        -- simpl in E. subst v. now right.
        -- inversion E; subst. left. eauto.
    + rewrite Hcat. split.
      * intros (u & v & E & H1 & H2). eauto.
      * intros (u & v & E & H1 & H2). destruct u as [|x u].
        -- apply nullable_matches in H1. congruence.
        -- inversion E; subst. eauto.
  - rewrite !matches_alt, IH1, IH2. reflexivity.
  - rewrite matches_cat. split.
    + intros (u & v & -> & H1 & H2).
      change (c :: u ++ v) with ((c :: u) ++ v).
      constructor; [now apply IH | assumption].
    + intros H. apply star_cons in H. destruct H as (u & v & -> & Hu & Hv).
      exists u, v. rewrite IH. auto.
Qed.

(** The matcher decides the strings of the pattern. *)
Lemma test_matches r s : test r s = true <-> matches r s.
Proof.
  unfold test. revert r. induction s as [|c s IH]; intros r; simpl.
  - apply nullable_matches.
  - rewrite IH. apply deriv_matches.
Qed.

Lemma matches_star_class p s :
  matches (Star (Cls p)) s <-> forallb p s = true.
Proof.
  split.
  - assert (G : forall r w, matches r w -> r = Star (Cls p) ->
                forallb p w = true).
    { intros r w H. induction H; intros E; try discriminate; [reflexivity|].
      inversion E; subst r. inversion H; subst. simpl.
      rewrite (IHmatches2 eq_refl).
      match goal with Hc : p _ = true |- _ => now rewrite Hc end. }
    intros H. exact (G _ _ H eq_refl).
  - induction s as [|c s IH]; simpl; intros H; [constructor|].
    apply andb_true_iff in H. destruct H as [Hc Hs].
    change (c :: s) with ([c] ++ s).
    constructor; [now constructor | auto].
Qed.

Lemma matches_plus_class p s :
  matches (Plus (Cls p)) s <-> s <> [] /\ forallb p s = true.
Proof.
  unfold Plus. split.
  - intros H. apply matches_cat in H. destruct H as (u & v & -> & H1 & H2).
    apply matches_char in H1. destruct H1 as (c & -> & Hc).
    apply matches_star_class in H2. simpl. rewrite Hc, H2.
    split; [discriminate | reflexivity].
  - intros [Hne H]. destruct s as [|c s]; [contradiction|].
    simpl in H. apply andb_true_iff in H. destruct H as [Hc Hs].
    change (c :: s) with ([c] ++ s).
    constructor; [now constructor | now apply matches_star_class].
Qed.


(** ** The login modal *)

Section EmailFacts.
Import Login.

Lemma matches_two_letters (q : N -> bool) s :
  matches (Cat (Cls q) (Plus (Cls q))) s
  <-> (2 <= List.length s)%nat /\ forallb q s = true.
Proof.
  rewrite matches_cat. split.
  - intros (u & v & -> & Hu & Hv).
    apply matches_char in Hu. destruct Hu as (c & -> & Hc).
    apply matches_plus_class in Hv. destruct Hv as [Hne Hv].
    destruct v as [|d v]; [contradiction|].
    simpl in *. rewrite Hc. split; [lia | exact Hv].
  - intros [Hl H]. destruct s as [|c [|d s]]; simpl in Hl; try lia.
    cbn [forallb] in H. apply andb_true_iff in H. destruct H as [Hc H].
    exists [c], (d :: s). split; [reflexivity|].
    split; [now apply matches_char; eauto|].
    apply matches_plus_class. split; [discriminate | exact H].
Qed.

Lemma emailRegex_matches e :
  matches emailRegex e <->
  exists L D T,
    e = L ++ at_sign :: D ++ dot :: T
    /\ L <> [] /\ forallb isLocalChar L = true
    /\ D <> [] /\ forallb isDomainChar D = true
    /\ (2 <= List.length T)%nat /\ forallb isLetter T = true.
Proof.
  unfold emailRegex. split.
  - intros H.
    apply matches_cat in H. destruct H as (L & r1 & -> & HL & H).
    apply matches_cat in H. destruct H as (a & r2 & -> & Ha & H).
    apply matches_cat in H. destruct H as (D & r3 & -> & HD & H).
    apply matches_cat in H. destruct H as (d & T & -> & Hd & HT).
    apply matches_plus_class in HL, HD.
    apply matches_char in Ha, Hd.
    destruct Ha as (x & -> & Hx). destruct Hd as (y & -> & Hy).
    apply N.eqb_eq in Hx, Hy. subst x y.
    apply matches_two_letters in HT.
    exists L, D, T. cbn [app]. intuition.
  - intros (L & D & T & -> & HL & HL' & HD & HD' & HT & HT').
    apply matches_cat. exists L, (at_sign :: D ++ dot :: T).
    split; [reflexivity|]. split; [now apply matches_plus_class|].
    apply matches_cat. exists [at_sign], (D ++ dot :: T).
    split; [reflexivity|].
    split; [apply matches_char; exists at_sign; split; reflexivity|].
    apply matches_cat. exists D, (dot :: T).
    split; [reflexivity|]. split; [now apply matches_plus_class|].
    apply matches_cat. exists [dot], T.
    split; [reflexivity|].
    split; [apply matches_char; exists dot; split; reflexivity|].
    now apply matches_two_letters.
Qed.

Lemma count_occ_outside (q : N -> bool) (x : N) s :
  q x = false -> forallb q s = true -> count_occ N.eq_dec s x = 0%nat.
Proof.
  intros Hx. induction s as [|c s IH]; [reflexivity|].
  cbn [forallb]. intros H. apply andb_true_iff in H. destruct H as [Hc Hs].
  cbn [count_occ]. destruct (N.eq_dec c x) as [->|_]; [congruence | auto].
Qed.

Lemma letter_is_domain c : isLetter c = true -> isDomainChar c = true.
Proof. intros H. unfold isDomainChar. now rewrite H. Qed.

Lemma domain_is_local c : isDomainChar c = true -> isLocalChar c = true.
Proof.
  unfold isDomainChar, isLocalChar, isLetter. intros H.
  repeat (apply orb_true_iff in H; destruct H as [H|H]);
    rewrite H, ?orb_true_r; reflexivity.
Qed.

Lemma local_not_space c : isLocalChar c = true -> isWhiteSpace c = false.
Proof.
  intros H. unfold isLocalChar, isLetter, dot in H. class_false.
Qed.

(** X27. [validateEmail] accepts exactly the strings
    [local@domain.tld]: a non-empty local part of [[a-zA-Z0-9._%+-]],
    one [@], a non-empty domain of [[a-zA-Z0-9.-]], a dot and at least
    two letters. An accepted address therefore holds exactly one [@]
    and no white space. *)
Theorem validateEmail_accepts_local_at_domain (e : jsstring) :
  (validateEmail e = [] <->
   exists L D T,
     e = L ++ at_sign :: D ++ dot :: T
     /\ L <> [] /\ forallb isLocalChar L = true
     /\ D <> [] /\ forallb isDomainChar D = true
     /\ (2 <= List.length T)%nat /\ forallb isLetter T = true)
  /\ (validateEmail e = [] ->
      count_occ N.eq_dec e at_sign = 1%nat
      /\ forallb (fun c => negb (isWhiteSpace c)) e = true).
Proof.
  assert (Hiff : validateEmail e = [] <-> matches emailRegex e).
  { unfold validateEmail. rewrite <- test_matches.
    destruct e as [|c t].
    - cbn [truthy negb]. split; [discriminate|].
      intros H. vm_compute in H. discriminate.
    - cbn [truthy negb]. destruct (test emailRegex (c :: t));
        split; try reflexivity; discriminate. }
  split; [rewrite Hiff; apply emailRegex_matches|].
  intros H. apply Hiff, emailRegex_matches in H.
  destruct H as (L & D & T & -> & _ & HL & _ & HD & _ & HT).
  assert (HD' : forallb isLocalChar D = true)
    by (eapply forallb_impl; [apply domain_is_local | exact HD]).
  assert (HT' : forallb isLocalChar T = true).
  { eapply forallb_impl; [|exact HT].
    intros c Hc. now apply domain_is_local, letter_is_domain. }
  split.
  - rewrite count_occ_app. cbn [count_occ].
    destruct (N.eq_dec at_sign at_sign) as [_|Hn]; [|contradiction].
    rewrite count_occ_app. cbn [count_occ].
    destruct (N.eq_dec dot at_sign) as [Hn|_]; [discriminate|].
    rewrite (count_occ_outside isLocalChar at_sign L eq_refl HL).
    rewrite (count_occ_outside isLocalChar at_sign D eq_refl HD').
    rewrite (count_occ_outside isLocalChar at_sign T eq_refl HT').
    reflexivity.
  - rewrite forallb_app. cbn [forallb]. rewrite forallb_app. cbn [forallb].
    assert (Hs : forall s, forallb isLocalChar s = true ->
                 forallb (fun c => negb (isWhiteSpace c)) s = true).
    { intros s. apply forallb_impl. intros c Hc.
      now rewrite (local_not_space c Hc). }
    now rewrite (Hs L HL), (Hs D HD'), (Hs T HT').
Qed.

Example validateEmail_examples :
  validateEmail (js "jane.doe+art@muse-coin.example.com") = []
  /\ validateEmail (js "jane@localhost") = js "Please enter a valid email address"
  /\ validateEmail (js "jane@@example.com") = js "Please enter a valid email address"
  /\ validateEmail (js "jane doe@example.com") = js "Please enter a valid email address"
  /\ validateEmail (js "jane@example.c") = js "Please enter a valid email address"
  /\ validateEmail [] = js "Email is required".
Proof. repeat split. Qed.
End EmailFacts.

Lemma validateEmail_accepts_local_at_domain_witness :
  count_occ N.eq_dec (js "jane@example.com") Login.at_sign = 1%nat
  /\ forallb (fun c => negb (isWhiteSpace c)) (js "jane@example.com") = true.
Proof.
  apply (proj2 (validateEmail_accepts_local_at_domain (js "jane@example.com"))).
  reflexivity.
Defined.

Section LoginFacts.
Import Login.
Variable net : Home.Network.
Variable snap : State.

Lemma noError_some e : noError (Some e) = true -> e = [].
Proof. destruct e; [reflexivity | discriminate]. Qed.

Lemma loginValid_fields :
  loginValid snap = true ->
  validateEmail (email (loginFormData snap)) = []
  /\ Home.validatePassword (password (loginFormData snap)) = []
  /\ (isLogin snap = false ->
      Home.validateName (name (loginFormData snap)) = []
      /\ Home.validateMobile (mobile (loginFormData snap)) = []).
Proof.
  unfold loginValid, loginErrors. cbn [nameError mobileError emailError passwordError].
  rewrite !andb_true_iff. intros [[[Hn Hm] He] Hp].
  split; [now apply noError_some|]. split; [now apply noError_some|].
  intros Hl. rewrite Hl in Hn, Hm. split; now apply noError_some.
Qed.

(** What the answer to the login request does to the session. *)
Lemma onLoginResponse_outcomes (response : Home.Response) (st : State) :
  let r := onLoginResponse response st in
  requests (logOf r) = []
  /\ isLoggingIn (stateOf r) = isLoggingIn st
  /\ ((isAuthenticated (stateOf r) = isAuthenticated st
       /\ stored (logOf r) = [])
      \/ (exists data data_success artist,
            response = Home.HttpResponse true (Some data)
            /\ getProp data (js "success") = Some data_success
            /\ isTruthy data_success = true
            /\ getProp data (js "artist") = Some artist
            /\ isAuthenticated (stateOf r) = true
            /\ artistData (stateOf r) = artist
            /\ stored (logOf r) = [(js "artistData", artist)])).
Proof.
  cbv zeta.
  assert (Hshow : forall t ty,
            requests (logOf (showLoginMessage t ty st)) = []
            /\ isLoggingIn (stateOf (showLoginMessage t ty st)) = isLoggingIn st
            /\ ((isAuthenticated (stateOf (showLoginMessage t ty st))
                 = isAuthenticated st
                 /\ stored (logOf (showLoginMessage t ty st)) = [])
                \/ (exists data data_success artist,
                      response = Home.HttpResponse true (Some data)
                      /\ getProp data (js "success") = Some data_success
                      /\ isTruthy data_success = true
                      /\ getProp data (js "artist") = Some artist
                      /\ isAuthenticated (stateOf (showLoginMessage t ty st)) = true
                      /\ artistData (stateOf (showLoginMessage t ty st)) = artist
                      /\ stored (logOf (showLoginMessage t ty st))
                         = [(js "artistData", artist)])))
    by (intros t ty; split; [reflexivity|]; split; [reflexivity|];
        left; split; reflexivity).
  assert (Hrefused : forall data,
            requests (logOf (loginRefused data st)) = []
            /\ isLoggingIn (stateOf (loginRefused data st)) = isLoggingIn st
            /\ ((isAuthenticated (stateOf (loginRefused data st))
                 = isAuthenticated st
                 /\ stored (logOf (loginRefused data st)) = [])
                \/ (exists data0 data_success artist,
                      response = Home.HttpResponse true (Some data0)
                      /\ getProp data0 (js "success") = Some data_success
                      /\ isTruthy data_success = true
                      /\ getProp data0 (js "artist") = Some artist
                      /\ isAuthenticated (stateOf (loginRefused data st)) = true
                      /\ artistData (stateOf (loginRefused data st)) = artist
                      /\ stored (logOf (loginRefused data st))
                         = [(js "artistData", artist)]))).
  { intros data. unfold loginRefused, loginCaught.
    destruct (errorOr "Login failed" data); apply Hshow. }
  unfold onLoginResponse.
  destruct response as [|[|] [data|]];
    try (apply Hshow); try (apply Hrefused).
  destruct (getProp data (js "success")) as [data_success|] eqn:Hs;
    [|destruct (getProp data (js "artist")); apply Hshow].
  destruct (getProp data (js "artist")) as [artist|] eqn:Ha; [|apply Hshow].
  destruct (isTruthy data_success) eqn:Ht; [|apply Hrefused].
  split; [reflexivity|]. split; [reflexivity|]. right.
  exists data, data_success, artist.
  do 4 (split; [first [reflexivity | assumption]|]).
  split; [reflexivity|]. split; reflexivity.
Qed.

(** The runs of [handleLogin]: stopped by the validation, refused or
    failed, accepted. *)
Lemma handleLogin_outcomes (st : State) :
  let r := handleLogin net snap st in
  (loginValid snap = false
   /\ requests (logOf r) = [] /\ stored (logOf r) = []
   /\ loginMessage (stateOf r)
      = Some {| text := js "Please fix the errors above"; type := error |}
   /\ fieldErrors (stateOf r) = loginErrors snap
   /\ isAuthenticated (stateOf r) = isAuthenticated st
   /\ isLoggingIn (stateOf r) = isLoggingIn st)
  \/ (loginValid snap = true
      /\ requests (logOf r) = [loginRequest snap]
      /\ isLoggingIn (stateOf r) = false
      /\ ((isAuthenticated (stateOf r) = isAuthenticated st
           /\ stored (logOf r) = [])
          \/ (exists data data_success artist,
                net (loginRequest snap) = Home.HttpResponse true (Some data)
                /\ getProp data (js "success") = Some data_success
                /\ isTruthy data_success = true
                /\ getProp data (js "artist") = Some artist
                /\ isAuthenticated (stateOf r) = true
                /\ artistData (stateOf r) = artist
                /\ stored (logOf r) = [(js "artistData", artist)]))).
Proof.
  cbv zeta. unfold handleLogin, validateLoginForm.
  cbn [bind ret setFieldErrors setTouched fst snd valueOf stateOf logOf].
  fold (loginValid snap).
  destruct (loginValid snap) eqn:Hvalid; cbn [negb].
  - right. split; [reflexivity|].
    cbn [bind ret setIsLoggingIn showLoginMessage setLoginMessage emit fetch
         fst snd valueOf stateOf logOf app].
    match goal with
    | |- context [onLoginResponse ?resp ?s0] =>
        destruct (onLoginResponse_outcomes resp s0) as (Hr & Hl & Hcase);
        destruct (onLoginResponse resp s0) as [[u s2] l2]
    end.
    cbn [fst snd valueOf stateOf logOf isLoggingIn isAuthenticated artistData]
      in *.
    unfold requests, stored in *.
    rewrite ?flat_map_app. cbn [flat_map app]. rewrite ?app_nil_r.
    rewrite Hr. split; [reflexivity|]. split; [reflexivity|]. exact Hcase.
  - left. do 6 (split; [reflexivity|]). reflexivity.
Qed.

(** X28. [handleLogin] makes a request only when the form passed
    [validateLoginForm]: the e-mail and the password are valid (and, on
    the registration side of the modal, the name and the mobile number
    too). It makes at most one request, the login request with the
    e-mail and the password as typed. When the form does not pass,
    nothing is sent and "Please fix the errors above" is shown with the
    errors of the fields. *)
Theorem handleLogin_gated (st : State) :
  let r := handleLogin net snap st in
  (forall req, In req (requests (logOf r)) ->
     req = loginRequest snap
     /\ validateEmail (email (loginFormData snap)) = []
     /\ Home.validatePassword (password (loginFormData snap)) = []
     /\ (isLogin snap = false ->
         Home.validateName (name (loginFormData snap)) = []
         /\ Home.validateMobile (mobile (loginFormData snap)) = []))
  /\ (List.length (requests (logOf r)) <= 1)%nat
  /\ (loginValid snap = false ->
      requests (logOf r) = []
      /\ loginMessage (stateOf r)
         = Some {| text := js "Please fix the errors above"; type := error |}
      /\ fieldErrors (stateOf r) = loginErrors snap).
Proof.
  cbv zeta.
  destruct (handleLogin_outcomes st)
    as [(Hv & Hr & _ & Hm & He & _)|(Hv & Hr & _)]; rewrite Hr.
  - split; [intros req []|]. split; [cbn [List.length]; lia|]. auto.
  - split; [|split; [cbn [List.length]; lia | congruence]].
    intros req [<-|[]]. split; [reflexivity | now apply loginValid_fields].
Qed.

(** X29. [handleLogin] authenticates only on an accepted login: if the
    artist was not authenticated before and is after the run, then the
    response was ok with a body whose [success] is truthy, and the
    [artist] of that body is what the state holds and what is written,
    once, under the key [artistData]. A run that does not end
    authenticated writes nothing to the storage. And the run ends with
    [isLoggingIn] lowered when it started so. *)
Theorem handleLogin_authenticates_on_success (st : State) :
  let r := handleLogin net snap st in
  (isAuthenticated st = false -> isAuthenticated (stateOf r) = true ->
     exists data data_success artist,
       net (loginRequest snap) = Home.HttpResponse true (Some data)
       /\ getProp data (js "success") = Some data_success
       /\ isTruthy data_success = true
       /\ getProp data (js "artist") = Some artist
       /\ artistData (stateOf r) = artist
       /\ stored (logOf r) = [(js "artistData", artist)])
  /\ (stored (logOf r) = [] \/ isAuthenticated (stateOf r) = true)
  /\ (isLoggingIn st = false -> isLoggingIn (stateOf r) = false).
Proof.
  cbv zeta.
  destruct (handleLogin_outcomes st)
    as [(_ & _ & Hs & _ & _ & Ha & Hl)
       |(_ & _ & Hl & [(Ha & Hs)
                      |(data & ds & artist & H1 & H2 & H3 & H4 & Ha & Hd & Hs)])].
  - split; [intros; congruence|]. split; [now left | congruence].
  - split; [intros; congruence|]. split; [now left | auto].
  - split; [|split; [now right | auto]].
    intros _ _. exists data, ds, artist. repeat split; assumption.
Qed.
End LoginFacts.

Section LoginInputFacts.
Import Login.
Variable snap : State.

Lemma validateName_not_too_long v :
  len v <= 30 -> Home.validateName v <> tooLongMessage.
Proof.
  intros H. unfold Home.validateName.
  destruct (negb (truthy v)); [discriminate|].
  destruct (N.ltb_spec 30 (len v)); [lia|].
  destruct (len v <? 2); discriminate.
Qed.

Lemma validateField_name v : validateField (js "name") v = Home.validateName v.
Proof. reflexivity. Qed.

(** X30. Typing never takes the name beyond 30 code units: a longer
    value for the name is dropped without any change, so a stored name
    of at most 30 stays so through every change of every field, and the
    error recorded for the name is never "Name must be 30 characters or
    less". A change that is kept stores the value and the verdict of the
    field's validator, and marks the field as touched. *)
Theorem handleLoginInputChange_caps_name
    (f : LoginField) (value : jsstring) (st : State) :
  let r := handleLoginInputChange snap f value st in
  (len (name (loginFormData st)) <= 30 ->
     len (name (loginFormData (stateOf r))) <= 30)
  /\ (nameError (fieldErrors st) <> Some tooLongMessage ->
      nameError (fieldErrors (stateOf r)) <> Some tooLongMessage)
  /\ (f = lName -> 30 < len value -> r = (tt, st, []))
  /\ ((f = lName -> len value <= 30) ->
      loginFormData (stateOf r) = setValue f value (loginFormData st)
      /\ fieldErrors (stateOf r)
         = setError f (validateField (fieldName f) value) (fieldErrors st)
      /\ touched (stateOf r) = touch f (touched st)
      /\ logOf r = []).
Proof.
  cbv zeta. unfold handleLoginInputChange.
  destruct f.
  - destruct (N.ltb_spec 30 (len value)) as [Hlong|Hok].
    + split; [auto|]. split; [auto|]. split; [reflexivity|].
      intros H. specialize (H eq_refl). lia.
    + destruct (loginMessage snap);
        cbn [bind ret setLoginFormData setTouched setFieldErrors setLoginMessage
             fst snd stateOf logOf loginFormData fieldErrors touched name
             setValue setError nameError app];
        (split; [intros _; exact Hok|]);
        (split; [intros _ E; inversion E as [E'];
                 now apply (validateName_not_too_long value Hok)|]);
        (split; [intros _ H; lia|]); intros _; repeat split.
  - destruct (loginMessage snap);
      cbn [bind ret setLoginFormData setTouched setFieldErrors setLoginMessage
           fst snd stateOf logOf loginFormData fieldErrors touched name
           setValue setError nameError app];
      (split; [auto|]); (split; [auto|]);
      (split; [discriminate|]); intros _; repeat split.
  - destruct (loginMessage snap);
      cbn [bind ret setLoginFormData setTouched setFieldErrors setLoginMessage
           fst snd stateOf logOf loginFormData fieldErrors touched name
           setValue setError nameError app];
      (split; [auto|]); (split; [auto|]);
      (split; [discriminate|]); intros _; repeat split.
  - destruct (loginMessage snap);
      cbn [bind ret setLoginFormData setTouched setFieldErrors setLoginMessage
           fst snd stateOf logOf loginFormData fieldErrors touched name
           setValue setError nameError app];
      (split; [auto|]); (split; [auto|]);
      (split; [discriminate|]); intros _; repeat split.
Qed.
End LoginInputFacts.

Lemma handleLogin_gated_witness :
  Login.requests
    (Login.logOf (Login.handleLogin Login.welcoming
                    (Login.typed "jane@example.com" "secret")
                    (Login.typed "jane@example.com" "secret")))
  = [Login.loginRequest (Login.typed "jane@example.com" "secret")]
  /\ Login.requests
       (Login.logOf (Login.handleLogin Login.welcoming
                       (Login.typed "jane@example" "secret")
                       (Login.typed "jane@example" "secret")))
     = [].
Proof.
  split; [reflexivity|].
  apply (proj2 (proj2 (handleLogin_gated Login.welcoming
                         (Login.typed "jane@example" "secret")
                         (Login.typed "jane@example" "secret")))).
  reflexivity.
Defined.

Lemma handleLogin_authenticates_on_success_witness :
  exists data data_success artist,
    Login.welcoming (Login.loginRequest (Login.typed "jane@example.com" "secret"))
    = Home.HttpResponse true (Some data)
    /\ getProp data (js "success") = Some data_success
    /\ isTruthy data_success = true
    /\ getProp data (js "artist") = Some artist
    /\ Login.artistData
         (Login.stateOf (Login.handleLogin Login.welcoming
                           (Login.typed "jane@example.com" "secret")
                           (Login.typed "jane@example.com" "secret")))
       = artist
    /\ Login.stored
         (Login.logOf (Login.handleLogin Login.welcoming
                         (Login.typed "jane@example.com" "secret")
                         (Login.typed "jane@example.com" "secret")))
       = [(js "artistData", artist)].
Proof.
  apply (proj1 (handleLogin_authenticates_on_success Login.welcoming
                  (Login.typed "jane@example.com" "secret")
                  (Login.typed "jane@example.com" "secret")));
    reflexivity.
Defined.

Lemma handleLoginInputChange_caps_name_witness :
  Login.handleLoginInputChange Login.blank Login.lName
    (js "An artist name that runs well past thirty") Login.blank
  = (tt, Login.blank, []).
Proof.
  apply (proj1 (proj2 (proj2
    (handleLoginInputChange_caps_name Login.blank Login.lName
       (js "An artist name that runs well past thirty") Login.blank))));
    [reflexivity | vm_compute; reflexivity].
Defined.
